(** * Duplicate receipt detection: a shallow embedding

    Embedding of [duplicateDetectionService.js] (string similarity, the
    candidate matcher [findPotentialDuplicates], the deep analyser
    [aiDuplicateAnalysis]), of the duplicate gate and the categorisation
    step of the upload route in [server.js], of [categories.js] and of the
    extraction of receipt data in [uniapiService.js].

    Conventions.
    - A JavaScript string is the list of its UTF-16 code units; [length]
      and indexing work on code units, as [String.prototype.length] and
      [s[i]] do.
    - Amounts are binary64 numbers ([float64], the format of the Standard
      Library's [SpecFloat]); products, quotients and differences of
      amounts round to the nearest number, ties to even, as the source's
      do, and a numeric literal [q] of the source is [b64 q].
    - The other numbers are exact rationals ([Q]), with one extra value
      [NaN] where the code can meet it: the similarity, which is a quotient
      of string lengths, for which the correctly rounded quotient and the
      exact one compare alike against the thresholds 0.7 and 0.9, and the
      numbers of a parsed JSON text.
    - Code that can throw returns an [outcome]; [try]/[catch] is [catch].
    - Built-ins of the runtime whose definition lies outside the repository
      ([toLowerCase], [parseFloat], [Date], [JSON.parse], [ToNumber]) are
      the fields of the class [Runtime], those of Node ([path.extname],
      SHA-256) the fields of the class [NodeLib]; file and network access
      are the fields of the records [World] and [OcrWorld]. *)

From Stdlib Require Import QArith Qround Qabs SpecFloat.
From stdpp Require Import base option list numbers strings sorting.

Local Open Scope nat_scope.

(** ** JavaScript values *)

Definition codeunit := N.
Definition jsstring := list codeunit.

(** Code units of a Basic Latin literal. *)
Definition u16 (s : string) : jsstring :=
  map Ascii.N_of_ascii (String.list_ascii_of_string s).

Inductive jsnum :=
  | NaN
  | Num (q : Q).

(** The values JSON text denotes, and [undefined] for an absent property. *)
#[local] Set Warnings "-register-all".
Inductive jsval :=
  | JUndefined
  | JNull
  | JBool (b : bool)
  | JNum (q : Q)
  | JStr (s : jsstring)
  | JArr (elems : list jsval)
  | JObj (fields : list (jsstring * jsval)).

Record jserror := Error { message : jsstring }.

Inductive outcome (A : Type) :=
  | Ok (a : A)
  | Throw (e : jserror).
Arguments Ok {A} a.
Arguments Throw {A} e.

Definition bind {A B} (m : outcome A) (k : A -> outcome B) : outcome B :=
  match m with
  | Ok a => k a
  | Throw e => Throw e
  end.

Definition catch {A} (m : outcome A) (handler : jserror -> outcome A)
    : outcome A :=
  match m with
  | Ok a => Ok a
  | Throw e => handler e
  end.

Notation "x <- m ;; k" := (bind m (fun x => k))
  (at level 100, m at next level, right associativity).

Definition TypeError : jserror :=
  Error (u16 "Cannot read properties of undefined").

(** [x || alt] and [if (x)] look at truthiness. *)
Definition truthy (v : jsval) : bool :=
  match v with
  | JUndefined | JNull => false
  | JBool b => b
  | JNum q => negb (Qeq_bool q 0)
  | JStr s => bool_decide (s ≠ [])
  | JArr _ | JObj _ => true
  end.

Definition truthy_str (s : option jsstring) : bool :=
  match s with
  | None => false
  | Some s => bool_decide (s ≠ [])
  end.

(** [(s || '')] for a value that is a string, [null] or [undefined]. *)
Definition orEmpty (s : option jsstring) : jsstring :=
  match s with
  | None => []
  | Some s => s
  end.

Fixpoint assoc (name : jsstring) (fields : list (jsstring * jsval))
    : option jsval :=
  match fields with
  | [] => None
  | (k, v) :: rest => if decide (k = name) then Some v else assoc name rest
  end.

(** [v.name] for the property names read by the service: none of them is
    an own property of a string, a number, a boolean or an array. *)
Definition getProp (v : jsval) (name : jsstring) : outcome jsval :=
  match v with
  | JUndefined | JNull => Throw TypeError
  | JObj fields => Ok (default JUndefined (assoc name fields))
  | JBool _ | JNum _ | JStr _ | JArr _ => Ok JUndefined
  end.

(** [v[0]]. *)
Definition getIndex0 (v : jsval) : outcome jsval :=
  match v with
  | JUndefined | JNull => Throw TypeError
  | JArr elems => Ok (default JUndefined (head elems))
  | JObj fields => Ok (default JUndefined (assoc (u16 "0") fields))
  | JStr s => Ok (match s with [] => JUndefined | c :: _ => JStr [c] end)
  | JBool _ | JNum _ => Ok JUndefined
  end.

(** ** Numbers *)

Definition Qltb (x y : Q) : bool := negb (Qle_bool y x).

(** [x < y]; every comparison with [NaN] is false. *)
Definition num_lt (x y : jsnum) : bool :=
  match x, y with
  | Num a, Num b => Qltb a b
  | _, _ => false
  end.

(** ** Binary64

    A number of the source is a [spec_float] of precision 53 and exponent
    bound 1024: a signed zero, a signed infinity, [NaN], or
    [S754_finite s m e], which is [m * 2 ^ e], negated when [s] is set.
    The operations are IEEE 754's, rounding to nearest, ties to even. *)
Definition float64 := spec_float.
Definition prec : Z := 53.
Definition emax : Z := 1024.

(** The number next to the rational [q]: what the numeric literal [q]
    denotes. *)
Definition b64 (q : Q) : float64 :=
  match Qnum q with
  | Z0 => S754_zero false
  | Zpos n =>
      let '(m, e, l) :=
        SFdiv_core_binary prec emax (Zpos n) 0 (Zpos (Qden q)) 0 in
      binary_round_aux prec emax false m e l
  | Zneg n =>
      let '(m, e, l) :=
        SFdiv_core_binary prec emax (Zpos n) 0 (Zpos (Qden q)) 0 in
      binary_round_aux prec emax true m e l
  end.

(** [x * y], [x / y], [x - y], [x < y] *)
Definition mul64 : float64 -> float64 -> float64 := SFmul prec emax.
Definition div64 : float64 -> float64 -> float64 := SFdiv prec emax.
Definition sub64 : float64 -> float64 -> float64 := SFsub prec emax.
Definition lt64 : float64 -> float64 -> bool := SFltb.

Definition Math_abs : float64 -> float64 := SFabs.

(** [Math.round]: the nearest integer, halves towards plus infinity; a
    number with [0 <= e] is an integer already, a negative result that
    rounds to zero is [-0].  With [e = - k] the number is [± m / 2 ^ k],
    and the integer is the floor of [(± 2 m + 2 ^ k) / 2 ^ (k + 1)], which
    is below [2 ^ 53] in magnitude and hence a number. *)
Definition Math_round (x : float64) : float64 :=
  match x with
  | S754_finite s m (Zneg k) =>
      binary_normalize prec emax
        ((cond_Zopp s (2 * Zpos m) + 2 ^ Zpos k) / 2 ^ (Zpos k + 1))%Z 0 s
  | _ => x
  end.

(** ** The runtime *)

Class Runtime := {
  (** [String.prototype.toLowerCase] *)
  toLowerCase : jsstring -> jsstring;
  (** [parseFloat] on a string *)
  parseFloat : jsstring -> float64;
  (** [new Date(s).toISOString()]; throws [RangeError] on an invalid date *)
  Date_toISOString : jsstring -> outcome jsstring;
  (** [JSON.parse]; throws [SyntaxError] *)
  JSON_parse : jsstring -> outcome jsval;
  (** the abstract operation [ToNumber] *)
  ToNumber : jsval -> jsnum;
  ToNumber_num : forall q, ToNumber (JNum q) = Num q
}.

(** [String.prototype.trim] strips WhiteSpace and LineTerminator code
    units from both ends. *)
Definition isWhiteSpace (c : codeunit) : bool :=
  bool_decide (c ∈ [9; 10; 11; 12; 13; 32; 160; 5760; 8232; 8233; 8239;
                     8287; 12288; 65279]%N)
  || bool_decide (8192 ≤ c ≤ 8202)%N.

Fixpoint trimStart (s : jsstring) : jsstring :=
  match s with
  | [] => []
  | c :: rest => if isWhiteSpace c then trimStart rest else s
  end.

Definition trim (s : jsstring) : jsstring :=
  reverse (trimStart (reverse (trimStart s))).

(** ** stringSimilarity *)

(** [a[i] = v] on an array of numbers: overwrite in range, push at the
    end.  (Further out JavaScript leaves holes; the loops below never
    write there, the filler is immaterial.) *)
Definition array_set (a : list nat) (i v : nat) : list nat :=
  if decide (i < length a) then <[i:=v]> a
  else a ++ replicate (i - length a) 0 ++ [v].

(** Body of the inner [for (j ...)] loop; the state is [costs] and
    [lastValue]. *)
Definition inner_body (shorter longer : jsstring) (i : nat)
    (st : list nat * nat) (j : nat) : list nat * nat :=
  let '(costs, lastValue) := st in
  if decide (i = 0) then (array_set costs j j, lastValue)
  else if decide (0 < j) then
    let newValue := costs !!! (j - 1) in
    let newValue :=
      if decide (shorter !! (i - 1) ≠ longer !! (j - 1))
      then Nat.min (Nat.min newValue lastValue) (costs !!! j) + 1
      else newValue in
    (array_set costs (j - 1) lastValue, newValue)
  else (costs, lastValue).

(** Body of the outer [for (i ...)] loop. *)
Definition outer_body (shorter longer : jsstring) (costs : list nat)
    (i : nat) : list nat :=
  let '(costs, lastValue) :=
    foldl (inner_body shorter longer i) (costs, i)
          (seq 0 (S (length longer))) in
  array_set costs (length longer) lastValue.

(** [costs] when both loops are over. *)
Definition editCosts (shorter longer : jsstring) : list nat :=
  foldl (outer_body shorter longer) [] (seq 0 (S (length shorter))).

Definition Q_of_nat (n : nat) : Q := inject_Z (Z.of_nat n).

Definition stringSimilarity `{Runtime} (str1 str2 : option jsstring) : Q :=
  let s1 := trim (toLowerCase (orEmpty str1)) in
  let s2 := trim (toLowerCase (orEmpty str2)) in
  if decide (s1 = s2) then 1%Q
  else if decide (length s1 = 0 ∨ length s2 = 0) then 0%Q
  else
    let longer := if decide (length s2 < length s1) then s1 else s2 in
    let shorter := if decide (length s2 < length s1) then s2 else s1 in
    let costs := editCosts shorter longer in
    ((Q_of_nat (length longer) - Q_of_nat (costs !!! length longer))
       / Q_of_nat (length longer))%Q.

(** ** normalizeAmount, normalizeDate *)

(** The [amount] of a receipt as the OCR step stores it: missing ([null]
    or [undefined]), a number, or text. *)
Inductive jsamount :=
  | AmountAbsent
  | AmountNum (x : float64)
  | AmountStr (s : jsstring).

(** [amount || 0]: the falsy numbers are the two zeros and [NaN]. *)
Definition orZero (a : jsamount) : jsamount :=
  match a with
  | AmountAbsent => AmountNum (b64 0)
  | AmountNum (S754_zero _ | S754_nan) => AmountNum (b64 0)
  | AmountNum _ => a
  | AmountStr s => if decide (s = []) then AmountNum (b64 0) else a
  end.

(** [parseFloat(x)]: a number is printed and read back, which returns
    it ([-0] would come back as [0], and is replaced before it gets
    here); a string is parsed by the runtime. *)
Definition parseFloat_of `{Runtime} (a : jsamount) : float64 :=
  match a with
  | AmountAbsent => S754_nan
  | AmountNum x => x
  | AmountStr s => parseFloat s
  end.

Definition normalizeAmount `{Runtime} (amount : jsamount) : float64 :=
  div64 (Math_round (mul64 (parseFloat_of (orZero amount)) (b64 100)))
        (b64 100).

(** [iso.split('T')[0]] *)
Fixpoint beforeT (s : jsstring) : jsstring :=
  match s with
  | [] => []
  | c :: rest => if decide (c = 84%N) then [] else c :: beforeT rest
  end.

(** The result is [None] for [null]. *)
Definition normalizeDate `{Runtime} (dateStr : option jsstring)
    : option jsstring :=
  if negb (truthy_str dateStr) then None
  else
    match Date_toISOString (orEmpty dateStr) with
    | Ok iso => Some (beforeT iso)
    | Throw _ => None
    end.

(** ** Records *)

Record Item := { name : option jsstring }.

Record OcrData := {
  amount : jsamount;
  date : option jsstring;
  merchant : option jsstring;
  items : option (list Item)
}.

(** [{}] *)
Definition emptyOcr : OcrData :=
  {| amount := AmountAbsent; date := None; merchant := None; items := None |}.

(** A row of the table [receipts], with the columns the service reads. *)
Record Row := {
  row_id : jsstring;
  user_id : jsstring;
  ocr_data : option OcrData;
  duplicate_of : option jsstring;
  uploaded_at : jsstring;
  row_status : jsstring;
  file_path : jsstring
}.

Record MatchResult := {
  mr_id : jsstring;
  userId : jsstring;
  confidence : nat;
  reasons : list jsstring;
  merchantSimilarity : Q;
  ocrData : OcrData;
  uploadedAt : jsstring;
  mr_status : jsstring;
  filePath : jsstring
}.

(** ** findPotentialDuplicates *)

Inductive sqlparam :=
  | PNum (x : float64)
  | PStr (s : jsstring).

(** [db.query(text, params)] *)
Definition Db := jsstring -> list sqlparam -> outcome (list Row).

Definition amountMatch `{Runtime} (newAmount : float64)
    (existingOcr : OcrData) : bool :=
  lt64 (Math_abs (sub64 newAmount (normalizeAmount (amount existingOcr))))
       (b64 (1 # 100)).

(** [newDate && existingDate && newDate === existingDate], as a condition *)
Definition dateMatch (newDate existingDate : option jsstring) : bool :=
  truthy_str newDate && truthy_str existingDate
  && bool_decide (newDate = existingDate).

(** The scores of one comparison: [confidence], [reasons] and
    [merchantSimilarity] right before the threshold test. *)
Definition rowScore `{Runtime} (newAmount : float64)
    (newDate : option jsstring) (newMerchant : jsstring)
    (existingOcr : OcrData)
    : nat * list jsstring * Q :=
  let existingDate := normalizeDate (date existingOcr) in
  let existingMerchant := toLowerCase (orEmpty (merchant existingOcr)) in
  let amountMatch := amountMatch newAmount existingOcr in
  let dateMatch := dateMatch newDate existingDate in
  let merchantSimilarity :=
    stringSimilarity (Some newMerchant) (Some existingMerchant) in
  let merchantMatch := Qltb (7 # 10) merchantSimilarity in
  let '(confidence, reasons) := (0, []) in
  let '(confidence, reasons) :=
    if amountMatch then (confidence + 40, reasons ++ [u16 "Same amount"])
    else (confidence, reasons) in
  let '(confidence, reasons) :=
    if dateMatch then (confidence + 35, reasons ++ [u16 "Same date"])
    else (confidence, reasons) in
  let '(confidence, reasons) :=
    if merchantMatch
    then (confidence + 25,
          reasons ++ [if Qltb (9 # 10) merchantSimilarity
                      then u16 "Same merchant" else u16 "Similar merchant"])
    else (confidence, reasons) in
  (confidence, reasons, merchantSimilarity).

(** The object literal pushed onto [duplicates]. *)
Definition pushed (existing : Row) (existingOcr : OcrData)
    (score : nat * list jsstring * Q) : MatchResult :=
  let '(confidence, reasons, merchantSimilarity) := score in
  {| mr_id := row_id existing;
     userId := user_id existing;
     confidence := confidence;
     reasons := reasons;
     merchantSimilarity := merchantSimilarity;
     ocrData := existingOcr;
     uploadedAt := uploaded_at existing;
     mr_status := row_status existing;
     filePath := file_path existing |}.

(** One turn of [for (const existing of result.rows)]: [None] when the
    row is skipped or stays below the threshold. *)
Definition scoreRow `{Runtime} (newAmount : float64)
    (newDate : option jsstring) (newMerchant : jsstring) (existing : Row)
    : option MatchResult :=
  let existingOcr := default emptyOcr (ocr_data existing) in
  if truthy_str (duplicate_of existing) then None
  else
    let score := rowScore newAmount newDate newMerchant existingOcr in
    if decide (60 ≤ score.1.1) then Some (pushed existing existingOcr score)
    else None.

(** The loop over the rows, pushing onto [duplicates]. *)
Definition scanRows `{Runtime} (newAmount : float64)
    (newDate : option jsstring) (newMerchant : jsstring) (rows : list Row)
    : list MatchResult :=
  foldl (fun duplicates existing =>
           match scoreRow newAmount newDate newMerchant existing with
           | Some r => duplicates ++ [r]
           | None => duplicates
           end) [] rows.

(** [Array.prototype.sort(cmp)] is a stable sort (ECMAScript 2019; the
    image runs Node 20): insertion from the right keeps the order of the
    elements that [cmp] does not separate. *)
Fixpoint sort_insert {A} (cmp : A -> A -> Z) (x : A) (l : list A) : list A :=
  match l with
  | [] => [x]
  | y :: rest =>
      if decide (cmp x y ≤ 0)%Z then x :: l else y :: sort_insert cmp x rest
  end.

Definition Array_sort {A} (cmp : A -> A -> Z) (l : list A) : list A :=
  foldr (sort_insert cmp) [] l.

(** [(a, b) => b.confidence - a.confidence] *)
Definition byConfidenceDesc (a b : MatchResult) : Z :=
  (Z.of_nat (confidence b) - Z.of_nat (confidence a))%Z.

Definition baseQuery : jsstring :=
  u16 ("SELECT * FROM receipts WHERE (ocr_data->>'amount')::numeric >= $1"
       +:+ " AND (ocr_data->>'amount')::numeric <= $2").

Definition queryStr (userId : option jsstring) : jsstring :=
  baseQuery ++ (if truthy_str userId then u16 " AND user_id = $3" else [])
            ++ u16 " LIMIT 50".

Definition queryParams (newAmount : float64) (userId : option jsstring)
    : list sqlparam :=
  [PNum (mul64 newAmount (b64 (95 # 100)));
   PNum (mul64 newAmount (b64 (105 # 100)))]
  ++ (if truthy_str userId then [PStr (orEmpty userId)] else []).

Definition findPotentialDuplicates `{Runtime} (db : Db) (newReceipt : OcrData)
    (userId : option jsstring) : outcome (list MatchResult) :=
  let newAmount := normalizeAmount (amount newReceipt) in
  let newDate := normalizeDate (date newReceipt) in
  let newMerchant := toLowerCase (orEmpty (merchant newReceipt)) in
  rows <- db (queryStr userId) (queryParams newAmount userId) ;;
  let duplicates := scanRows newAmount newDate newMerchant rows in
  Ok (Array_sort byConfidenceDesc duplicates).

(** ** aiDuplicateAnalysis *)

Definition buffer := list N.

Record UniapiConfig := {
  baseUrl : jsstring;
  model : jsstring;
  key : jsstring
}.

(** One entry of [existingData]. *)
Record ExistingSummary := {
  es_id : jsstring;
  es_merchant : option jsstring;
  es_amount : jsamount;
  es_date : option jsstring;
  es_items : option jsstring
}.

(** What [axios.post] is called with.  The prompt is a fixed text around
    [JSON.stringify(existingData, null, 2)] and the image goes out as a
    base64 data URL; the record keeps the parts that vary. *)
Record Request := {
  req_url : jsstring;
  req_model : jsstring;
  req_existingData : list ExistingSummary;
  req_image : buffer;
  req_max_tokens : N;
  req_authorization : jsstring;
  req_timeout : N
}.

(** File system and network, as seen by one call. *)
Record World := {
  fs_readFileSync : jsstring -> outcome buffer;
  (** resolves with the response object, or rejects (network error,
      status outside 2xx, timeout) *)
  axios_post : Request -> outcome jsval
}.

(** [names.join(', ')]; an absent name prints as the empty string. *)
Fixpoint join (sep : jsstring) (l : list (option jsstring)) : jsstring :=
  match l with
  | [] => []
  | [x] => orEmpty x
  | x :: rest => orEmpty x ++ sep ++ join sep rest
  end.

Definition summarize (r : MatchResult) : ExistingSummary :=
  {| es_id := mr_id r;
     es_merchant := merchant (ocrData r);
     es_amount := amount (ocrData r);
     es_date := date (ocrData r);
     es_items := (fun l => join (u16 ", ") (map name l)) <$> items (ocrData r)
  |}.

Definition openBrace : codeunit := 123%N.
Definition closeBrace : codeunit := 125%N.

(** Suffix of [s] that starts at its first occurrence of [c]. *)
Fixpoint fromFirst (c : codeunit) (s : jsstring) : jsstring :=
  match s with
  | [] => []
  | d :: rest => if decide (d = c) then s else fromFirst c rest
  end.

(** Prefix of [s] that ends at its last occurrence of [c]. *)
Definition throughLast (c : codeunit) (s : jsstring) : jsstring :=
  reverse (fromFirst c (reverse s)).

(** [content.match(/\{[\s\S]*\}/)], element 0 of the match: the star is
    greedy, so the match runs from the first opening brace to the last
    closing brace behind it. *)
Definition matchBraces (content : jsstring) : option jsstring :=
  match fromFirst openBrace content with
  | [] => None
  | o :: rest =>
      match throughLast closeBrace rest with
      | [] => None
      | body => Some (o :: body)
      end
  end.

(** [content.match(...)] where [content] is any value: only a string has
    the method. *)
Definition contentMatch (content : jsval) : outcome (option jsstring) :=
  match content with
  | JStr s => Ok (matchBraces s)
  | _ => Throw TypeError
  end.

Definition isDuplicateKey : jsstring := u16 "isDuplicate".
Definition confidenceKey : jsstring := u16 "confidence".

(** [{ isDuplicate: false, confidence: 0, matches: [] }] *)
Definition notDuplicate : jsval :=
  JObj [(isDuplicateKey, JBool false); (confidenceKey, JNum 0);
        (u16 "matches", JArr [])].

(** [{ isDuplicate: false, confidence: 0, error: error.message }] *)
Definition notDuplicateError (error : jserror) : jsval :=
  JObj [(isDuplicateKey, JBool false); (confidenceKey, JNum 0);
        (u16 "error", JStr (message error))].

(** The body and options handed to [axios.post]. *)
Definition request (uniapiConfig : UniapiConfig)
    (existingReceipts : list MatchResult) (imageBuffer : buffer) : Request :=
  {| req_url := baseUrl uniapiConfig ++ u16 "/chat/completions";
     req_model := model uniapiConfig;
     req_existingData := map summarize existingReceipts;
     req_image := imageBuffer;
     req_max_tokens := 1024%N;
     req_authorization := u16 "Bearer " ++ key uniapiConfig;
     req_timeout := 30000%N |}.

(** [response.data.choices[0].message.content] *)
Definition responseContent (response : jsval) : outcome jsval :=
  data <- getProp response (u16 "data") ;;
  choices <- getProp data (u16 "choices") ;;
  choice <- getIndex0 choices ;;
  msg <- getProp choice (u16 "message") ;;
  getProp msg (u16 "content").

Definition aiDuplicateAnalysis `{Runtime} (w : World) (imagePath : jsstring)
    (existingReceipts : list MatchResult) (uniapiConfig : UniapiConfig)
    : outcome jsval :=
  if decide (length existingReceipts = 0) then Ok notDuplicate
  else
    catch
      (imageBuffer <- fs_readFileSync w imagePath ;;
       response <- axios_post w
                     (request uniapiConfig existingReceipts imageBuffer) ;;
       content <- responseContent response ;;
       jsonMatch <- contentMatch content ;;
       match jsonMatch with
       | Some text => JSON_parse text
       | None => Ok notDuplicate
       end)
      (fun error => Ok (notDuplicateError error)).

(** ** The duplicate gate of the upload route *)

Inductive DuplicateStatus :=
  | StatusNone
  | StatusDetected.

Record DuplicateDecision := {
  duplicateStatus : DuplicateStatus;
  duplicateOf : jsval;
  duplicateConfidence : jsval
}.

(** [let duplicateStatus = 'none'; let duplicateOf = null;
     let duplicateConfidence = 0;] *)
Definition noDuplicate : DuplicateDecision :=
  {| duplicateStatus := StatusNone;
     duplicateOf := JNull;
     duplicateConfidence := JNum 0 |}.

(** [x > 0.7] *)
Definition above07 `{Runtime} (x : jsval) : bool :=
  num_lt (Num (7 # 10)) (ToNumber x).

(** The [try] block around the deep analysis. *)
Definition confirmDuplicate `{Runtime} (w : World) (path : jsstring)
    (potentialDuplicates : list MatchResult) (uniapiConfig : UniapiConfig)
    (top : MatchResult) : outcome DuplicateDecision :=
  aiAnalysis <- aiDuplicateAnalysis w path potentialDuplicates uniapiConfig ;;
  isDuplicate <- getProp aiAnalysis isDuplicateKey ;;
  if truthy isDuplicate then
    conf <- getProp aiAnalysis confidenceKey ;;
    if above07 conf then
      matched <- getProp aiAnalysis (u16 "matchedReceiptId") ;;
      Ok {| duplicateStatus := StatusDetected;
            duplicateOf := if truthy matched then matched
                           else JStr (mr_id top);
            duplicateConfidence := conf |}
    else Ok noDuplicate
  else Ok noDuplicate.

Definition duplicateGate `{Runtime} (w : World) (path : jsstring)
    (potentialDuplicates : list MatchResult) (uniapiConfig : UniapiConfig)
    : DuplicateDecision :=
  match potentialDuplicates with
  | top :: _ =>
      if decide (80 ≤ confidence top) then
        match confirmDuplicate w path potentialDuplicates uniapiConfig top with
        | Ok decision => decision
        | Throw aiError => noDuplicate
        end
      else noDuplicate
  | [] => noDuplicate
  end.

(** ** Reference definitions *)

(** The Levenshtein distance by the textbook recurrence: [lev_table a b i j]
    is the distance between the first [i] code units of [a] and the first
    [j] code units of [b]; insertion, deletion and substitution cost 1. *)
Fixpoint lev_table (a b : jsstring) (i : nat) : nat -> nat :=
  match i with
  | 0 => fun j => j
  | S i' =>
      fix row (j : nat) : nat :=
        match j with
        | 0 => S i'
        | S j' =>
            Nat.min (Nat.min (lev_table a b i' (S j') + 1) (row j' + 1))
                    (lev_table a b i' j'
                     + (if decide (a !! i' = b !! j') then 0 else 1))
        end
  end.

Definition levenshtein (a b : jsstring) : nat :=
  lev_table a b (length a) (length b).

(** The similarity as the specification words it: case-fold and trim, 1
    for equal strings, 0 when one is empty, else
    [(maxLen - distance) / maxLen]. *)
Definition specSimilarity `{Runtime} (str1 str2 : option jsstring) : Q :=
  let s1 := trim (toLowerCase (orEmpty str1)) in
  let s2 := trim (toLowerCase (orEmpty str2)) in
  if decide (s1 = s2) then 1%Q
  else if decide (length s1 = 0 ∨ length s2 = 0) then 0%Q
  else
    let maxLen := Nat.max (length s1) (length s2) in
    ((Q_of_nat maxLen - Q_of_nat (levenshtein s1 s2)) / Q_of_nat maxLen)%Q.

(** What [costs[j]] holds when turn [i] of the outer loop of
    [stringSimilarity] is over. *)
Fixpoint cell (shorter longer : jsstring) (i : nat) : nat -> nat :=
  match i with
  | 0 => fun j => if decide (j = length longer) then 0 else j
  | S i' =>
      fix row (j : nat) : nat :=
        match j with
        | 0 => S i'
        | S j' =>
            if decide (shorter !! i' ≠ longer !! j')
            then Nat.min (Nat.min (cell shorter longer i' j') (row j'))
                         (cell shorter longer i' (S j')) + 1
            else cell shorter longer i' j'
        end
  end.

(** The last code unit of [longer] occurs among the first [i] of
    [shorter]. *)
Fixpoint lastOccurs (shorter longer : jsstring) (i : nat) : bool :=
  match i with
  | 0 => false
  | S i' =>
      lastOccurs shorter longer i'
      || bool_decide (shorter !! i' = longer !! (length longer - 1))
  end.

(** Row [i] of the table, and the array in the middle of turn [S i] of
    the outer loop, when the inner loop has passed index [k]. *)
Definition rowOf (shorter longer : jsstring) (i : nat) : list nat :=
  cell shorter longer i <$> seq 0 (S (length longer)).

Definition mixRow (shorter longer : jsstring) (i k : nat) : list nat :=
  (fun j => if decide (j < k) then cell shorter longer (S i) j
            else cell shorter longer i j) <$> seq 0 (S (length longer)).

(** [a] may stand right before [b] in a list sorted by descending
    confidence. *)
Definition descending (a b : MatchResult) : Prop :=
  confidence b ≤ confidence a.

(** The three signals of a comparison, as the loop body computes them,
    and the confidence they add up to. *)
Definition signals `{Runtime} (newAmount : float64)
    (newDate : option jsstring) (newMerchant : jsstring)
    (existingOcr : OcrData) : bool * bool * bool :=
  (amountMatch newAmount existingOcr,
   dateMatch newDate (normalizeDate (date existingOcr)),
   Qltb (7 # 10)
        (stringSimilarity (Some newMerchant)
           (Some (toLowerCase (orEmpty (merchant existingOcr)))))).

Definition weight (amountMatch dateMatch merchantMatch : bool) : nat :=
  (if amountMatch then 40 else 0) + (if dateMatch then 35 else 0)
  + (if merchantMatch then 25 else 0).

(** The extraction rule as the specification words it: the first
    well-formed JSON object of the body, that is the leftmost position
    where one starts and the text of the object there. *)
Definition isJsonObject `{Runtime} (text : jsstring) : bool :=
  match text, JSON_parse text with
  | c :: _, Ok (JObj _) => bool_decide (c = openBrace)
  | _, _ => false
  end.

Definition substrings (body : jsstring) : list jsstring :=
  i ← seq 0 (length body);
  (fun n => take n (drop i body)) <$> seq 1 (length body - i).

Definition firstJsonObject `{Runtime} (body : jsstring) : option jsstring :=
  List.find isJsonObject (substrings body).

(** [span] is the stretch of [body] from its first opening brace to its
    last closing brace. *)
Definition braceSpan (body span : jsstring) : Prop :=
  ∃ pre inner post,
    body = pre ++ span ++ post
    ∧ span = openBrace :: inner ++ [closeBrace]
    ∧ (openBrace ∉ pre)
    ∧ (closeBrace ∉ post).

(** A verdict that reads as "not a duplicate, confidence 0". *)
Definition safeVerdict (v : jsval) : Prop :=
  getProp v isDuplicateKey = Ok (JBool false)
  ∧ getProp v confidenceKey = Ok (JNum 0).

(** ** A reference runtime

    Executable stand-ins for the built-ins, used to run the embedding on
    concrete inputs.  They follow ECMAScript on Basic Latin text:
    [toLowerCase] folds A-Z only, [parseFloat] reads the longest decimal
    literal or [Infinity] at the head of the text and rounds it to the
    nearest number, [Date] accepts calendar dates written [YYYY-MM-DD],
    [JSON.parse] is the JSON grammar with numbers as exact rationals, and
    [ToNumber] is defined on primitive values. *)
Module Ref.

Definition isDigit (c : codeunit) : bool := bool_decide (48 ≤ c ≤ 57)%N.

Definition lowerUnit (c : codeunit) : codeunit :=
  if bool_decide (65 ≤ c ≤ 90)%N then (c + 32)%N else c.

Definition toLowerCase (s : jsstring) : jsstring := map lowerUnit s.

(** Leading digits of [s]: their value on top of [acc], how many there
    are, and the rest. *)
Fixpoint digits (s : jsstring) (acc : Z) (n : nat) : Z * nat * jsstring :=
  match s with
  | c :: rest =>
      if isDigit c
      then digits rest (10 * acc + Z.of_N (c - 48))%Z (S n)
      else (acc, n, s)
  | [] => (acc, n, s)
  end.

(** [[eE][+-]?digits], when all of it is there. *)
Definition exponent (s : jsstring) : Z * jsstring :=
  match s with
  | e :: rest =>
      if bool_decide (e = 101 ∨ e = 69)%N then
        let '(neg, rest') :=
          match rest with
          | sg :: r =>
              if decide (sg = 45%N) then (true, r)
              else if decide (sg = 43%N) then (false, r)
              else (false, rest)
          | [] => (false, rest)
          end in
        let '(v, n, rest'') := digits rest' 0%Z 0 in
        if decide (n = 0) then (0%Z, s)
        else ((if neg then - v else v)%Z, rest'')
      else (0%Z, s)
  | [] => (0%Z, s)
  end.

(** An unsigned decimal literal at the head of [s].  With [strict] the
    JSON rules apply: an integer part without a leading zero, and
    digits behind a point. *)
Definition decimal (strict : bool) (s : jsstring) : option (Q * jsstring) :=
  let '(int, ni, r1) := digits s 0%Z 0 in
  let '(m, nf, r2, point) :=
    match r1 with
    | p :: r =>
        if decide (p = 46%N)
        then let '(m, nf, r2) := digits r int 0 in (m, nf, r2, true)
        else (int, 0, r1, false)
    | [] => (int, 0, r1, false)
    end in
  let leadingZero :=
    match s with
    | z :: _ => bool_decide (z = 48%N) && bool_decide (1 < ni)
    | [] => false
    end in
  if strict && (bool_decide (ni = 0) || leadingZero
                || (point && bool_decide (nf = 0)))
  then None
  else if bool_decide (ni = 0) && bool_decide (nf = 0) then None
  else
    let '(e, r3) := exponent r2 in
    Some (Qred (inject_Z m * Qpower 10 (e - Z.of_nat nf)), r3).

Fixpoint stripPrefix (p s : jsstring) : option jsstring :=
  match p, s with
  | [], _ => Some s
  | a :: p', b :: s' => if decide (a = b) then stripPrefix p' s' else None
  | _ :: _, [] => None
  end.

Definition parseFloat (s : jsstring) : float64 :=
  let s := trimStart s in
  let '(neg, body) :=
    match s with
    | sg :: r =>
        if decide (sg = 45%N) then (true, r)
        else if decide (sg = 43%N) then (false, r)
        else (false, s)
    | [] => (false, s)
    end in
  let magnitude :=
    match stripPrefix (u16 "Infinity") body, decimal false body with
    | Some _, _ => S754_infinity false
    | None, Some (q, _) => b64 q
    | None, None => S754_nan
    end in
  if neg then SFopp magnitude else magnitude.

Definition twoDigits (a b : codeunit) : option nat :=
  if isDigit a && isDigit b
  then Some (N.to_nat ((a - 48) * 10 + (b - 48)))
  else None.

Definition daysIn (year month : nat) : nat :=
  if bool_decide (month ∈ [4; 6; 9; 11]) then 30
  else if decide (month = 2) then
    if bool_decide (year `mod` 4 = 0
                    ∧ (year `mod` 100 ≠ 0 ∨ year `mod` 400 = 0))
    then 29 else 28
  else 31.

Definition RangeError : jserror := Error (u16 "Invalid time value").

Definition Date_toISOString (s : jsstring) : outcome jsstring :=
  match s with
  | [y1; y2; y3; y4; d1; m1; m2; d2; a1; a2] =>
      match twoDigits y1 y2, twoDigits y3 y4, twoDigits m1 m2,
            twoDigits a1 a2 with
      | Some yh, Some yl, Some month, Some day =>
          if bool_decide (d1 = 45%N ∧ d2 = 45%N)
             && bool_decide (1 ≤ month ≤ 12)
             && bool_decide (1 ≤ day ≤ daysIn (100 * yh + yl) month)
          then Ok (s ++ u16 "T00:00:00.000Z")
          else Throw RangeError
      | _, _, _, _ => Throw RangeError
      end
  | _ => Throw RangeError
  end.

Definition hexVal (c : codeunit) : option N :=
  if isDigit c then Some (c - 48)%N
  else if bool_decide (97 ≤ c ≤ 102)%N then Some (c - 87)%N
  else if bool_decide (65 ≤ c ≤ 70)%N then Some (c - 55)%N
  else None.

Definition escape (c : codeunit) : option codeunit :=
  if bool_decide (c ∈ [34; 92; 47]%N) then Some c
  else if decide (c = 98%N) then Some 8%N
  else if decide (c = 102%N) then Some 12%N
  else if decide (c = 110%N) then Some 10%N
  else if decide (c = 114%N) then Some 13%N
  else if decide (c = 116%N) then Some 9%N
  else None.

(** The characters of a string literal behind its opening quote, and
    what follows the closing quote; [acc] is reversed. *)
Fixpoint stringBody (s acc : jsstring) : option (jsstring * jsstring) :=
  match s with
  | [] => None
  | c :: rest =>
      if decide (c = 34%N) then Some (reverse acc, rest)
      else if decide (c = 92%N) then
        match rest with
        | e :: rest' =>
            if decide (e = 117%N) then
              match rest' with
              | h1 :: h2 :: h3 :: h4 :: rest'' =>
                  match hexVal h1, hexVal h2, hexVal h3, hexVal h4 with
                  | Some a, Some b, Some c', Some d =>
                      stringBody rest''
                        (((a * 16 + b) * 16 + c') * 16 + d :: acc)%N
                  | _, _, _, _ => None
                  end
              | _ => None
              end
            else
              match escape e with
              | Some u => stringBody rest' (u :: acc)
              | None => None
              end
        | [] => None
        end
      else if bool_decide (c < 32)%N then None
      else stringBody rest (c :: acc)
  end.

Fixpoint skipWs (s : jsstring) : jsstring :=
  match s with
  | c :: rest =>
      if bool_decide (c ∈ [32; 9; 10; 13]%N) then skipWs rest else s
  | [] => []
  end.

Definition number (s : jsstring) : option (jsval * jsstring) :=
  match s with
  | sg :: r =>
      if decide (sg = 45%N)
      then '(q, rest) ← decimal true r; Some (JNum (Qred (- q)), rest)
      else '(q, rest) ← decimal true s; Some (JNum q, rest)
  | [] => None
  end.

(** Recursive descent over the JSON grammar.  A later member of an
    object hides an earlier one of the same name, so members are
    listed last first. *)
Fixpoint value (fuel : nat) (s : jsstring) : option (jsval * jsstring) :=
  match fuel with
  | 0 => None
  | S fuel =>
      match skipWs s with
      | [] => None
      | c :: rest =>
          if decide (c = openBrace) then
            match skipWs rest with
            | d :: rest' =>
                if decide (d = closeBrace) then Some (JObj [], rest')
                else '(ms, r) ← members fuel (d :: rest'); Some (JObj ms, r)
            | [] => None
            end
          else if decide (c = 91%N) then
            match skipWs rest with
            | d :: rest' =>
                if decide (d = 93%N) then Some (JArr [], rest')
                else '(vs, r) ← elements fuel (d :: rest'); Some (JArr vs, r)
            | [] => None
            end
          else if decide (c = 34%N) then
            '(str, r) ← stringBody rest []; Some (JStr str, r)
          else if decide (c = 116%N) then
            r ← stripPrefix (u16 "true") (c :: rest); Some (JBool true, r)
          else if decide (c = 102%N) then
            r ← stripPrefix (u16 "false") (c :: rest); Some (JBool false, r)
          else if decide (c = 110%N) then
            r ← stripPrefix (u16 "null") (c :: rest); Some (JNull, r)
          else number (c :: rest)
      end
  end
with members (fuel : nat) (s : jsstring)
    : option (list (jsstring * jsval) * jsstring) :=
  match fuel with
  | 0 => None
  | S fuel =>
      match skipWs s with
      | q :: rest =>
          if decide (q = 34%N) then
            '(k, r1) ← stringBody rest [];
            match skipWs r1 with
            | colon :: r2 =>
                if decide (colon = 58%N) then
                  '(v, r3) ← value fuel r2;
                  match skipWs r3 with
                  | e :: r4 =>
                      if decide (e = 44%N) then
                        '(ms, r5) ← members fuel r4;
                        Some (ms ++ [(k, v)], r5)
                      else if decide (e = closeBrace)
                           then Some ([(k, v)], r4)
                      else None
                  | [] => None
                  end
                else None
            | [] => None
            end
          else None
      | [] => None
      end
  end
with elements (fuel : nat) (s : jsstring)
    : option (list jsval * jsstring) :=
  match fuel with
  | 0 => None
  | S fuel =>
      '(v, r1) ← value fuel s;
      match skipWs r1 with
      | e :: r2 =>
          if decide (e = 44%N) then
            '(vs, r3) ← elements fuel r2; Some (v :: vs, r3)
          else if decide (e = 93%N) then Some ([v], r2)
          else None
      | [] => None
      end
  end.

Definition SyntaxError : jserror := Error (u16 "Unexpected token in JSON").

Definition JSON_parse (s : jsstring) : outcome jsval :=
  match value (2 * length s + 2) s with
  | Some (v, rest) =>
      match skipWs rest with
      | [] => Ok v
      | _ :: _ => Throw SyntaxError
      end
  | None => Throw SyntaxError
  end.

(** [ToNumber] of a string: the whole trimmed text must be a literal. *)
Definition stringToNumber (s : jsstring) : jsnum :=
  let s := trim s in
  let '(neg, body) :=
    match s with
    | sg :: r =>
        if decide (sg = 45%N) then (true, r)
        else if decide (sg = 43%N) then (false, r)
        else (false, s)
    | [] => (false, s)
    end in
  match s, decimal false body with
  | [], _ => Num 0
  | _, Some (q, []) => Num (if neg then Qred (- q) else q)
  | _, _ => NaN
  end.

Definition ToNumber (v : jsval) : jsnum :=
  match v with
  | JUndefined => NaN
  | JNull => Num 0
  | JBool b => Num (if b then 1 else 0)
  | JNum q => Num q
  | JStr s => stringToNumber s
  | JArr _ | JObj _ => NaN
  end.

#[export] Instance runtime : Runtime :=
  Build_Runtime toLowerCase parseFloat Date_toISOString JSON_parse ToNumber
                (fun q => eq_refl).

End Ref.

(** ** Sample data *)
Module Sample.

Definition ocr (amt : Q) (day shop : string) : OcrData :=
  {| amount := AmountNum (b64 amt);
     date := Some (u16 day);
     merchant := Some (u16 shop);
     items := None |}.

Definition receipt : OcrData := ocr 50 "2024-03-01" "Starbucks KLCC".

Definition row (id : string) (data : option OcrData)
    (dup : option jsstring) : Row :=
  {| row_id := u16 id;
     user_id := u16 "u1";
     ocr_data := data;
     duplicate_of := dup;
     uploaded_at := u16 "2024-03-02T08:00:00.000Z";
     row_status := u16 "processed";
     file_path := u16 "/uploads/receipt.jpg" |}.

(** same purchase, merchant in another case and with a trailing blank *)
Definition same : Row :=
  row "r1" (Some (ocr 50 "2024-03-01" "STARBUCKS KLCC ")) None.
(** same purchase, already marked as a duplicate of [r1] *)
Definition marked : Row :=
  row "r2" (Some (ocr 50 "2024-03-01" "Starbucks KLCC")) (Some (u16 "r1")).
(** same amount and merchant, another day *)
Definition otherDay : Row :=
  row "r3" (Some (ocr 50 "2024-03-02" "Starbucks KLCC")) None.
(** same amount only *)
Definition amountOnly : Row :=
  row "r4" (Some (ocr 50 "2024-02-11" "Petronas")) None.
(** another receipt of the same day and amount, another merchant *)
Definition sameDay : Row :=
  row "r5" (Some (ocr 50 "2024-03-01" "Petronas")) None.

(** and one more, which ties with [sameDay] *)
Definition sameDayAgain : Row :=
  row "r6" (Some (ocr 50 "2024-03-01" "Shell")) None.

(** a receipt of the same day for 50.01, from another merchant *)
Definition oneCentMore : Row :=
  row "r7" (Some (ocr (5001 # 100) "2024-03-01" "Petronas")) None.

Definition rows : list Row :=
  [amountOnly; otherDay; marked; sameDay; same; sameDayAgain].

Definition db : Db := fun _ _ => Ok rows.

(** no amount on either side *)
Definition blank : OcrData :=
  {| amount := AmountAbsent; date := None; merchant := None;
     items := None |}.

Definition config : UniapiConfig :=
  {| baseUrl := u16 "https://api.example.test/v1";
     model := u16 "vision";
     key := u16 "secret" |}.

(** A response whose message content is [content]. *)
Definition envelope (content : jsval) : jsval :=
  JObj [(u16 "data",
         JObj [(u16 "choices",
                JArr [JObj [(u16 "message",
                             JObj [(u16 "content", content)])]])])].

(** The image is readable and the provider answers [content]. *)
Definition world (content : jsval) : World :=
  {| fs_readFileSync := fun _ => Ok [255; 216; 255]%N;
     axios_post := fun _ => Ok (envelope content) |}.

Definition offline : World :=
  {| fs_readFileSync := fun _ => Ok [255; 216; 255]%N;
     axios_post :=
       fun _ => Throw (Error (u16 "timeout of 30000ms exceeded")) |}.

Definition path : jsstring := u16 "/uploads/new.jpg".

(** One candidate of confidence 100, as the matcher returns it for
    [same]. *)
Definition candidate : MatchResult :=
  pushed same (ocr 50 "2024-03-01" "STARBUCKS KLCC ")
         (100, [u16 "Same amount"; u16 "Same date"; u16 "Same merchant"],
          1%Q).

(** JSON text, written with ['] for the double quote. *)
Definition json (s : string) : jsstring :=
  (fun c => if decide (c = 39%N) then 34%N else c) <$> u16 s.

(** a verdict followed by a remark that has braces of its own *)
Definition chattyBody : jsstring :=
  json "{'isDuplicate':true,'confidence':0.9} (compared {merchant})".
Definition chattyObject : jsstring :=
  json "{'isDuplicate':true,'confidence':0.9}".

(** a well-formed object without the expected fields *)
Definition vagueBody : jsstring := json "{'reasoning':'unclear'}".

(** the verdict at the acceptance threshold, and one above it *)
Definition borderBody : jsstring :=
  json "{'isDuplicate':true,'confidence':0.7}".
Definition confidentBody : jsstring :=
  json ("Here is the result: "
        +:+ "{'isDuplicate':true,'confidence':0.95,'matchedReceiptId':'r1'}").

End Sample.


(** * The upload route, the categories and the extraction *)

(** [Number.isFinite] *)
Definition isFinite (x : float64) : bool :=
  match x with
  | S754_zero _ | S754_finite _ _ _ => true
  | S754_infinity _ | S754_nan => false
  end.

(** ** The upload route: what is stored about duplicates *)

(** [label] is among the reasons of [m]. *)
Definition hasReason (label : string) (m : MatchResult) : bool :=
  bool_decide (u16 label ∈ reasons m).

Definition statusText (s : DuplicateStatus) : jsstring :=
  match s with
  | StatusNone => u16 "none"
  | StatusDetected => u16 "detected"
  end.

(** The columns of the [INSERT INTO receipts] that come out of the
    duplicate check. *)
Record DuplicateColumns := {
  col_status : jsstring;
  col_duplicate_status : jsstring;
  col_duplicate_of : jsval;
  col_duplicate_confidence : jsval;
  col_potential_duplicates : list MatchResult
}.

(** From [// Check for duplicates] to the parameters of the [INSERT]:
    the matcher, the gate, [duplicateStatus === 'detected' ? 'flagged' :
    'processed'] and [potentialDuplicates.slice(0, 3)].  A rejected query
    leaves the [try] block of the route. *)
Definition checkDuplicates `{Runtime} (w : World) (db : Db) (path : jsstring)
    (validatedData : OcrData) (userId : option jsstring)
    (uniapiConfig : UniapiConfig) : outcome DuplicateColumns :=
  potentialDuplicates <- findPotentialDuplicates db validatedData userId ;;
  let decision := duplicateGate w path potentialDuplicates uniapiConfig in
  Ok {| col_status :=
          match duplicateStatus decision with
          | StatusDetected => u16 "flagged"
          | StatusNone => u16 "processed"
          end;
        col_duplicate_status := statusText (duplicateStatus decision);
        col_duplicate_of := duplicateOf decision;
        col_duplicate_confidence := duplicateConfidence decision;
        col_potential_duplicates := take 3 potentialDuplicates |}.

(** ** Expense categories *)

Record Category := {
  cat_id : jsstring;
  cat_name : jsstring;
  icon : jsstring;
  keywords : list jsstring;
  merchants : list jsstring
}.

Definition words (l : list string) : list jsstring := u16 <$> l.

Definition TRAVEL : Category :=
  {| cat_id := u16 "travel";
     cat_name := u16 "Travel & Transport";
     icon := u16 "plane";
     keywords :=
       words ["airline"; "airport"; "taxi"; "uber"; "lyft"; "train"; "bus";
              "transit"; "parking"; "toll"; "fuel"; "gas"; "rental car";
              "hotel"; "lodging"; "accommodation"];
     merchants :=
       words ["uber"; "lyft"; "grab"; "taxi"; "shell"; "esso"; "petronas";
              "airasia"; "malaysia airlines"; "singapore airlines";
              "booking.com"; "agoda"; "expedia"; "airbnb"] |}.

Definition MEALS : Category :=
  {| cat_id := u16 "meals";
     cat_name := u16 "Meals & Entertainment";
     icon := u16 "utensils";
     keywords :=
       words ["restaurant"; "cafe"; "coffee"; "food"; "lunch"; "dinner";
              "breakfast"; "meal"; "catering"; "bar"; "pub"];
     merchants :=
       words ["mcdonalds"; "kfc"; "starbucks"; "coffee bean"; "pizza hut";
              "dominos"; "subway"; "sushi"; "ramen"; "korean bbq";
              "steakhouse"; "seafood"] |}.

Definition OFFICE : Category :=
  {| cat_id := u16 "office";
     cat_name := u16 "Office Supplies";
     icon := u16 "briefcase";
     keywords :=
       words ["stationery"; "paper"; "pen"; "printer"; "ink"; "toner";
              "stapler"; "folder"; "notebook"];
     merchants :=
       words ["popular"; "muji"; "daiso"; "staples"; "office depot"] |}.

Definition TECH : Category :=
  {| cat_id := u16 "tech";
     cat_name := u16 "Technology & Software";
     icon := u16 "laptop";
     keywords :=
       words ["software"; "subscription"; "app"; "license"; "domain";
              "hosting"; "cloud"; "data"; "saas"; "zoom"; "slack"; "jira"];
     merchants :=
       words ["adobe"; "microsoft"; "google"; "aws"; "azure"; "zoom";
              "slack"; "atlassian"; "github"] |}.

Definition COMMUNICATIONS : Category :=
  {| cat_id := u16 "communications";
     cat_name := u16 "Communications";
     icon := u16 "phone";
     keywords :=
       words ["phone"; "mobile"; "internet"; "broadband"; "telecom";
              "data plan"];
     merchants :=
       words ["digi"; "maxis"; "celcom"; "umobile"; "yes"; "unifi";
              "t-mobile"; "verizon"; "att"] |}.

Definition PROFESSIONAL : Category :=
  {| cat_id := u16 "professional";
     cat_name := u16 "Professional Services";
     icon := u16 "scale";
     keywords :=
       words ["legal"; "accounting"; "audit"; "consulting"; "advisory";
              "lawyer"; "tax"];
     merchants :=
       words ["pwc"; "ey"; "kpmg"; "deloitte"; "law firm"; "consulting"] |}.

Definition MARKETING : Category :=
  {| cat_id := u16 "marketing";
     cat_name := u16 "Marketing & Advertising";
     icon := u16 "megaphone";
     keywords :=
       words ["advertising"; "promotion"; "marketing"; "campaign";
              "sponsorship"; "facebook ads"; "google ads"; "printing";
              "banner"];
     merchants :=
       words ["facebook ads"; "google ads"; "linkedin ads"; "tiktok ads";
              "canva"; "shutterstock"] |}.

Definition UTILITIES : Category :=
  {| cat_id := u16 "utilities";
     cat_name := u16 "Utilities & Operations";
     icon := u16 "zap";
     keywords :=
       words ["electricity"; "water"; "gas"; "maintenance"; "repair";
              "cleaning"; "rent"; "facility"];
     merchants :=
       words ["tenaga nasional"; "tnb"; "syabas"; "air selangor"] |}.

Definition TRAINING : Category :=
  {| cat_id := u16 "training";
     cat_name := u16 "Training & Education";
     icon := u16 "graduation-cap";
     keywords :=
       words ["training"; "course"; "certification"; "seminar"; "workshop";
              "conference"; "learning"; "tuition"];
     merchants :=
       words ["udemy"; "coursera"; "linkedin learning"; "pluralsight"] |}.

Definition EQUIPMENT : Category :=
  {| cat_id := u16 "equipment";
     cat_name := u16 "Equipment & Hardware";
     icon := u16 "hard-drive";
     keywords :=
       words ["laptop"; "computer"; "monitor"; "keyboard"; "mouse";
              "furniture"; "desk"; "chair"; "hardware"; "machinery"];
     merchants :=
       words ["apple store"; "dell"; "hp"; "lenovo"; "ikea";
              "harvey norman"] |}.

Definition INSURANCE : Category :=
  {| cat_id := u16 "insurance";
     cat_name := u16 "Insurance";
     icon := u16 "shield";
     keywords :=
       words ["insurance"; "premium"; "coverage"; "liability";
              "medical insurance"; "health insurance"];
     merchants :=
       words ["allianz"; "prudential"; "aia"; "manulife"; "axa"] |}.

Definition LOGISTICS : Category :=
  {| cat_id := u16 "logistics";
     cat_name := u16 "Logistics & Postage";
     icon := u16 "truck";
     keywords :=
       words ["shipping"; "delivery"; "courier"; "postage"; "mail";
              "freight"; "fedex"; "dhl"; "ups"; "poslaju"];
     merchants :=
       words ["fedex"; "dhl"; "ups"; "poslaju"; "j&t"; "grabexpress"] |}.

Definition HEALTH : Category :=
  {| cat_id := u16 "health";
     cat_name := u16 "Health & Wellness";
     icon := u16 "heart";
     keywords :=
       words ["medical"; "pharmacy"; "doctor"; "dentist"; "clinic";
              "hospital"; "medicine"; "gym"];
     merchants :=
       words ["guardian"; "watsons"; "caring"] |}.

Definition MISC : Category :=
  {| cat_id := u16 "misc";
     cat_name := u16 "Miscellaneous";
     icon := u16 "more-horizontal";
     keywords :=
       [];
     merchants :=
       [] |}.

(** [Object.entries(EXPENSE_CATEGORIES)]: the keys are no array indices,
    so the entries come in the order they are written. *)
Definition EXPENSE_CATEGORIES : list (jsstring * Category) :=
  [(u16 "TRAVEL", TRAVEL);
   (u16 "MEALS", MEALS);
   (u16 "OFFICE", OFFICE);
   (u16 "TECH", TECH);
   (u16 "COMMUNICATIONS", COMMUNICATIONS);
   (u16 "PROFESSIONAL", PROFESSIONAL);
   (u16 "MARKETING", MARKETING);
   (u16 "UTILITIES", UTILITIES);
   (u16 "TRAINING", TRAINING);
   (u16 "EQUIPMENT", EQUIPMENT);
   (u16 "INSURANCE", INSURANCE);
   (u16 "LOGISTICS", LOGISTICS);
   (u16 "HEALTH", HEALTH);
   (u16 "MISC", MISC)].

(** [s.startsWith(prefix)] and [s.includes(sub)] *)
Fixpoint startsWith (s prefix : jsstring) : bool :=
  match prefix, s with
  | [], _ => true
  | p :: prefix', c :: s' => bool_decide (p = c) && startsWith s' prefix'
  | _ :: _, [] => false
  end.

Fixpoint includes (s sub : jsstring) : bool :=
  startsWith s sub
  || match s with
     | [] => false
     | _ :: rest => includes rest sub
     end.

(** [merchant.toLowerCase()] with the default [merchant = '']: the
    default stands in for [undefined] only, on [null] and on a value
    without the method the call throws. *)
Definition merchantLowerOf `{Runtime} (merchant : jsval) : outcome jsstring :=
  match merchant with
  | JUndefined => Ok (toLowerCase [])
  | JStr s => Ok (toLowerCase s)
  | _ => Throw TypeError
  end.

(** [(i.item_description || '').toLowerCase()] *)
Definition itemText `{Runtime} (i : jsval) : outcome jsstring :=
  description <- getProp i (u16 "item_description") ;;
  if truthy description then
    match description with
    | JStr s => Ok (toLowerCase s)
    | _ => Throw TypeError
    end
  else Ok (toLowerCase []).

(** [array.map(f)] for an [f] that can throw *)
Fixpoint mapOutcome {A B} (f : A -> outcome B) (l : list A)
    : outcome (list B) :=
  match l with
  | [] => Ok []
  | x :: rest => y <- f x ;; ys <- mapOutcome f rest ;; Ok (y :: ys)
  end.

(** [items.map(...)] with the default [items = []]: only an array has
    the method. *)
Definition itemsOf (items : jsval) : outcome (list jsval) :=
  match items with
  | JUndefined => Ok []
  | JArr l => Ok l
  | _ => Throw TypeError
  end.

Definition merchantHit (merchantLower : jsstring) (cat : Category) : bool :=
  existsb (includes merchantLower) (merchants cat).

Definition keywordHit (merchantLower itemsText : jsstring) (cat : Category)
    : bool :=
  existsb (fun k => includes merchantLower k || includes itemsText k)
          (keywords cat).

Definition autoCategorize `{Runtime} (merchant items : jsval)
    : outcome jsstring :=
  merchantLower <- merchantLowerOf merchant ;;
  list <- itemsOf items ;;
  texts <- mapOutcome itemText list ;;
  let itemsText := join (u16 " ") (Some <$> texts) in
  match List.find (fun '(key, cat) => merchantHit merchantLower cat)
                  EXPENSE_CATEGORIES with
  | Some (key, cat) => Ok (cat_id cat)
  | None =>
      match List.find
              (fun '(key, cat) => keywordHit merchantLower itemsText cat)
              EXPENSE_CATEGORIES with
      | Some (key, cat) => Ok (cat_id cat)
      | None => Ok (u16 "misc")
      end
  end.

(** [Object.values(EXPENSE_CATEGORIES)] *)
Definition getAllCategories : list Category := snd <$> EXPENSE_CATEGORIES.

(** [cat.id === id] holds for a string [id] only. *)
Definition getCategoryById (id : jsval) : Category :=
  default MISC
    (List.find (fun cat => match id with
                           | JStr s => bool_decide (cat_id cat = s)
                           | _ => false
                           end) getAllCategories).

(** The categorisation step of the upload route: the category of the
    extraction when it is a preset one other than "misc", else what the
    merchant and the items suggest.  The result is the new [category]
    and [categoryName]. *)
Definition categorize `{Runtime} (category merchant items : jsval)
    : outcome (jsval * jsstring) :=
  categoryId <-
    (if truthy category
        && negb (bool_decide (cat_id (getCategoryById category) = u16 "misc"))
     then Ok category
     else
       fallbackCategory <-
         autoCategorize merchant (if truthy items then items else JArr []) ;;
       Ok (JStr (if bool_decide (fallbackCategory ≠ u16 "misc")
                 then fallbackCategory else u16 "misc"))) ;;
  Ok (categoryId, cat_name (getCategoryById categoryId)).
(** ** uniapiService *)

(** [a || b] *)
Definition orElse (a b : jsval) : jsval := if truthy a then a else b.

(** [v === 'text'] *)
Definition isText (v : jsval) (text : jsstring) : bool :=
  match v with
  | JStr s => bool_decide (s = text)
  | _ => false
  end.

(** Built-ins of Node behind [path] and [crypto]. *)
Class NodeLib := {
  (** [path.extname] *)
  path_extname : jsstring -> jsstring;
  (** [crypto.createHash('sha256').update(buffer).digest('hex')] *)
  sha256_hex : buffer -> jsstring
}.

(** What throws out of one attempt: an error, and the HTTP status when
    the error is a rejected request that got a response
    ([error.response?.status]). *)
Inductive attemptOutcome (A : Type) :=
  | Done (a : A)
  | Failed (error : jserror) (status : option N).
Arguments Done {A} a.
Arguments Failed {A} error status.

(** A step that throws a plain error. *)
Definition plain {A} (m : outcome A) : attemptOutcome A :=
  match m with
  | Ok a => Done a
  | Throw e => Failed e None
  end.

Definition andThen {A B} (m : attemptOutcome A) (k : A -> attemptOutcome B)
    : attemptOutcome B :=
  match m with
  | Done a => k a
  | Failed e status => Failed e status
  end.

(** The payload and options of a request of [callUniAPI].  The prompt
    is a fixed text around [categoryList]. *)
Record UniRequest := {
  ur_url : jsstring;
  ur_model : jsstring;
  ur_categoryList : jsstring;
  ur_file : buffer;
  ur_mimeType : jsstring;
  ur_max_tokens : N;
  ur_authorization : jsstring;
  ur_timeout : N
}.

(** File system, image library and network, as seen by one call of
    [extractReceiptData]; [ocr_post k] answers the request of attempt
    [k]. *)
Record OcrWorld := {
  (** [fs.statSync(path).size] *)
  ocr_statSync : jsstring -> outcome N;
  ocr_readFileSync : jsstring -> outcome buffer;
  (** [sharp(path).resize(...).jpeg(...).toBuffer()] *)
  ocr_sharp : jsstring -> outcome buffer;
  ocr_post : nat -> UniRequest -> attemptOutcome jsval
}.

(** The result of [processImage]; [duration], a difference of two clock
    readings, is left out. *)
Record Processed := {
  pr_buffer : buffer;
  originalSize : N;
  processedSize : N
}.

Definition processImage `{Runtime} `{NodeLib} (w : OcrWorld)
    (filePath : jsstring) : outcome Processed :=
  let ext := toLowerCase (path_extname filePath) in
  size <- ocr_statSync w filePath ;;
  if decide (ext = u16 ".pdf") then
    content <- ocr_readFileSync w filePath ;;
    Ok {| pr_buffer := content; originalSize := size; processedSize := size |}
  else
    match ocr_sharp w filePath with
    | Ok processedBuffer =>
        Ok {| pr_buffer := processedBuffer;
              originalSize := size;
              processedSize := N.of_nat (length processedBuffer) |}
    | Throw error =>
        content <- ocr_readFileSync w filePath ;;
        Ok {| pr_buffer := content;
              originalSize := size;
              processedSize := size |}
    end.

Definition calculateFileHash `{NodeLib} (w : OcrWorld) (filePath : jsstring)
    : outcome jsstring :=
  fileBuffer <- ocr_readFileSync w filePath ;;
  Ok (sha256_hex fileBuffer).

Definition invalidStructure : jserror :=
  Error (u16 "Invalid response structure from OpenAI-compatible API").

(** [callUniAPI], for the request of attempt [k]. *)
Definition callUniAPI (w : OcrWorld) (env : UniapiConfig) (k : nat)
    (categoryList : jsstring) (file : buffer) (mimeType : jsstring)
    (maxTokens : N) : attemptOutcome jsval :=
  andThen
    (ocr_post w k
       {| ur_url := baseUrl env ++ u16 "/chat/completions";
          ur_model := model env;
          ur_categoryList := categoryList;
          ur_file := file;
          ur_mimeType := mimeType;
          ur_max_tokens := maxTokens;
          ur_authorization := u16 "Bearer " ++ key env;
          ur_timeout := 60000%N |})
    (fun response =>
       plain
         (data <- getProp response (u16 "data") ;;
          if negb (truthy data) then Throw invalidStructure
          else
            choices <- getProp data (u16 "choices") ;;
            if negb (truthy choices) then Throw invalidStructure
            else
              choice <- getIndex0 choices ;;
              if negb (truthy choice) then Throw invalidStructure
              else
                msg <- getProp choice (u16 "message") ;;
                getProp msg (u16 "content"))).

(** The receipt in the internal format.  The fields are those of the
    object literal of [extractReceiptData]; a field that the mock receipt
    of the upload route does not have is [undefined] there. *)
Record Extracted := {
  ex_amount : jsval;
  ex_currency : jsval;
  ex_currencySymbol : jsval;
  ex_merchant : jsval;
  ex_date : jsval;
  ex_billReference : jsval;
  ex_paymentMethod : jsval;
  ex_category : jsval;
  ex_items : jsval;
  ex_confidence : jsval;
  ex_fileHash : jsval;
  ex_fileSize : jsval;
  ex_originalSize : jsval;
  ex_rawOcr : jsval
}.

(** One entry of [parsed.bill_items.map(...)] *)
Definition internalItem (item : jsval) : outcome jsval :=
  description <- getProp item (u16 "item_description") ;;
  quantity <- getProp item (u16 "quantity") ;;
  price <- getProp item (u16 "price") ;;
  Ok (JObj [(u16 "name", orElse description (JStr []));
            (u16 "quantity", orElse quantity (JNum 1));
            (u16 "price", orElse price (JNum 0))]).

(** [parsed.bill_items?.map(...) || []] *)
Definition internalItems (bill_items : jsval) : outcome jsval :=
  match bill_items with
  | JUndefined | JNull => Ok (JArr [])
  | JArr l => list <- mapOutcome internalItem l ;; Ok (JArr list)
  | _ => Throw TypeError
  end.

(** [// Transform to internal format] *)
Definition toInternal (parsed : jsval) (fileHash : jsstring)
    (processedResult : Processed) : outcome Extracted :=
  total_amount <- getProp parsed (u16 "total_amount") ;;
  currency_code <- getProp parsed (u16 "currency_code") ;;
  vendor_name <- getProp parsed (u16 "vendor_name") ;;
  date <- getProp parsed (u16 "date") ;;
  reference_number <- getProp parsed (u16 "reference_number") ;;
  payment_method <- getProp parsed (u16 "payment_method") ;;
  category <- getProp parsed (u16 "category") ;;
  bill_items <- getProp parsed (u16 "bill_items") ;;
  items <- internalItems bill_items ;;
  Ok {| ex_amount := orElse total_amount (JNum 0);
        ex_currency := orElse currency_code (JStr (u16 "MYR"));
        ex_currencySymbol :=
          if isText currency_code (u16 "MYR") then JStr (u16 "RM")
          else if isText currency_code (u16 "USD") then JStr (u16 "$")
          else currency_code;
        ex_merchant := orElse vendor_name (JStr (u16 "Unknown"));
        ex_date := orElse date (JStr []);
        ex_billReference := orElse reference_number (JStr []);
        ex_paymentMethod := orElse payment_method (JStr []);
        ex_category := orElse category (JStr (u16 "misc"));
        ex_items := items;
        ex_confidence := JNum (95 # 100);
        ex_fileHash := JStr fileHash;
        ex_fileSize := JNum (inject_Z (Z.of_N (processedSize processedResult)));
        ex_originalSize :=
          JNum (inject_Z (Z.of_N (originalSize processedResult)));
        ex_rawOcr := parsed |}.

Definition noJsonFound : jserror := Error (u16 "No JSON found in response").

Definition quotaExceeded : jserror :=
  Error (u16 "AI service quota exceeded. Please check your UniAPI balance.").

(** The [try] block of attempt [k]. *)
Definition attemptBody `{Runtime} (w : OcrWorld) (env : UniapiConfig)
    (categoryList : jsstring) (fileHash : jsstring)
    (processedResult : Processed) (mimeType : jsstring) (k : nat)
    : attemptOutcome Extracted :=
  andThen (callUniAPI w env k categoryList (pr_buffer processedResult)
                      mimeType 2000%N)
    (fun response =>
       andThen (plain (contentMatch response))
         (fun jsonMatch =>
            match jsonMatch with
            | None => Failed noJsonFound None
            | Some text =>
                andThen (plain (JSON_parse text))
                  (fun parsed =>
                     plain (toInternal parsed fileHash processedResult))
            end)).

(** [for (let attempt = ...; attempt <= maxRetries; attempt++)], with
    [remaining] turns to go; [Ok None] is the loop running out, where the
    function would return [undefined]. *)
Fixpoint retryLoop (body : nat -> attemptOutcome Extracted)
    (maxRetries attempt remaining : nat) : outcome (option Extracted) :=
  match remaining with
  | 0 => Ok None
  | S remaining' =>
      match body attempt with
      | Done result => Ok (Some result)
      | Failed error status =>
          if decide (status = Some 402%N) then Throw quotaExceeded
          else if decide (attempt = maxRetries) then Throw error
          else retryLoop body maxRetries (S attempt) remaining'
      end
  end.

(** [categories.map(c => `${c.id} (${c.name})`).join(', ')] *)
Definition categoryList : jsstring :=
  join (u16 ", ")
       ((fun c => Some (cat_id c ++ u16 " (" ++ cat_name c ++ u16 ")"))
          <$> getAllCategories).

(** [ext === '.pdf' ? 'application/pdf' : 'image/jpeg'] *)
Definition mimeTypeOf `{Runtime} `{NodeLib} (imagePath : jsstring)
    : jsstring :=
  let ext := toLowerCase (path_extname imagePath) in
  if decide (ext = u16 ".pdf") then u16 "application/pdf"
  else u16 "image/jpeg".

Definition extractReceiptData `{Runtime} `{NodeLib} (w : OcrWorld)
    (env : UniapiConfig) (imagePath : jsstring)
    : outcome (option Extracted) :=
  let maxRetries := 3 in
  processedResult <- processImage w imagePath ;;
  fileHash <- calculateFileHash w imagePath ;;
  let mimeType := mimeTypeOf imagePath in
  retryLoop (attemptBody w env categoryList fileHash processedResult mimeType)
            maxRetries 1 maxRetries.

(** An attempt after which the loop goes on: it threw, and not with
    status 402. *)
Definition retried {A} (o : attemptOutcome A) : Prop :=
  match o with
  | Done _ => False
  | Failed _ status => status ≠ Some 402%N
  end.

(** [x <= 0] *)
Definition notPositive `{Runtime} (x : jsval) : bool :=
  match ToNumber x with
  | Num q => Qle_bool q 0
  | NaN => false
  end.

Definition invalidAmount : jserror := Error (u16 "Invalid amount").

Definition validateReceiptData `{Runtime} (data : Extracted)
    : outcome Extracted :=
  if negb (truthy (ex_amount data)) || notPositive (ex_amount data)
  then Throw invalidAmount
  else Ok data.

(** ** Sample extractions *)
Module SampleOcr.

(** [path.extname] for a path with dots in its last segment only, none
    of them in front: the text from the last dot on. *)
Fixpoint extname (s : jsstring) : jsstring :=
  match s with
  | [] => []
  | c :: rest =>
      if decide (c = 46%N) then
        if bool_decide (46%N ∈ rest) then extname rest else s
      else extname rest
  end.

(** Every sample file has the same digest. *)
Definition digest : jsstring :=
  u16 ("ba7816bf8f01cfea414140de5dae2223"
       +:+ "b00361a396177a9cb410ff61f20015ad").

Definition node : NodeLib :=
  {| path_extname := extname; sha256_hex := fun _ => digest |}.

(** The file is readable and [post] answers the requests. *)
Definition ocrWorld (post : nat -> attemptOutcome jsval) : OcrWorld :=
  {| ocr_statSync := fun _ => Ok 3%N;
     ocr_readFileSync := fun _ => Ok [255; 216; 255]%N;
     ocr_sharp := fun _ => Ok [255; 216]%N;
     ocr_post := fun k _ => post k |}.

(** The image library rejects the file. *)
Definition notAnImage : OcrWorld :=
  {| ocr_statSync := fun _ => Ok 3%N;
     ocr_readFileSync := fun _ => Ok [255; 216; 255]%N;
     ocr_sharp :=
       fun _ => Throw (Error (u16 "Input file contains unsupported format"));
     ocr_post := fun _ _ => Failed (Error (u16 "Network Error")) None |}.

Definition processed : Processed :=
  {| pr_buffer := [255; 216]%N; originalSize := 3; processedSize := 2 |}.

Definition answer (body : jsstring) : attemptOutcome jsval :=
  Done (Sample.envelope (JStr body)).

Definition timeout : attemptOutcome jsval :=
  Failed (Error (u16 "timeout of 60000ms exceeded")) None.

Definition paymentRequired : attemptOutcome jsval :=
  Failed (Error (u16 "Request failed with status code 402")) (Some 402%N).

(** a receipt without a currency code *)
Definition latteBody : jsstring :=
  Sample.json
    ("{'total_amount':12.5,'currency_code':'','vendor_name':'Starbucks KLCC',"
     +:+ "'date':'2024-03-01','category':'misc','bill_items':"
     +:+ "[{'item_description':'Grab ride','quantity':1,'price':12.5}]}").

(** a receipt without a total *)
Definition noTotalBody : jsstring :=
  Sample.json "{'vendor_name':'Petronas','total_amount':null}".

(** the second attempt succeeds *)
Definition flaky (k : nat) : attemptOutcome jsval :=
  if decide (k = 1) then timeout else answer latteBody.

(** the second attempt is rejected for want of credit *)
Definition broke (k : nat) : attemptOutcome jsval :=
  if decide (k = 1) then timeout else paymentRequired.

(** the items of an extracted receipt *)
Definition latteItems : list jsval :=
  [JObj [(u16 "name", JStr (u16 "Grab ride")); (u16 "quantity", JNum 1);
         (u16 "price", JNum (25 # 2))]].

End SampleOcr.
(** * Proofs *)

(** ** The loops of [stringSimilarity] fill the table [cell] *)

Section EditCosts.
Variables shorter longer : jsstring.
Local Abbreviation L := (length longer).

Lemma array_set_lt (a : list nat) i v :
  i < length a -> array_set a i v = <[i:=v]> a.
Proof. intros Hi. unfold array_set. by rewrite decide_True. Qed.

Lemma array_set_push (a : list nat) v :
  array_set a (length a) v = a ++ [v].
Proof.
  unfold array_set. rewrite decide_False by lia.
  by rewrite Nat.sub_diag.
Qed.

Lemma cell_S_S i j :
  cell shorter longer (S i) (S j) =
    if decide (shorter !! i ≠ longer !! j)
    then Nat.min (Nat.min (cell shorter longer i j)
                          (cell shorter longer (S i) j))
                 (cell shorter longer i (S j)) + 1
    else cell shorter longer i j.
Proof. reflexivity. Qed.

Lemma length_rowOf i : length (rowOf shorter longer i) = S L.
Proof. unfold rowOf. by rewrite length_fmap, length_seq. Qed.

Lemma length_mixRow i k : length (mixRow shorter longer i k) = S L.
Proof. unfold mixRow. by rewrite length_fmap, length_seq. Qed.

Lemma lookup_rowOf i j :
  j ≤ L -> rowOf shorter longer i !! j = Some (cell shorter longer i j).
Proof.
  intros Hj. unfold rowOf. rewrite list_lookup_fmap, lookup_seq_lt by lia.
  done.
Qed.

Lemma lookup_mixRow i k j :
  j ≤ L ->
  mixRow shorter longer i k !! j =
    Some (if decide (j < k) then cell shorter longer (S i) j
          else cell shorter longer i j).
Proof.
  intros Hj. unfold mixRow. rewrite list_lookup_fmap, lookup_seq_lt by lia.
  done.
Qed.

Lemma lookup_total_mixRow i k j :
  j ≤ L ->
  mixRow shorter longer i k !!! j =
    if decide (j < k) then cell shorter longer (S i) j
    else cell shorter longer i j.
Proof.
  intros Hj. apply list_lookup_total_correct. by apply lookup_mixRow.
Qed.

(** Turn 0 pushes [0, 1, ..., L] and leaves [lastValue] at 0. *)
Lemma row0_loop k :
  foldl (inner_body shorter longer 0) ([], 0) (seq 0 k) = (seq 0 k, 0).
Proof.
  induction k as [|k IH]; [done|].
  rewrite seq_S, foldl_app, IH. cbn [foldl]. unfold inner_body.
  rewrite decide_True by done. f_equal.
  replace (0 + k) with (length (seq 0 k)) at 1 by apply length_seq.
  by rewrite array_set_push.
Qed.

Lemma outer_body_0 : outer_body shorter longer [] 0 = rowOf shorter longer 0.
Proof.
  unfold outer_body. rewrite row0_loop.
  rewrite array_set_lt by (rewrite length_seq; lia).
  apply list_eq; intros j.
  destruct (decide (j ≤ L)) as [Hj|Hj].
  - rewrite lookup_rowOf by done. cbn [cell].
    destruct (decide (j = L)) as [->|Hne].
    + by rewrite list_lookup_insert_eq by (rewrite length_seq; lia).
    + rewrite list_lookup_insert_ne by done.
      by rewrite lookup_seq_lt by lia.
  - rewrite !lookup_ge_None_2; [done| |].
    + rewrite length_rowOf. lia.
    + rewrite length_insert, length_seq. lia.
Qed.

(** Invariant of the inner loop of turn [S i]: behind index [k] the
    array still holds row [i], before it row [S i], and [lastValue] is
    the entry [k] of row [S i]. *)
Lemma inner_loop i k :
  k ≤ L ->
  foldl (inner_body shorter longer (S i)) (rowOf shorter longer i, S i)
        (seq 0 (S k))
  = (mixRow shorter longer i k, cell shorter longer (S i) k).
Proof.
  induction k as [|k IH]; intros Hk.
  - cbn [seq foldl]. unfold inner_body.
    rewrite decide_False by lia. rewrite decide_False by lia.
    reflexivity.
  - rewrite seq_S, foldl_app, IH by lia. cbn [foldl].
    unfold inner_body. rewrite decide_False by lia.
    rewrite decide_True by lia.
    replace (S i - 1) with i by lia. replace (0 + S k - 1) with k by lia.
    replace (0 + S k) with (S k) by lia.
    rewrite !lookup_total_mixRow by lia.
    rewrite !(decide_False (P := k < k)) by lia.
    rewrite (decide_False (P := S k < k)) by lia.
    rewrite array_set_lt by (rewrite length_mixRow; lia).
    rewrite cell_S_S. f_equal.
    apply list_eq; intros j.
    destruct (decide (j ≤ L)) as [Hj|Hj].
    + rewrite (lookup_mixRow i (S k)) by done.
      destruct (decide (j = k)) as [->|Hne].
      * rewrite list_lookup_insert_eq by (rewrite length_mixRow; lia).
        by rewrite decide_True by lia.
      * rewrite list_lookup_insert_ne by done.
        rewrite lookup_mixRow by done.
        destruct (decide (j < k)), (decide (j < S k)); done || lia.
    + rewrite !lookup_ge_None_2; [done| |].
      * rewrite length_mixRow. lia.
      * rewrite length_insert, length_mixRow. lia.
Qed.

Lemma outer_body_S i :
  outer_body shorter longer (rowOf shorter longer i) (S i)
  = rowOf shorter longer (S i).
Proof.
  unfold outer_body. rewrite inner_loop by lia.
  rewrite array_set_lt by (rewrite length_mixRow; lia).
  apply list_eq; intros j.
  destruct (decide (j ≤ L)) as [Hj|Hj].
  - rewrite lookup_rowOf by done.
    destruct (decide (j = L)) as [->|Hne].
    + by rewrite list_lookup_insert_eq by (rewrite length_mixRow; lia).
    + rewrite list_lookup_insert_ne by done.
      rewrite lookup_mixRow by done. by rewrite decide_True by lia.
  - rewrite !lookup_ge_None_2; [done| |].
    + rewrite length_rowOf. lia.
    + rewrite length_insert, length_mixRow. lia.
Qed.

Lemma outer_loop k :
  foldl (outer_body shorter longer) [] (seq 0 (S k)) = rowOf shorter longer k.
Proof.
  induction k as [|k IH].
  - simpl. apply outer_body_0.
  - rewrite seq_S, foldl_app, IH. simpl. apply outer_body_S.
Qed.

Lemma editCosts_rowOf :
  editCosts shorter longer = rowOf shorter longer (length shorter).
Proof. apply outer_loop. Qed.

Lemma editCosts_last :
  editCosts shorter longer !!! L = cell shorter longer (length shorter) L.
Proof.
  rewrite editCosts_rowOf. apply list_lookup_total_correct.
  by apply lookup_rowOf.
Qed.
End EditCosts.

(** ** The textbook recurrence *)

Section Levenshtein.
Implicit Types a b : jsstring.

Lemma lev_table_S_S a b i j :
  lev_table a b (S i) (S j) =
    Nat.min (Nat.min (lev_table a b i (S j) + 1) (lev_table a b (S i) j + 1))
            (lev_table a b i j + (if decide (a !! i = b !! j) then 0 else 1)).
Proof. reflexivity. Qed.

Lemma lev_table_S_0 a b i : lev_table a b (S i) 0 = S i.
Proof. reflexivity. Qed.

Lemma lev_table_0 a b j : lev_table a b 0 j = j.
Proof. reflexivity. Qed.

Lemma lev_table_i_0 a b i : lev_table a b i 0 = i.
Proof. by destruct i. Qed.

Lemma lev_table_sym a b i j : lev_table a b i j = lev_table b a j i.
Proof.
  revert j. induction i as [|i IHi]; intros j.
  - by rewrite lev_table_0, lev_table_i_0.
  - induction j as [|j IHj]; [done|].
    rewrite !lev_table_S_S, IHj, !IHi.
    destruct (decide (a !! i = b !! j)), (decide (b !! j = a !! i));
      try congruence; lia.
Qed.

Lemma lev_table_down a b i j : lev_table a b (S i) j ≤ lev_table a b i j + 1.
Proof.
  destruct j as [|j].
  - rewrite lev_table_S_0, lev_table_i_0. lia.
  - rewrite lev_table_S_S. lia.
Qed.

Lemma lev_table_right a b i j : lev_table a b i (S j) ≤ lev_table a b i j + 1.
Proof. rewrite !(lev_table_sym a b). apply lev_table_down. Qed.

Lemma lev_table_left a b i j : lev_table a b i j ≤ lev_table a b i (S j) + 1.
Proof.
  revert j. induction i as [|i IHi]; intros j.
  - rewrite !lev_table_0. lia.
  - rewrite lev_table_S_S.
    pose proof (lev_table_down a b i j). pose proof (IHi j).
    destruct (decide (a !! i = b !! j)); lia.
Qed.

Lemma lev_table_up a b i j : lev_table a b i j ≤ lev_table a b (S i) j + 1.
Proof. rewrite !(lev_table_sym a b). apply lev_table_left. Qed.

Lemma lev_table_bound a b i j : lev_table a b i j ≤ Nat.max i j.
Proof.
  revert j. induction i as [|i IHi]; intros j.
  - rewrite lev_table_0. lia.
  - induction j as [|j IHj].
    + rewrite lev_table_S_0. lia.
    + rewrite lev_table_S_S. pose proof (IHi j).
      destruct (decide (a !! i = b !! j)); lia.
Qed.

Lemma lev_table_diag_eq a b i j :
  a !! i = b !! j -> lev_table a b (S i) (S j) = lev_table a b i j.
Proof.
  intros He. rewrite lev_table_S_S, decide_True by done.
  pose proof (lev_table_left a b i j). pose proof (lev_table_up a b i j).
  lia.
Qed.

Lemma lev_table_diag_ne a b i j :
  a !! i ≠ b !! j ->
  lev_table a b (S i) (S j) =
    Nat.min (Nat.min (lev_table a b i j) (lev_table a b (S i) j))
            (lev_table a b i (S j)) + 1.
Proof. intros Hne. rewrite lev_table_S_S, decide_False by done. lia. Qed.

Lemma levenshtein_sym a b : levenshtein a b = levenshtein b a.
Proof. apply lev_table_sym. Qed.

Lemma levenshtein_bound a b :
  levenshtein a b ≤ Nat.max (length a) (length b).
Proof. apply lev_table_bound. Qed.
End Levenshtein.

Section CellVsLevenshtein.
Variables shorter longer : jsstring.
Local Abbreviation L := (length longer).

(** Left of the last column the table is the textbook one. *)
Lemma cell_inner i j :
  j < L -> cell shorter longer i j = lev_table shorter longer i j.
Proof.
  revert j. induction i as [|i IHi]; intros j Hj.
  - cbn [cell]. by rewrite decide_False by lia.
  - induction j as [|j IHj]; [done|].
    rewrite cell_S_S, IHj, !IHi by lia.
    destruct (decide (shorter !! i ≠ longer !! j)) as [Hne|He].
    + by rewrite lev_table_diag_ne.
    + apply dec_stable in He. by rewrite lev_table_diag_eq.
Qed.

Lemma cell_bound i j : j ≤ L -> cell shorter longer i j ≤ Nat.max i j.
Proof.
  revert j. induction i as [|i IHi]; intros j Hj.
  - cbn [cell]. destruct (decide (j = L)); lia.
  - induction j as [|j IHj]; [cbn [cell]; lia|].
    rewrite cell_S_S. pose proof (IHi j).
    destruct (decide (shorter !! i ≠ longer !! j)); lia.
Qed.

(** The last column: row 0 ends in 0 instead of [L], and the entry below
    stays capped by [i] until the last code unit of [longer] turns up. *)
Lemma cell_last i :
  0 < L ->
  cell shorter longer i L =
    if lastOccurs shorter longer i then lev_table shorter longer i L
    else Nat.min i (lev_table shorter longer i L).
Proof.
  intros HL. destruct L as [|n] eqn:HLn; [lia|].
  induction i as [|i IHi].
  - cbn [cell lastOccurs]. rewrite decide_True by done.
    rewrite lev_table_0. lia.
  - rewrite cell_S_S, !cell_inner by lia. cbn [lastOccurs].
    rewrite HLn. replace (S n - 1) with n by lia.
    destruct (decide (shorter !! i ≠ longer !! n)) as [Hne|He].
    + rewrite bool_decide_eq_false_2 by done. rewrite orb_false_r.
      rewrite IHi, lev_table_diag_ne by done.
      destruct (lastOccurs shorter longer i); lia.
    + apply dec_stable in He. rewrite bool_decide_eq_true_2 by done.
      rewrite orb_true_r. by rewrite lev_table_diag_eq.
Qed.

Lemma cell_equal_length :
  length shorter = L ->
  cell shorter longer (length shorter) L = levenshtein shorter longer.
Proof.
  intros Hlen. unfold levenshtein.
  destruct (decide (L = 0)) as [H0|H0].
  - rewrite Hlen, H0. cbn [cell]. by rewrite decide_True.
  - rewrite cell_last by lia.
    pose proof (lev_table_bound shorter longer (length shorter) L).
    destruct (lastOccurs _ _ _); lia.
Qed.
End CellVsLevenshtein.

(** ** stringSimilarity *)

Section Similarity.
Context `{Runtime}.

(** The inputs as [stringSimilarity] compares them. *)
Local Abbreviation norm str := (trim (toLowerCase (orEmpty str))).

Lemma stringSimilarity_equal str1 str2 :
  norm str1 = norm str2 -> stringSimilarity str1 str2 = 1%Q.
Proof. intros He. unfold stringSimilarity. by rewrite decide_True. Qed.

Lemma stringSimilarity_one_empty str1 str2 :
  norm str1 ≠ norm str2 -> norm str1 = [] ∨ norm str2 = [] ->
  stringSimilarity str1 str2 = 0%Q.
Proof.
  intros Hne He. unfold stringSimilarity.
  rewrite decide_False by done. rewrite decide_True; [done|].
  destruct He as [-> | ->]; auto.
Qed.

(** Past the two early returns the result is read off the table. *)
Lemma stringSimilarity_table str1 str2 :
  norm str1 ≠ norm str2 -> norm str1 ≠ [] -> norm str2 ≠ [] ->
  stringSimilarity str1 str2 =
    let s1 := norm str1 in
    let s2 := norm str2 in
    let longer := if decide (length s2 < length s1) then s1 else s2 in
    let shorter := if decide (length s2 < length s1) then s2 else s1 in
    ((Q_of_nat (length longer)
      - Q_of_nat (cell shorter longer (length shorter) (length longer)))
     / Q_of_nat (length longer))%Q.
Proof.
  intros Hne H1 H2. unfold stringSimilarity.
  rewrite decide_False by done.
  rewrite decide_False.
  - cbv zeta. by rewrite editCosts_last.
  - intros [He|He]; apply length_zero_iff_nil in He; done.
Qed.

Lemma stringSimilarity_sym str1 str2 :
  stringSimilarity str1 str2 = stringSimilarity str2 str1.
Proof.
  destruct (decide (norm str1 = norm str2)) as [He|Hne].
  { by rewrite !stringSimilarity_equal. }
  destruct (decide (norm str1 = [] ∨ norm str2 = [])) as [He|Hfull].
  { rewrite !stringSimilarity_one_empty; try done. tauto. }
  apply Decidable.not_or in Hfull as [H1 H2].
  rewrite !stringSimilarity_table by done. cbv zeta.
  destruct (decide (length (norm str2) < length (norm str1))) as [Hlt|Hge].
  { destruct (decide (length (norm str1) < length (norm str2))); [lia|done]. }
  destruct (decide (length (norm str1) < length (norm str2))) as [Hlt|Hge'].
  { done. }
  assert (length (norm str1) = length (norm str2)) as Hlen by lia.
  rewrite cell_equal_length by done.
  rewrite <- Hlen at 2. rewrite cell_equal_length by done.
  by rewrite Hlen, (levenshtein_sym (norm str1)).
Qed.

Lemma Q_of_nat_ratio (d n : nat) :
  0 < n -> d ≤ n ->
  (0 <= (Q_of_nat n - Q_of_nat d) / Q_of_nat n
   ∧ (Q_of_nat n - Q_of_nat d) / Q_of_nat n <= 1)%Q.
Proof.
  intros Hn Hd. unfold Q_of_nat.
  assert (0 < inject_Z (Z.of_nat n))%Q as Hpos.
  { change 0%Q with (inject_Z 0). rewrite <- Zlt_Qlt. lia. }
  split.
  - apply Qle_shift_div_l; [done|]. rewrite Qmult_0_l.
    rewrite <- (Qplus_opp_r (inject_Z (Z.of_nat d))).
    apply Qplus_le_l. rewrite <- Zle_Qle. lia.
  - apply Qle_shift_div_r; [done|]. rewrite Qmult_1_l.
    rewrite <- (Qplus_0_r (inject_Z (Z.of_nat n))) at 2.
    apply Qplus_le_r.
    change 0%Q with (- inject_Z 0)%Q. apply Qopp_le_compat.
    rewrite <- Zle_Qle. lia.
Qed.

Lemma stringSimilarity_range str1 str2 :
  (0 <= stringSimilarity str1 str2 ∧ stringSimilarity str1 str2 <= 1)%Q.
Proof.
  destruct (decide (norm str1 = norm str2)) as [He|Hne].
  { rewrite stringSimilarity_equal by done. done. }
  destruct (decide (norm str1 = [] ∨ norm str2 = [])) as [He|Hfull].
  { rewrite stringSimilarity_one_empty by done. done. }
  apply Decidable.not_or in Hfull as [H1 H2].
  rewrite stringSimilarity_table by done. cbv zeta.
  assert (0 < length (norm str1)) by (destruct (norm str1); simpl; [done|lia]).
  assert (0 < length (norm str2)) by (destruct (norm str2); simpl; [done|lia]).
  apply Q_of_nat_ratio.
  - destruct (decide _); done.
  - etrans; [apply cell_bound; lia|].
    destruct (decide _); lia.
Qed.

(** What the loops compute: the Levenshtein distance, unless the last
    code unit of [longer] is absent from [shorter]; then the result is
    capped by the length of [shorter]. *)
Lemma editCosts_characterised (shorter longer : jsstring) :
  longer ≠ [] ->
  editCosts shorter longer !!! length longer =
    if lastOccurs shorter longer (length shorter)
    then levenshtein shorter longer
    else Nat.min (length shorter) (levenshtein shorter longer).
Proof.
  intros Hne. rewrite editCosts_last. apply cell_last.
  destruct longer; simpl; [done|lia].
Qed.
End Similarity.

(** ** Sorting by confidence *)

Section Sorting.
Implicit Types (m : MatchResult) (l : list MatchResult).

Lemma sort_insert_perm m l : sort_insert byConfidenceDesc m l ≡ₚ m :: l.
Proof.
  induction l as [|y l IH]; [done|]. cbn [sort_insert].
  destruct (decide _); [done|]. rewrite IH. apply Permutation_swap.
Qed.

Lemma Array_sort_perm l : Array_sort byConfidenceDesc l ≡ₚ l.
Proof.
  induction l as [|x l IH]; [done|]. cbn [Array_sort foldr].
  rewrite sort_insert_perm. by f_equiv.
Qed.

Lemma sort_insert_HdRel y m l :
  descending y m -> HdRel descending y l ->
  HdRel descending y (sort_insert byConfidenceDesc m l).
Proof.
  intros Hm Hl. destruct l as [|z l]; cbn [sort_insert].
  - by constructor.
  - destruct (decide _); constructor; [done|]. by inversion Hl.
Qed.

Lemma sort_insert_Sorted m l :
  Sorted descending l -> Sorted descending (sort_insert byConfidenceDesc m l).
Proof.
  induction 1 as [|y l Hs IH Hhd]; cbn [sort_insert].
  - by repeat constructor.
  - unfold byConfidenceDesc at 1.
    destruct (decide _) as [Hle|Hgt].
    + constructor; [by constructor|]. constructor. unfold descending. lia.
    + constructor; [done|]. apply sort_insert_HdRel; [|done].
      unfold descending. lia.
Qed.

Lemma Array_sort_Sorted l : Sorted descending (Array_sort byConfidenceDesc l).
Proof.
  induction l as [|x l IH]; [constructor|]. by apply sort_insert_Sorted.
Qed.

(** Insertion never overtakes an element of the same confidence. *)
Lemma sort_insert_filter (c : nat) m l :
  filter (fun r => confidence r = c) (sort_insert byConfidenceDesc m l)
  = filter (fun r => confidence r = c) (m :: l).
Proof.
  induction l as [|y l IH]; [done|]. cbn [sort_insert].
  unfold byConfidenceDesc at 1. destruct (decide _) as [Hle|Hgt]; [done|].
  rewrite filter_cons, IH, !filter_cons.
  destruct (decide (confidence y = c)), (decide (confidence m = c));
    try done; lia.
Qed.

Lemma Array_sort_stable (c : nat) l :
  filter (fun r => confidence r = c) (Array_sort byConfidenceDesc l)
  = filter (fun r => confidence r = c) l.
Proof.
  induction l as [|x l IH]; [done|]. cbn [Array_sort foldr].
  rewrite sort_insert_filter, !filter_cons.
  unfold Array_sort in IH. by rewrite IH.
Qed.
End Sorting.

(** ** findPotentialDuplicates *)

Section Matcher.
Context `{Runtime}.
Variables (newAmount : float64) (newDate : option jsstring)
          (newMerchant : jsstring).

Local Abbreviation scoreRow' := (scoreRow newAmount newDate newMerchant).
Local Abbreviation rowScore' := (rowScore newAmount newDate newMerchant).

(** The loop pushes, in order, what [scoreRow] keeps. *)
Lemma scanRows_omap (rows : list Row) :
  scanRows newAmount newDate newMerchant rows = omap scoreRow' rows.
Proof.
  unfold scanRows.
  enough (forall acc,
    foldl (fun duplicates existing =>
             match scoreRow' existing with
             | Some r => duplicates ++ [r]
             | None => duplicates
             end) acc rows = acc ++ omap scoreRow' rows) as Hgen
    by apply (Hgen []).
  induction rows as [|r rows IH]; intros acc; cbn [foldl omap list_omap].
  - by rewrite app_nil_r.
  - rewrite IH. destruct (scoreRow' r); [|done].
    by rewrite <- app_assoc.
Qed.

Lemma scoreRow_Some existing m :
  scoreRow' existing = Some m <->
    truthy_str (duplicate_of existing) = false
    ∧ 60 ≤ (rowScore' (default emptyOcr (ocr_data existing))).1.1
    ∧ m = pushed existing (default emptyOcr (ocr_data existing))
                 (rowScore' (default emptyOcr (ocr_data existing))).
Proof.
  unfold scoreRow. destruct (truthy_str (duplicate_of existing)).
  - split; [done|]. by intros [? _].
  - cbv zeta. destruct (decide _) as [Hge|Hlt].
    + split; [by intros [= <-]|]. by intros (_ & _ & ->).
    + split; [done|]. intros (_ & ? & _). lia.
Qed.

Lemma confidence_pushed existing ocr score :
  confidence (pushed existing ocr score) = score.1.1.
Proof. by destruct score as [[? ?] ?]. Qed.

Lemma mr_id_pushed existing ocr score :
  mr_id (pushed existing ocr score) = row_id existing.
Proof. by destruct score as [[? ?] ?]. Qed.

Lemma merchantSimilarity_pushed existing ocr score :
  merchantSimilarity (pushed existing ocr score) = score.2.
Proof. by destruct score as [[? ?] ?]. Qed.

Lemma reasons_pushed existing ocr score :
  reasons (pushed existing ocr score) = score.1.2.
Proof. by destruct score as [[? ?] ?]. Qed.

Local Abbreviation signals' := (signals newAmount newDate newMerchant).

Lemma rowScore_confidence existingOcr :
  (rowScore' existingOcr).1.1 =
    let '(am, dm, mm) := signals' existingOcr in weight am dm mm.
Proof.
  unfold rowScore, signals, weight.
  destruct (amountMatch _ _), (dateMatch _ _), (Qltb (7 # 10) _); done.
Qed.

Lemma rowScore_similarity existingOcr :
  (rowScore' existingOcr).2 =
    stringSimilarity (Some newMerchant)
      (Some (toLowerCase (orEmpty (merchant existingOcr)))).
Proof.
  unfold rowScore.
  destruct (amountMatch _ _), (dateMatch _ _), (Qltb (7 # 10) _); done.
Qed.

Lemma elem_of_scanRows m (rows : list Row) :
  m ∈ scanRows newAmount newDate newMerchant rows <->
    ∃ existing, existing ∈ rows ∧ scoreRow' existing = Some m.
Proof. rewrite scanRows_omap. apply list_elem_of_omap. Qed.
End Matcher.

(** ** Claims on the candidate matcher *)

Lemma findPotentialDuplicates_rows `{Runtime} (db : Db) (newReceipt : OcrData)
    (userId : option jsstring) (rows : list Row) :
  let newAmount := normalizeAmount (amount newReceipt) in
  let newDate := normalizeDate (date newReceipt) in
  let newMerchant := toLowerCase (orEmpty (merchant newReceipt)) in
  db (queryStr userId) (queryParams newAmount userId) = Ok rows ->
  findPotentialDuplicates db newReceipt userId =
    Ok (Array_sort byConfidenceDesc
          (scanRows newAmount newDate newMerchant rows)).
Proof.
  intros newAmount newDate newMerchant Hdb. unfold findPotentialDuplicates.
  subst newAmount newDate newMerchant. by rewrite Hdb.
Qed.

Lemma Sorted_adjacent {A} (R : A -> A -> Prop) (l : list A) i a b :
  Sorted R l -> l !! i = Some a -> l !! S i = Some b -> R a b.
Proof.
  intros Hs. revert i. induction Hs as [|x l Hs IH Hhd]; intros i Ha Hb.
  - done.
  - destruct i as [|i]; [|by eapply IH].
    cbn in Ha, Hb. injection Ha as ->.
    destruct l as [|y l]; [done|]. cbn in Hb. injection Hb as ->.
    by inversion Hhd.
Qed.

Lemma NoDup_fmap_inj {A B} (f : A -> B) (l : list A) x y :
  NoDup (f <$> l) -> x ∈ l -> y ∈ l -> f x = f y -> x = y.
Proof.
  induction l as [|z l IH]; intros Hnd Hx Hy Hf; [by inversion Hx|].
  rewrite fmap_cons in Hnd. apply NoDup_cons in Hnd as [Hz Hnd].
  apply elem_of_cons in Hx as [->|Hx]; apply elem_of_cons in Hy as [->|Hy].
  - done.
  - exfalso. apply Hz. rewrite Hf. by apply list_elem_of_fmap_2.
  - exfalso. apply Hz. rewrite <- Hf. by apply list_elem_of_fmap_2.
  - by apply IH.
Qed.

(** C1. For a row that the loop scores (its [duplicate_of] is unset), the
    confidence is 40 for an amount match plus 35 for a date match plus 25
    for a merchant match (similarity above 0.7); the result built from
    the row is in the returned list exactly when that sum reaches 60; a
    comparison with at most one signal stays at or below 40 and is not
    returned. *)
Theorem confidence_is_weighted_sum `{Runtime} (db : Db)
    (newReceipt : OcrData) (userId : option jsstring) (rows : list Row)
    (existing : Row) :
  let newAmount := normalizeAmount (amount newReceipt) in
  let newDate := normalizeDate (date newReceipt) in
  let newMerchant := toLowerCase (orEmpty (merchant newReceipt)) in
  let existingOcr := default emptyOcr (ocr_data existing) in
  let am := amountMatch newAmount existingOcr in
  let dm := dateMatch newDate (normalizeDate (date existingOcr)) in
  let similarity :=
    stringSimilarity (Some newMerchant)
      (Some (toLowerCase (orEmpty (merchant existingOcr)))) in
  let mm := Qltb (7 # 10) similarity in
  let sum := (if am then 40 else 0) + (if dm then 35 else 0)
             + (if mm then 25 else 0) in
  let result :=
    pushed existing existingOcr
           (rowScore newAmount newDate newMerchant existingOcr) in
  db (queryStr userId) (queryParams newAmount userId) = Ok rows ->
  existing ∈ rows ->
  truthy_str (duplicate_of existing) = false ->
  ∃ out,
    findPotentialDuplicates db newReceipt userId = Ok out
    ∧ confidence result = sum
    ∧ merchantSimilarity result = similarity
    ∧ (result ∈ out <-> 60 ≤ sum)
    ∧ (am && dm = false -> am && mm = false -> dm && mm = false ->
       sum ≤ 40 ∧ result ∉ out).
Proof.
  intros newAmount newDate newMerchant existingOcr am dm similarity mm sum
         result Hdb Hin Hunset.
  exists (Array_sort byConfidenceDesc
            (scanRows (normalizeAmount (amount newReceipt))
                      (normalizeDate (date newReceipt))
                      (toLowerCase (orEmpty (merchant newReceipt))) rows)).
  split; [by apply findPotentialDuplicates_rows|].
  assert (confidence result = sum) as Hconf.
  { unfold result. rewrite confidence_pushed, rowScore_confidence. done. }
  fold newAmount newDate newMerchant.
  assert (result ∈ Array_sort byConfidenceDesc
                     (scanRows newAmount newDate newMerchant rows)
          <-> 60 ≤ sum) as Hiff.
  { rewrite Array_sort_perm, elem_of_scanRows. split.
    - intros (r & _ & Hr). apply scoreRow_Some in Hr as (_ & Hge & Hm).
      rewrite <- Hconf, Hm, confidence_pushed. done.
    - intros Hge. exists existing. split; [done|].
      apply scoreRow_Some. split; [done|]. split; [|done].
      fold existingOcr. rewrite rowScore_confidence. done. }
  split; [done|]. split.
  { unfold result. by rewrite merchantSimilarity_pushed, rowScore_similarity. }
  split; [done|].
  intros H1 H2 H3.
  assert (sum ≤ 40) as Hle.
  { unfold sum. destruct am, dm, mm; simpl in *; done || lia. }
  split; [done|]. rewrite Hiff. lia.
Qed.

(** C7. A row whose [duplicate_of] is set (a non-empty reference) is
    skipped: every returned result stems from a row with [duplicate_of]
    unset, and, the ids of the rows being distinct, no returned result
    carries the id of the marked row. *)
Theorem marked_duplicate_never_returned `{Runtime} (db : Db)
    (newReceipt : OcrData) (userId : option jsstring) (rows : list Row)
    (existing : Row) (original : jsstring) :
  let newAmount := normalizeAmount (amount newReceipt) in
  let newDate := normalizeDate (date newReceipt) in
  let newMerchant := toLowerCase (orEmpty (merchant newReceipt)) in
  db (queryStr userId) (queryParams newAmount userId) = Ok rows ->
  existing ∈ rows ->
  duplicate_of existing = Some original ->
  original ≠ [] ->
  ∃ out,
    findPotentialDuplicates db newReceipt userId = Ok out
    ∧ scoreRow newAmount newDate newMerchant existing = None
    ∧ (∀ m, m ∈ out ->
         ∃ r, r ∈ rows ∧ truthy_str (duplicate_of r) = false
              ∧ mr_id m = row_id r)
    ∧ (NoDup (row_id <$> rows) ->
       ∀ m, m ∈ out -> mr_id m ≠ row_id existing).
Proof.
  intros newAmount newDate newMerchant Hdb Hin Hdup Hset.
  assert (truthy_str (duplicate_of existing) = true) as Hmarked.
  { rewrite Hdup. cbn. by apply bool_decide_eq_true_2. }
  exists (Array_sort byConfidenceDesc
            (scanRows (normalizeAmount (amount newReceipt))
                      (normalizeDate (date newReceipt))
                      (toLowerCase (orEmpty (merchant newReceipt))) rows)).
  split; [by apply findPotentialDuplicates_rows|].
  fold newAmount newDate newMerchant.
  assert (∀ m, m ∈ Array_sort byConfidenceDesc
                     (scanRows newAmount newDate newMerchant rows) ->
          ∃ r, r ∈ rows ∧ truthy_str (duplicate_of r) = false
               ∧ mr_id m = row_id r) as Hsrc.
  { intros m. rewrite Array_sort_perm, elem_of_scanRows.
    intros (r & Hr & Hm). apply scoreRow_Some in Hm as (Hunset & _ & ->).
    exists r. by rewrite mr_id_pushed. }
  split.
  { unfold scoreRow. by rewrite Hmarked. }
  split; [done|].
  intros Hnd m Hm Hid. destruct (Hsrc m Hm) as (r & Hr & Hunset & Hidr).
  assert (r = existing) as ->.
  { eapply (NoDup_fmap_inj row_id); [done..|]. congruence. }
  congruence.
Qed.

(** C8. The returned list is in descending order of confidence: of two
    adjacent elements the earlier has the greater or equal confidence;
    and it is a stable rearrangement of the results in the order the
    loop pushed them (the order of the rows): the elements of any one
    confidence come in that order. *)
Theorem result_sorted_descending_stable `{Runtime} (db : Db)
    (newReceipt : OcrData) (userId : option jsstring) (rows : list Row) :
  let newAmount := normalizeAmount (amount newReceipt) in
  let newDate := normalizeDate (date newReceipt) in
  let newMerchant := toLowerCase (orEmpty (merchant newReceipt)) in
  let duplicates := scanRows newAmount newDate newMerchant rows in
  db (queryStr userId) (queryParams newAmount userId) = Ok rows ->
  ∃ out,
    findPotentialDuplicates db newReceipt userId = Ok out
    ∧ (∀ i a b, out !! i = Some a -> out !! S i = Some b ->
         confidence b ≤ confidence a)
    ∧ out ≡ₚ duplicates
    ∧ (∀ c, filter (fun m => confidence m = c) out
            = filter (fun m => confidence m = c) duplicates)
    ∧ duplicates = omap (scoreRow newAmount newDate newMerchant) rows.
Proof.
  intros newAmount newDate newMerchant duplicates Hdb.
  exists (Array_sort byConfidenceDesc
            (scanRows (normalizeAmount (amount newReceipt))
                      (normalizeDate (date newReceipt))
                      (toLowerCase (orEmpty (merchant newReceipt))) rows)).
  split; [by apply findPotentialDuplicates_rows|].
  split; [|split; [|split]].
  - intros i a b Ha Hb.
    by apply (Sorted_adjacent descending _ i a b
                (Array_sort_Sorted duplicates)).
  - apply Array_sort_perm.
  - intros c. apply Array_sort_stable.
  - apply scanRows_omap.
Qed.

(** C9. Every returned result has confidence 60, 65, 75 or 100, and a
    merchant similarity between 0 and 1. *)
Theorem emitted_confidence_and_similarity_range `{Runtime} (db : Db)
    (newReceipt : OcrData) (userId : option jsstring) (rows : list Row) :
  let newAmount := normalizeAmount (amount newReceipt) in
  db (queryStr userId) (queryParams newAmount userId) = Ok rows ->
  ∃ out,
    findPotentialDuplicates db newReceipt userId = Ok out
    ∧ ∀ m, m ∈ out ->
        confidence m ∈ [60; 65; 75; 100]
        ∧ (0 <= merchantSimilarity m)%Q ∧ (merchantSimilarity m <= 1)%Q.
Proof.
  intros newAmount Hdb.
  exists (Array_sort byConfidenceDesc
            (scanRows (normalizeAmount (amount newReceipt))
                      (normalizeDate (date newReceipt))
                      (toLowerCase (orEmpty (merchant newReceipt))) rows)).
  split; [by apply findPotentialDuplicates_rows|].
  intros m. rewrite Array_sort_perm, elem_of_scanRows.
  intros (r & _ & Hm). apply scoreRow_Some in Hm as (_ & Hge & ->).
  rewrite confidence_pushed, merchantSimilarity_pushed, rowScore_similarity.
  split; [|apply stringSimilarity_range].
  rewrite rowScore_confidence in Hge |- *. unfold signals, weight in *.
  destruct (amountMatch _ _), (dateMatch _ _), (Qltb _ _);
    simpl in *; try lia; rewrite !elem_of_cons; lia.
Qed.

(** C10. [normalizeAmount] sends a missing amount to 0; a receipt with a
    missing amount therefore matches a record whose amount is missing or
    zero on the amount signal, and the comparison receives the 40 points
    and the reason "Same amount". *)
Theorem missing_amount_matches_missing_or_zero `{Runtime}
    (newReceipt existingOcr : OcrData) (newDate : option jsstring)
    (newMerchant : jsstring) :
  let newAmount := normalizeAmount (amount newReceipt) in
  let score := rowScore newAmount newDate newMerchant existingOcr in
  amount newReceipt = AmountAbsent ->
  amount existingOcr = AmountAbsent
  ∨ (∃ sign, amount existingOcr = AmountNum (S754_zero sign)) ->
  newAmount = b64 0
  ∧ amountMatch newAmount existingOcr = true
  ∧ 40 ≤ score.1.1
  ∧ head score.1.2 = Some (u16 "Same amount").
Proof.
  intros newAmount score Hnew Hold.
  assert (normalizeAmount AmountAbsent = b64 0) as Habsent
    by (by vm_compute).
  assert (normalizeAmount (amount existingOcr) = b64 0) as Hex.
  { by destruct Hold as [-> | (sign & ->)]. }
  assert (amountMatch newAmount existingOcr = true) as Ham.
  { unfold amountMatch, newAmount. rewrite Hnew, Habsent, Hex.
    by vm_compute. }
  split.
  { unfold newAmount. by rewrite Hnew. }
  split; [done|].
  unfold score, rowScore. rewrite Ham.
  destruct (dateMatch _ _), (Qltb (7 # 10) _); cbn; split; lia || done.
Qed.

(** ** The brace match *)

Section BraceMatch.
Implicit Types (c : codeunit) (s : jsstring).

Lemma fromFirst_split c s :
  ∃ pre, s = pre ++ fromFirst c s ∧ c ∉ pre.
Proof.
  induction s as [|d s (pre & Hs & Hpre)]; cbn [fromFirst].
  - exists []. split; [done|]. apply not_elem_of_nil.
  - destruct (decide (d = c)) as [->|Hne].
    + exists []. split; [done|]. apply not_elem_of_nil.
    + exists (d :: pre). split; [by rewrite Hs at 1|].
      rewrite not_elem_of_cons. split; [congruence|done].
Qed.

Lemma fromFirst_head c s d rest : fromFirst c s = d :: rest -> d = c.
Proof.
  induction s as [|e s IH]; cbn [fromFirst]; [done|].
  destruct (decide (e = c)) as [->|Hne]; [|done]. by intros [= -> _].
Qed.

Lemma fromFirst_app c pre rest :
  c ∉ pre -> fromFirst c (pre ++ c :: rest) = c :: rest.
Proof.
  induction pre as [|d pre IH]; intros Hpre; cbn [app fromFirst].
  - by rewrite decide_True.
  - apply not_elem_of_cons in Hpre as [Hd Hpre].
    rewrite decide_False by congruence. by apply IH.
Qed.

Lemma throughLast_app c body post :
  c ∉ post -> throughLast c (body ++ c :: post) = body ++ [c].
Proof.
  intros Hpost. unfold throughLast.
  rewrite reverse_app, reverse_cons, <- app_assoc. cbn [app].
  rewrite fromFirst_app by (by rewrite elem_of_reverse).
  by rewrite reverse_cons, reverse_involutive.
Qed.

Lemma throughLast_split c s :
  ∃ post, s = throughLast c s ++ post ∧ c ∉ post.
Proof.
  destruct (fromFirst_split c (reverse s)) as (pre & Hs & Hpre).
  exists (reverse pre). split; [|by rewrite elem_of_reverse].
  unfold throughLast. rewrite <- reverse_app, <- Hs.
  by rewrite reverse_involutive.
Qed.

Lemma throughLast_last c s :
  throughLast c s = [] ∨ ∃ inner, throughLast c s = inner ++ [c].
Proof.
  unfold throughLast. destruct (fromFirst c (reverse s)) as [|d rest] eqn:He.
  - by left.
  - right. apply fromFirst_head in He as ->. exists (reverse rest).
    by rewrite reverse_cons.
Qed.

(** The match is the stretch from the first opening brace to the last
    closing brace. *)
Lemma matchBraces_Some body span :
  matchBraces body = Some span <-> braceSpan body span.
Proof.
  unfold matchBraces, braceSpan. split.
  - destruct (fromFirst_split openBrace body) as (pre & Hbody & Hpre).
    destruct (fromFirst openBrace body) as [|o rest] eqn:Hfrom; [done|].
    apply fromFirst_head in Hfrom as ->.
    destruct (throughLast_split closeBrace rest) as (post & Hrest & Hpost).
    destruct (throughLast_last closeBrace rest) as [Hnil|(inner & Hin)].
    + by rewrite Hnil.
    + rewrite Hin in Hrest |- *.
      destruct (inner ++ [closeBrace]) as [|x l] eqn:Hne.
      { by destruct inner. }
      intros [= <-]. exists pre, inner, post. rewrite <- Hne.
      split; [|done]. by rewrite Hbody, Hrest, Hne.
  - intros (pre & inner & post & -> & -> & Hpre & Hpost).
    cbn [app]. rewrite fromFirst_app by done.
    rewrite <- app_assoc. cbn [app]. rewrite throughLast_app by done.
    by destruct inner.
Qed.

Lemma matchBraces_None body :
  matchBraces body = None <-> ∀ span, ¬ braceSpan body span.
Proof.
  split.
  - intros Hnone span Hspan. apply matchBraces_Some in Hspan. congruence.
  - intros Hno. destruct (matchBraces body) as [span|] eqn:He; [|done].
    apply matchBraces_Some in He. by destruct (Hno span).
Qed.
End BraceMatch.

(** ** aiDuplicateAnalysis *)

Lemma safeVerdict_notDuplicate : safeVerdict notDuplicate.
Proof. by split. Qed.

Lemma safeVerdict_notDuplicateError e : safeVerdict (notDuplicateError e).
Proof. by split. Qed.

Section Analysis.
Context `{Runtime}.
Variables (w : World) (imagePath : jsstring)
          (existingReceipts : list MatchResult) (uniapiConfig : UniapiConfig).
Hypothesis nonempty : existingReceipts ≠ [].

Local Abbreviation analysis :=
  (aiDuplicateAnalysis w imagePath existingReceipts uniapiConfig).

Lemma analysis_unfold :
  analysis =
    catch
      (imageBuffer <- fs_readFileSync w imagePath ;;
       response <- axios_post w
                     (request uniapiConfig existingReceipts imageBuffer) ;;
       content <- responseContent response ;;
       jsonMatch <- contentMatch content ;;
       match jsonMatch with
       | Some text => JSON_parse text
       | None => Ok notDuplicate
       end)
      (fun error => Ok (notDuplicateError error)).
Proof.
  unfold aiDuplicateAnalysis. rewrite decide_False; [done|].
  by destruct existingReceipts.
Qed.

Lemma analysis_read_fails e :
  fs_readFileSync w imagePath = Throw e ->
  analysis = Ok (notDuplicateError e).
Proof. intros He. rewrite analysis_unfold, He. done. Qed.

Section Read.
Variable image : buffer.
Hypothesis read : fs_readFileSync w imagePath = Ok image.

Lemma analysis_post_fails e :
  axios_post w (request uniapiConfig existingReceipts image) = Throw e ->
  analysis = Ok (notDuplicateError e).
Proof. intros He. rewrite analysis_unfold, read. cbn. by rewrite He. Qed.

Section Answered.
Variable response : jsval.
Hypothesis answered :
  axios_post w (request uniapiConfig existingReceipts image)
  = Ok response.

Lemma analysis_envelope_fails e :
  responseContent response = Throw e ->
  analysis = Ok (notDuplicateError e).
Proof.
  intros He. rewrite analysis_unfold, read. cbn. rewrite answered. cbn.
  by rewrite He.
Qed.

Lemma analysis_content content :
  responseContent response = Ok content ->
  analysis =
    catch (jsonMatch <- contentMatch content ;;
           match jsonMatch with
           | Some text => JSON_parse text
           | None => Ok notDuplicate
           end)
          (fun error => Ok (notDuplicateError error)).
Proof.
  intros He. rewrite analysis_unfold, read. cbn. rewrite answered. cbn.
  by rewrite He.
Qed.

Lemma analysis_not_text content :
  responseContent response = Ok content ->
  (∀ body, content ≠ JStr body) ->
  analysis = Ok (notDuplicateError TypeError).
Proof.
  intros He Hno. rewrite (analysis_content content He).
  destruct content; try done. by destruct (Hno s).
Qed.

Lemma analysis_body body :
  responseContent response = Ok (JStr body) ->
  analysis =
    match matchBraces body with
    | Some span =>
        match JSON_parse span with
        | Ok v => Ok v
        | Throw e => Ok (notDuplicateError e)
        end
    | None => Ok notDuplicate
    end.
Proof.
  intros He. rewrite (analysis_content _ He). cbn.
  destruct (matchBraces body); [|done]. by destruct (JSON_parse _).
Qed.
End Answered.
End Read.

Lemma analysis_total : ∃ v, analysis = Ok v.
Proof.
  rewrite analysis_unfold.
  destruct (_ <- _ ;; _) as [v|e]; cbn; eauto.
Qed.
End Analysis.

Lemma aiDuplicateAnalysis_empty `{Runtime} w imagePath uniapiConfig :
  aiDuplicateAnalysis w imagePath [] uniapiConfig = Ok notDuplicate.
Proof. done. Qed.

Lemma aiDuplicateAnalysis_total `{Runtime} w imagePath existingReceipts
    uniapiConfig :
  ∃ v, aiDuplicateAnalysis w imagePath existingReceipts uniapiConfig = Ok v.
Proof.
  destruct (decide (existingReceipts = [])) as [->|Hne].
  - eexists. apply aiDuplicateAnalysis_empty.
  - by apply analysis_total.
Qed.

(** ** Claims on the similarity *)

(** Where the loops do compute the specified similarity: on inputs of
    equal length and whenever the last code unit of the longer input
    occurs in the shorter one. *)
Lemma stringSimilarity_agrees `{Runtime} (str1 str2 : option jsstring) :
  let s1 := trim (toLowerCase (orEmpty str1)) in
  let s2 := trim (toLowerCase (orEmpty str2)) in
  let longer := if decide (length s2 < length s1) then s1 else s2 in
  let shorter := if decide (length s2 < length s1) then s2 else s1 in
  length s1 = length s2
  ∨ lastOccurs shorter longer (length shorter) = true ->
  stringSimilarity str1 str2 = specSimilarity str1 str2.
Proof.
  intros s1 s2 longer shorter Hcase.
  unfold stringSimilarity, specSimilarity. fold s1 s2.
  destruct (decide (s1 = s2)); [done|].
  destruct (decide (length s1 = 0 ∨ length s2 = 0)) as [|Hfull]; [done|].
  cbv zeta. fold longer shorter.
  assert (longer ≠ []) as Hlonger.
  { unfold longer. intros He. apply Hfull.
    destruct (decide _); rewrite He in *; simpl in *; lia. }
  assert (Nat.max (length s1) (length s2) = length longer) as ->.
  { unfold longer. destruct (decide _); lia. }
  assert (levenshtein s1 s2 = levenshtein shorter longer) as ->.
  { unfold shorter, longer. destruct (decide _); [|done].
    apply levenshtein_sym. }
  rewrite editCosts_characterised by done.
  destruct (lastOccurs shorter longer (length shorter)) eqn:Hocc; [done|].
  destruct Hcase as [Hlen|?]; [|done].
  pose proof (levenshtein_bound shorter longer).
  assert (length shorter = length longer) as Hsl.
  { unfold shorter, longer. destruct (decide _); lia. }
  do 3 f_equal. lia.
Qed.

(** C2, amended. [stringSimilarity] is symmetric; it is 1 whenever the two
    inputs are equal after case-folding and trimming, whatever they were
    before, in particular on [(a, a)] for every [a], empty or not, and on
    two inputs that are both empty after case-folding and trimming; it is
    0 when exactly one input is empty after case-folding and trimming. *)
Theorem stringSimilarity_symmetric_one_zero `{Runtime} :
  (∀ str1 str2, stringSimilarity str1 str2 = stringSimilarity str2 str1)
  ∧ (∀ str1 str2,
       trim (toLowerCase (orEmpty str1)) = trim (toLowerCase (orEmpty str2)) ->
       stringSimilarity str1 str2 = 1%Q)
  ∧ (∀ str, stringSimilarity str str = 1%Q)
  ∧ (∀ str1 str2,
       trim (toLowerCase (orEmpty str1)) = []
       ∧ trim (toLowerCase (orEmpty str2)) = [] ->
       stringSimilarity str1 str2 = 1%Q)
  ∧ (∀ str1 str2,
       trim (toLowerCase (orEmpty str1))
       ≠ trim (toLowerCase (orEmpty str2)) ->
       trim (toLowerCase (orEmpty str1)) = []
       ∨ trim (toLowerCase (orEmpty str2)) = [] ->
       stringSimilarity str1 str2 = 0%Q).
Proof.
  split; [apply stringSimilarity_sym|].
  split; [apply stringSimilarity_equal|].
  split; [intros str; by apply stringSimilarity_equal|].
  split.
  - intros str1 str2 [H1 H2]. apply stringSimilarity_equal. congruence.
  - apply stringSimilarity_one_empty.
Qed.

(** ** Claims on the deep analyser *)

(** C3, amended. With a readable image and an answer whose content is the
    text [body]: the text handed to [JSON.parse] is the stretch of [body]
    from its first opening brace to its last closing brace; when that
    stretch parses, its parse is returned, text before the first opening
    brace and behind the last closing brace being ignored; when it does
    not parse, or when [body] has no such stretch, the result is a
    not-a-duplicate verdict with confidence 0. *)
Theorem brace_span_is_parsed `{Runtime} (w : World) (imagePath : jsstring)
    (existingReceipts : list MatchResult) (uniapiConfig : UniapiConfig)
    (image : buffer) (response : jsval) (body : jsstring) :
  let result :=
    aiDuplicateAnalysis w imagePath existingReceipts uniapiConfig in
  existingReceipts ≠ [] ->
  fs_readFileSync w imagePath = Ok image ->
  axios_post w (request uniapiConfig existingReceipts image) = Ok response ->
  responseContent response = Ok (JStr body) ->
  (∀ span v, braceSpan body span -> JSON_parse span = Ok v -> result = Ok v)
  ∧ (∀ span e, braceSpan body span -> JSON_parse span = Throw e ->
       result = Ok (notDuplicateError e)
       ∧ safeVerdict (notDuplicateError e))
  ∧ ((∀ span, ¬ braceSpan body span) ->
       result = Ok notDuplicate ∧ safeVerdict notDuplicate).
Proof.
  intros result Hne Hread Hpost Hcontent.
  assert (result =
          match matchBraces body with
          | Some span =>
              match JSON_parse span with
              | Ok v => Ok v
              | Throw e => Ok (notDuplicateError e)
              end
          | None => Ok notDuplicate
          end) as ->
    by (by eapply analysis_body).
  split; [|split].
  - intros span v Hspan Hv. apply matchBraces_Some in Hspan.
    by rewrite Hspan, Hv.
  - intros span e Hspan He. apply matchBraces_Some in Hspan.
    rewrite Hspan, He. split; [done|]. apply safeVerdict_notDuplicateError.
  - intros Hno. apply matchBraces_None in Hno. rewrite Hno.
    split; [done|]. apply safeVerdict_notDuplicate.
Qed.

(** C4, amended. [aiDuplicateAnalysis] always returns, it never throws.
    Whatever throws inside the call ends in the verdict
    [{isDuplicate: false, confidence: 0, error}]: an unreadable image, a
    failed or timed-out request, a response without
    [data.choices[0].message.content], a content that is not text, a brace
    stretch that is not JSON.  A content without a brace stretch, or an
    empty candidate list, gives [{isDuplicate: false, confidence: 0,
    matches: []}].  A brace stretch that parses is returned as parsed,
    whatever fields it has. *)
Theorem aiDuplicateAnalysis_never_throws `{Runtime} (w : World)
    (imagePath : jsstring) (existingReceipts : list MatchResult)
    (uniapiConfig : UniapiConfig) :
  let result :=
    aiDuplicateAnalysis w imagePath existingReceipts uniapiConfig in
  let post := axios_post w ∘ request uniapiConfig existingReceipts in
  (∃ v, result = Ok v)
  ∧ (existingReceipts = [] -> result = Ok notDuplicate)
  ∧ (existingReceipts ≠ [] ->
     (∀ e, fs_readFileSync w imagePath = Throw e ->
        result = Ok (notDuplicateError e))
     ∧ (∀ image, fs_readFileSync w imagePath = Ok image ->
        (∀ e, post image = Throw e -> result = Ok (notDuplicateError e))
        ∧ (∀ response, post image = Ok response ->
           (∀ e, responseContent response = Throw e ->
              result = Ok (notDuplicateError e))
           ∧ (∀ content, responseContent response = Ok content ->
                (∀ body, content ≠ JStr body) ->
                result = Ok (notDuplicateError TypeError))
           ∧ (∀ body, responseContent response = Ok (JStr body) ->
              (matchBraces body = None -> result = Ok notDuplicate)
              ∧ (∀ span e, matchBraces body = Some span ->
                   JSON_parse span = Throw e ->
                   result = Ok (notDuplicateError e))
              ∧ (∀ span v, matchBraces body = Some span ->
                   JSON_parse span = Ok v -> result = Ok v)))))
  ∧ safeVerdict notDuplicate
  ∧ (∀ e, safeVerdict (notDuplicateError e)).
Proof.
  intros result post. split; [apply aiDuplicateAnalysis_total|].
  split; [by intros ->|].
  split; [|split; [apply safeVerdict_notDuplicate
                  |apply safeVerdict_notDuplicateError]].
  intros Hne. split; [intros e; by apply analysis_read_fails|].
  intros image Hread. split; [intros e; by apply analysis_post_fails|].
  intros response Hpost.
  split; [intros e; by eapply analysis_envelope_fails|].
  split; [intros content; by eapply analysis_not_text|].
  intros body Hbody. unfold result.
  rewrite (analysis_body w imagePath existingReceipts uniapiConfig Hne
             image Hread response Hpost body Hbody).
  split; [by intros ->|]. split.
  - intros span e -> He. by rewrite He.
  - intros span v -> Hv. by rewrite Hv.
Qed.

(** ** Claims on the upload route *)

Lemma getProp_Ok_other (v x : jsval) (k k' : jsstring) :
  getProp v k = Ok x -> ∃ y, getProp v k' = Ok y.
Proof. destruct v; cbn; try done; eauto. Qed.

Lemma above07_num `{Runtime} (q : Q) :
  above07 (JNum q) = true <-> (7 # 10 < q)%Q.
Proof.
  unfold above07. rewrite ToNumber_num. cbn. unfold Qltb.
  rewrite negb_true_iff. split.
  - intros Hle. apply Qnot_le_lt. intros Hq.
    apply Qle_bool_iff in Hq. congruence.
  - intros Hlt. destruct (Qle_bool q (7 # 10)) eqn:Hle; [|done].
    apply Qle_bool_iff in Hle. by apply Qlt_not_le in Hlt.
Qed.

Lemma duplicateGate_open `{Runtime} w path top rest uniapiConfig v d :
  80 ≤ confidence top ->
  aiDuplicateAnalysis w path (top :: rest) uniapiConfig = Ok v ->
  getProp v isDuplicateKey = Ok d ->
  duplicateStatus (duplicateGate w path (top :: rest) uniapiConfig)
    = StatusDetected
  <-> truthy d = true
      ∧ ∃ c, getProp v confidenceKey = Ok c ∧ above07 c = true.
Proof.
  intros Hgate Hv Hd. unfold duplicateGate, confirmDuplicate.
  rewrite decide_True by done. rewrite Hv. cbn [bind]. rewrite Hd. cbn [bind].
  destruct (getProp_Ok_other v d isDuplicateKey confidenceKey Hd) as [c Hc].
  destruct (getProp_Ok_other v d isDuplicateKey (u16 "matchedReceiptId") Hd)
    as [m Hm].
  destruct (truthy d).
  - rewrite Hc. cbn [bind]. destruct (above07 c) eqn:Habove.
    + rewrite Hm. cbn [bind duplicateStatus]. split; [eauto|done].
    + cbn [duplicateStatus noDuplicate]. split; [done|].
      intros (_ & c' & [= <-] & Hc'). congruence.
  - cbn [duplicateStatus noDuplicate]. split; [done|]. by intros [? _].
Qed.

Lemma duplicateGate_closed `{Runtime} w path potentialDuplicates uniapiConfig :
  (∀ top, head potentialDuplicates = Some top -> confidence top < 80) ->
  duplicateGate w path potentialDuplicates uniapiConfig = noDuplicate.
Proof.
  intros Hlow. unfold duplicateGate.
  destruct potentialDuplicates as [|top rest]; [done|].
  rewrite decide_False; [done|]. specialize (Hlow top eq_refl). lia.
Qed.

(** C5. When the deep analysis has run (the top candidate has confidence
    80 or more) and returned a verdict with a boolean [isDuplicate] and a
    numeric [confidence], the upload route sets the duplicate status to
    "detected" exactly when [isDuplicate] is true and [confidence] is
    strictly above 0.7; a confidence of exactly 0.7 leaves the status at
    "none".  When the analysis does not run, the status is "none". *)
Theorem detected_iff_duplicate_above_threshold `{Runtime} (w : World)
    (path : jsstring) (top : MatchResult) (rest : list MatchResult)
    (uniapiConfig : UniapiConfig) (v : jsval) (isDuplicate : bool)
    (conf : Q) :
  let decision := duplicateGate w path (top :: rest) uniapiConfig in
  80 ≤ confidence top ->
  aiDuplicateAnalysis w path (top :: rest) uniapiConfig = Ok v ->
  getProp v isDuplicateKey = Ok (JBool isDuplicate) ->
  getProp v confidenceKey = Ok (JNum conf) ->
  (duplicateStatus decision = StatusDetected
   <-> isDuplicate = true ∧ (7 # 10 < conf)%Q)
  ∧ ((conf == 7 # 10)%Q -> duplicateStatus decision = StatusNone)
  ∧ (∀ candidates,
       (∀ first, head candidates = Some first -> confidence first < 80) ->
       duplicateStatus (duplicateGate w path candidates uniapiConfig)
       = StatusNone).
Proof.
  intros decision Hgate Hv Hdup Hconf.
  assert (duplicateStatus decision = StatusDetected
          <-> isDuplicate = true ∧ (7 # 10 < conf)%Q) as Hiff.
  { unfold decision. rewrite (duplicateGate_open _ _ _ _ _ _ _ Hgate Hv Hdup).
    change (truthy (JBool isDuplicate)) with isDuplicate. split.
    - intros (-> & c & Hc & Habove). split; [done|].
      rewrite Hconf in Hc. injection Hc as <-. by apply above07_num.
    - intros (-> & Hlt). split; [done|]. exists (JNum conf).
      split; [done|]. by apply above07_num. }
  split; [done|]. split.
  - intros Heq.
    assert (duplicateStatus decision ≠ StatusDetected) as Hn.
    { intros Hs. apply Hiff in Hs as [_ Hlt]. rewrite Heq in Hlt.
      by apply Qlt_irrefl in Hlt. }
    by destruct (duplicateStatus decision).
  - intros candidates Hlow. by rewrite duplicateGate_closed.
Qed.

(** * Further properties *)

(** ** The similarity against the Levenshtein distance *)

Lemma Q_of_nat_ratio_mono (d d' n : nat) :
  0 < n -> d ≤ d' ->
  ((Q_of_nat n - Q_of_nat d') / Q_of_nat n
   <= (Q_of_nat n - Q_of_nat d) / Q_of_nat n)%Q.
Proof.
  intros Hn Hd. unfold Q_of_nat, Qdiv.
  apply Qmult_le_compat_r.
  - apply Qplus_le_r, Qopp_le_compat. rewrite <- Zle_Qle. lia.
  - apply Qinv_le_0_compat. change 0%Q with (inject_Z 0).
    rewrite <- Zle_Qle. lia.
Qed.

Lemma Q_of_nat_ratio_above (d n : nat) :
  0 < n -> 10 * d < 3 * n ->
  Qltb (7 # 10) ((Q_of_nat n - Q_of_nat d) / Q_of_nat n) = true.
Proof.
  intros Hn Hd. unfold Qltb. apply negb_true_iff.
  destruct (Qle_bool _ _) eqn:Hle; [|done]. exfalso.
  apply Qle_bool_iff in Hle. apply Qle_not_lt in Hle. apply Hle.
  apply Qlt_shift_div_l.
  - unfold Q_of_nat. change 0%Q with (inject_Z 0). rewrite <- Zlt_Qlt. lia.
  - unfold Q_of_nat, Qlt, Qminus, Qplus, Qmult, Qopp, inject_Z. cbn. lia.
Qed.

Lemma editCosts_le_levenshtein (shorter longer : jsstring) :
  longer ≠ [] ->
  editCosts shorter longer !!! length longer ≤ levenshtein shorter longer.
Proof.
  intros Hne. rewrite editCosts_characterised by done.
  destruct (lastOccurs _ _ _); lia.
Qed.

(** X1. The similarity returned is never below the specified one,
    [(maxLen - levenshtein) / maxLen] behind the same two early returns,
    and equals it when the normalised inputs have the same length or
    the last code unit of the longer one occurs in the shorter one: the
    unguarded assignment of turn 0 can only raise the result. *)
Theorem stringSimilarity_never_below_levenshtein `{Runtime}
    (str1 str2 : option jsstring) :
  let s1 := trim (toLowerCase (orEmpty str1)) in
  let s2 := trim (toLowerCase (orEmpty str2)) in
  let longer := if decide (length s2 < length s1) then s1 else s2 in
  let shorter := if decide (length s2 < length s1) then s2 else s1 in
  (specSimilarity str1 str2 <= stringSimilarity str1 str2)%Q
  ∧ (length s1 = length s2
     ∨ lastOccurs shorter longer (length shorter) = true ->
     stringSimilarity str1 str2 = specSimilarity str1 str2).
Proof.
  intros s1 s2 longer shorter. split; [|apply stringSimilarity_agrees].
  unfold stringSimilarity, specSimilarity. fold s1 s2.
  destruct (decide (s1 = s2)); [apply Qle_refl|].
  destruct (decide (length s1 = 0 ∨ length s2 = 0)) as [|Hfull];
    [apply Qle_refl|].
  cbv zeta. fold longer shorter.
  assert (longer ≠ []) as Hlonger.
  { unfold longer. intros He. apply Hfull.
    destruct (decide _); rewrite He in *; simpl in *; lia. }
  assert (Nat.max (length s1) (length s2) = length longer) as ->.
  { unfold longer. destruct (decide _); lia. }
  assert (levenshtein s1 s2 = levenshtein shorter longer) as ->.
  { unfold shorter, longer. destruct (decide _); [|done].
    apply levenshtein_sym. }
  apply Q_of_nat_ratio_mono.
  - destruct longer; simpl; [done|lia].
  - by apply editCosts_le_levenshtein.
Qed.

(** X2. When the last code unit of the longer normalised input does not
    occur in the shorter one, the distance left in the array is the
    Levenshtein distance capped by the length of the shorter input; so a
    shorter input with fewer than three tenths of the code units of the
    longer one passes the merchant threshold 0.7 whatever the two
    contain. *)
Theorem short_input_passes_merchant_threshold `{Runtime}
    (str1 str2 : option jsstring) :
  let s1 := trim (toLowerCase (orEmpty str1)) in
  let s2 := trim (toLowerCase (orEmpty str2)) in
  let longer := if decide (length s2 < length s1) then s1 else s2 in
  let shorter := if decide (length s2 < length s1) then s2 else s1 in
  shorter ≠ [] ->
  lastOccurs shorter longer (length shorter) = false ->
  editCosts shorter longer !!! length longer
  = Nat.min (length shorter) (levenshtein shorter longer)
  ∧ (10 * length shorter < 3 * length longer ->
     Qltb (7 # 10) (stringSimilarity str1 str2) = true).
Proof.
  intros s1 s2 longer shorter Hshort Hocc.
  assert (length shorter ≤ length longer) as Hlen.
  { unfold shorter, longer. destruct (decide _); lia. }
  assert (0 < length shorter) as Hpos.
  { destruct shorter; simpl; [done|lia]. }
  assert (longer ≠ []) as Hlonger.
  { intros He. rewrite He in Hlen. simpl in Hlen. lia. }
  assert (editCosts shorter longer !!! length longer
          = Nat.min (length shorter) (levenshtein shorter longer)) as Hd.
  { rewrite editCosts_characterised by done. by rewrite Hocc. }
  split; [done|]. intros Hfew.
  assert (s1 ≠ s2) as Hne.
  { intros He. unfold shorter, longer in Hfew. rewrite He in Hfew.
    destruct (decide _); lia. }
  unfold stringSimilarity. fold s1 s2.
  rewrite decide_False by done.
  rewrite decide_False.
  2:{ unfold shorter, longer in Hpos, Hlen. destruct (decide _); lia. }
  cbv zeta. fold longer shorter. rewrite Hd.
  apply Q_of_nat_ratio_above; lia.
Qed.

Lemma lev_table_zero (a b : jsstring) i j :
  i ≤ length a -> j ≤ length b ->
  lev_table a b i j = 0 -> take i a = take j b.
Proof.
  revert j. induction i as [|i IHi]; intros j Hi Hj.
  - rewrite lev_table_0. by intros ->.
  - destruct j as [|j]; [by rewrite lev_table_S_0|].
    rewrite lev_table_S_S.
    destruct (decide (a !! i = b !! j)) as [He|]; [|lia].
    intros Hz. assert (lev_table a b i j = 0) as Hz' by lia.
    apply IHi in Hz'; [|lia..].
    assert (i = j) as <-.
    { apply (f_equal length) in Hz'. rewrite !length_take in Hz'. lia. }
    destruct (lookup_lt_is_Some_2 a i) as [x Hx]; [lia|].
    assert (b !! i = Some x) as Hb by (etrans; [symmetry; exact He|exact Hx]).
    by rewrite (take_S_r a i x Hx), (take_S_r b i x Hb), Hz'.
Qed.

Lemma levenshtein_zero (a b : jsstring) : levenshtein a b = 0 -> a = b.
Proof.
  intros Hz. apply lev_table_zero in Hz; [|done..].
  by rewrite !firstn_all in Hz.
Qed.

Lemma Q_of_nat_ratio_one (d n : nat) :
  0 < n -> ((Q_of_nat n - Q_of_nat d) / Q_of_nat n == 1)%Q -> d = 0.
Proof.
  intros Hn. unfold Q_of_nat, Qeq, Qdiv, Qminus, Qplus, Qmult, Qopp, Qinv.
  destruct (Z.of_nat n) as [|p|p] eqn:Hp; try lia.
  cbn. lia.
Qed.

(** X3. A similarity of 1 is returned only for inputs that are equal
    after case-folding and trimming: past the early returns the distance
    left in the array is never 0. *)
Theorem stringSimilarity_one_iff_equal `{Runtime}
    (str1 str2 : option jsstring) :
  (stringSimilarity str1 str2 == 1)%Q
  <-> trim (toLowerCase (orEmpty str1)) = trim (toLowerCase (orEmpty str2)).
Proof.
  split; [|intros He; by rewrite stringSimilarity_equal].
  intros Hone.
  destruct (decide (trim (toLowerCase (orEmpty str1))
                    = trim (toLowerCase (orEmpty str2)))) as [|Hne]; [done|].
  exfalso. revert Hone. unfold stringSimilarity.
  set (s1 := trim (toLowerCase (orEmpty str1))) in *.
  set (s2 := trim (toLowerCase (orEmpty str2))) in *.
  rewrite decide_False by done.
  destruct (decide (length s1 = 0 ∨ length s2 = 0)) as [|Hfull]; [done|].
  cbv zeta.
  set (longer := if decide (length s2 < length s1) then s1 else s2).
  set (shorter := if decide (length s2 < length s1) then s2 else s1).
  assert (0 < length shorter ∧ 0 < length longer) as [Hs Hl].
  { unfold shorter, longer. destruct (decide _); lia. }
  assert (shorter ≠ longer) as Hdiff.
  { unfold shorter, longer. destruct (decide _); congruence. }
  intros Hone. apply Q_of_nat_ratio_one in Hone; [|done].
  assert (longer ≠ []) as Hlne.
  { intros He. rewrite He in Hl. simpl in Hl. lia. }
  rewrite editCosts_characterised in Hone by done.
  apply Hdiff, levenshtein_zero.
  destruct (lastOccurs _ _ _); lia.
Qed.

(** ** More on the candidate matcher *)

Lemma Qltb_09_07 (q : Q) : Qltb (9 # 10) q = true -> Qltb (7 # 10) q = true.
Proof.
  unfold Qltb. rewrite !negb_true_iff. intros H9.
  destruct (Qle_bool q (7 # 10)) eqn:H7; [|done].
  apply Qle_bool_iff in H7.
  assert (Qle_bool q (9 # 10) = true) as Hle; [|congruence].
  apply Qle_bool_iff. eapply Qle_trans; [exact H7|]. by vm_compute.
Qed.

(** X4. The reasons of a returned result agree with its numbers: there
    are two or three of them, the confidence is 40 for "Same amount" plus
    35 for "Same date" plus 25 for a merchant reason, "Same merchant" is
    there exactly when the similarity is above 0.9 and "Similar merchant"
    exactly when it is above 0.7 and at most 0.9. *)
Theorem returned_reasons_agree_with_scores `{Runtime} (db : Db)
    (newReceipt : OcrData) (userId : option jsstring) (rows : list Row) :
  let newAmount := normalizeAmount (amount newReceipt) in
  db (queryStr userId) (queryParams newAmount userId) = Ok rows ->
  ∃ out,
    findPotentialDuplicates db newReceipt userId = Ok out
    ∧ ∀ m, m ∈ out ->
        2 ≤ length (reasons m) ≤ 3
        ∧ confidence m =
            (if hasReason "Same amount" m then 40 else 0)
            + (if hasReason "Same date" m then 35 else 0)
            + (if hasReason "Same merchant" m || hasReason "Similar merchant" m
               then 25 else 0)
        ∧ hasReason "Same merchant" m = Qltb (9 # 10) (merchantSimilarity m)
        ∧ hasReason "Similar merchant" m
          = Qltb (7 # 10) (merchantSimilarity m)
            && negb (Qltb (9 # 10) (merchantSimilarity m)).
Proof.
  intros newAmount Hdb.
  exists (Array_sort byConfidenceDesc
            (scanRows (normalizeAmount (amount newReceipt))
                      (normalizeDate (date newReceipt))
                      (toLowerCase (orEmpty (merchant newReceipt))) rows)).
  split; [by apply findPotentialDuplicates_rows|].
  intros m. rewrite Array_sort_perm, elem_of_scanRows.
  intros (r & _ & Hm). apply scoreRow_Some in Hm as (_ & Hge & ->).
  unfold hasReason.
  rewrite confidence_pushed, merchantSimilarity_pushed, reasons_pushed.
  revert Hge. unfold rowScore.
  set (sim := stringSimilarity _ _). clearbody sim.
  destruct (amountMatch _ _), (dateMatch _ _), (Qltb (7 # 10) sim) eqn:H7,
    (Qltb (9 # 10) sim) eqn:H9;
    try (apply Qltb_09_07 in H9; congruence);
    cbn; intros Hge; try lia; rewrite ?H7, ?H9;
    vm_compute; repeat split; lia || reflexivity.
Qed.

Lemma sub64_diag (x : float64) : isFinite x = true -> sub64 x x = b64 0.
Proof.
  destruct x as [s|s| |s m e]; try done; intros _.
  - by destruct s.
  - unfold sub64, SFsub. rewrite Z.min_id. unfold shl_align.
    by rewrite Z.sub_diag.
Qed.

Lemma amountMatch_same `{Runtime} (x : float64) (existingOcr : OcrData) :
  isFinite x = true ->
  normalizeAmount (amount existingOcr) = x ->
  amountMatch x existingOcr = true.
Proof.
  intros Hfin He. unfold amountMatch. rewrite He, sub64_diag by done.
  by vm_compute.
Qed.

Lemma amountMatch_not_finite `{Runtime} (newAmount : float64)
    (existingOcr : OcrData) :
  isFinite newAmount = false
  ∨ isFinite (normalizeAmount (amount existingOcr)) = false ->
  amountMatch newAmount existingOcr = false.
Proof.
  unfold amountMatch.
  destruct (normalizeAmount _) as [t|t| |t n f],
    newAmount as [s|s| |s m e]; intros [Hfin|Hfin]; try done;
    try (by destruct s, t).
Qed.

Lemma dateMatch_None (newDate existingDate : option jsstring) :
  newDate = None ∨ existingDate = None ->
  dateMatch newDate existingDate = false.
Proof.
  unfold dateMatch. intros [-> | ->]; [done|].
  by destruct (truthy_str newDate).
Qed.

(** X5. A stored receipt with the same extracted data as the new one,
    not itself marked as a duplicate, is returned with confidence 100,
    similarity 1 and all three reasons, provided the amount normalises
    to a finite number and the date to a day. *)
Theorem identical_receipt_scores_100 `{Runtime} (newReceipt : OcrData)
    (existing : Row) (day : jsstring) :
  let newAmount := normalizeAmount (amount newReceipt) in
  let newDate := normalizeDate (date newReceipt) in
  let newMerchant := toLowerCase (orEmpty (merchant newReceipt)) in
  ocr_data existing = Some newReceipt ->
  truthy_str (duplicate_of existing) = false ->
  isFinite newAmount = true ->
  newDate = Some day ->
  day ≠ [] ->
  ∃ m,
    scoreRow newAmount newDate newMerchant existing = Some m
    ∧ mr_id m = row_id existing
    ∧ confidence m = 100
    ∧ (merchantSimilarity m == 1)%Q
    ∧ reasons m = [u16 "Same amount"; u16 "Same date"; u16 "Same merchant"].
Proof.
  intros newAmount newDate newMerchant Hocr Hunset Hamount Hdate Hday.
  assert (rowScore newAmount newDate newMerchant newReceipt
          = (100, [u16 "Same amount"; u16 "Same date"; u16 "Same merchant"],
             1%Q)) as Hscore.
  { unfold rowScore. fold newDate newMerchant.
    rewrite (amountMatch_same newAmount newReceipt) by done.
    assert (dateMatch newDate newDate = true) as ->.
    { unfold dateMatch. rewrite Hdate. cbn.
      rewrite !bool_decide_eq_true_2; done. }
    by rewrite stringSimilarity_equal. }
  eexists. split.
  - apply scoreRow_Some. rewrite Hocr. cbn [default from_option id].
    rewrite Hscore.
    split; [done|]. split; [cbn; lia|done].
  - rewrite mr_id_pushed, confidence_pushed, merchantSimilarity_pushed,
      reasons_pushed. done.
Qed.

(** X6. [normalizeDate] gives [null] exactly for a missing or empty date
    and for one the runtime cannot turn into an ISO string; two dates of
    which one normalises to [null] never match, so a result for such a
    comparison has confidence 65 (amount and merchant) and no "Same
    date" reason. *)
Theorem undated_comparison_scores_65 `{Runtime} (newAmount : float64)
    (newDate : option jsstring) (newMerchant : jsstring) (existing : Row)
    (m : MatchResult) :
  let existingOcr := default emptyOcr (ocr_data existing) in
  newDate = None ∨ normalizeDate (date existingOcr) = None ->
  scoreRow newAmount newDate newMerchant existing = Some m ->
  dateMatch newDate (normalizeDate (date existingOcr)) = false
  ∧ confidence m = 65
  ∧ hasReason "Same date" m = false
  ∧ (∀ dateStr,
       normalizeDate dateStr = None
       <-> truthy_str dateStr = false
           ∨ ∃ e, Date_toISOString (orEmpty dateStr) = Throw e).
Proof.
  intros existingOcr Hnone Hm.
  pose proof (dateMatch_None _ _ Hnone) as Hdm.
  apply scoreRow_Some in Hm as (_ & Hge & ->). fold existingOcr in Hge |- *.
  split; [done|]. unfold hasReason.
  rewrite confidence_pushed, reasons_pushed. revert Hge.
  unfold rowScore. rewrite Hdm.
  set (sim := stringSimilarity _ _). clearbody sim.
  split; [|split].
  - revert Hge. destruct (amountMatch _ _), (Qltb (7 # 10) sim); cbn; lia.
  - revert Hge.
    destruct (amountMatch _ _), (Qltb (7 # 10) sim), (Qltb (9 # 10) sim);
      cbn; try lia; intros _; by vm_compute.
  - intros dateStr. unfold normalizeDate.
    destruct (truthy_str dateStr); cbn.
    + destruct (Date_toISOString _) as [iso|e]; split; try done.
      * intros [|[e He]]; done.
      * intros _. right. by exists e.
    + split; [by left|done].
Qed.

(** X7. An amount that normalises to [NaN] or to an infinity, as a text
    amount does that [parseFloat] cannot read, matches no amount at all,
    not even the same text: a result for such a comparison has confidence
    60 (date and merchant) and no "Same amount" reason. *)
Theorem unreadable_amount_never_matches `{Runtime} (newAmount : float64)
    (newDate : option jsstring) (newMerchant : jsstring) (existing : Row)
    (m : MatchResult) :
  let existingOcr := default emptyOcr (ocr_data existing) in
  isFinite newAmount = false
  ∨ isFinite (normalizeAmount (amount existingOcr)) = false ->
  scoreRow newAmount newDate newMerchant existing = Some m ->
  amountMatch newAmount existingOcr = false
  ∧ confidence m = 60
  ∧ hasReason "Same amount" m = false
  ∧ (∀ text, text ≠ [] -> isFinite (parseFloat text) = false ->
       isFinite (normalizeAmount (AmountStr text)) = false).
Proof.
  intros existingOcr Hnan Hm.
  pose proof (amountMatch_not_finite _ _ Hnan) as Ham.
  apply scoreRow_Some in Hm as (_ & Hge & ->). fold existingOcr in Hge |- *.
  split; [done|]. unfold hasReason.
  rewrite confidence_pushed, reasons_pushed. revert Hge.
  unfold rowScore. rewrite Ham.
  set (sim := stringSimilarity _ _). clearbody sim.
  split; [|split].
  - revert Hge. destruct (dateMatch _ _), (Qltb (7 # 10) sim); cbn; lia.
  - revert Hge.
    destruct (dateMatch _ _), (Qltb (7 # 10) sim), (Qltb (9 # 10) sim);
      cbn; try lia; intros _; by vm_compute.
  - intros text Hne Hparse. unfold normalizeAmount, orZero.
    rewrite decide_False by done. cbn [parseFloat_of].
    by destruct (parseFloat text) as [s|s| |s p e]; try done; destruct s.
Qed.

Lemma NoDup_fmap_omap {A B C} (f : A -> C) (g : B -> C) (h : A -> option B)
    (l : list A) :
  (∀ x y, h x = Some y -> g y = f x) ->
  NoDup (f <$> l) -> NoDup (g <$> omap h l).
Proof.
  intros Hgh. induction l as [|x l IH]; cbn; [constructor|].
  rewrite NoDup_cons. intros [Hx Hnd].
  destruct (h x) as [y|] eqn:Hy; [|by apply IH].
  cbn. apply NoDup_cons. split; [|by apply IH].
  rewrite (Hgh x y Hy). intros Hin. apply Hx.
  apply list_elem_of_fmap in Hin as (y' & -> & Hy').
  apply list_elem_of_omap in Hy' as (x' & Hx' & Hhx').
  rewrite (Hgh x' y' Hhx'). by apply list_elem_of_fmap_2.
Qed.

Lemma length_omap {A B} (f : A -> option B) (l : list A) :
  length (omap f l) ≤ length l.
Proof.
  induction l as [|x l IH]; [done|]. cbn. destruct (f x); cbn; lia.
Qed.

(** X8. The returned list has at most one result per row: it is never
    longer than the rows, it is empty when there are none, and when the
    ids of the rows are distinct, so are the ids of the results. *)
Theorem one_result_per_row `{Runtime} (db : Db) (newReceipt : OcrData)
    (userId : option jsstring) (rows : list Row) :
  let newAmount := normalizeAmount (amount newReceipt) in
  db (queryStr userId) (queryParams newAmount userId) = Ok rows ->
  ∃ out,
    findPotentialDuplicates db newReceipt userId = Ok out
    ∧ length out ≤ length rows
    ∧ (rows = [] -> out = [])
    ∧ (NoDup (row_id <$> rows) -> NoDup (mr_id <$> out)).
Proof.
  intros newAmount Hdb.
  exists (Array_sort byConfidenceDesc
            (scanRows (normalizeAmount (amount newReceipt))
                      (normalizeDate (date newReceipt))
                      (toLowerCase (orEmpty (merchant newReceipt))) rows)).
  split; [by apply findPotentialDuplicates_rows|].
  split; [|split].
  - rewrite Array_sort_perm, scanRows_omap. apply length_omap.
  - by intros ->.
  - intros Hnd. rewrite Array_sort_perm, scanRows_omap.
    apply (NoDup_fmap_omap row_id); [|done].
    intros r m Hm. apply scoreRow_Some in Hm as (_ & _ & ->).
    apply mr_id_pushed.
Qed.

(** ** The upload route *)

Lemma checkDuplicates_rows `{Runtime} (w : World) (db : Db) (path : jsstring)
    (validatedData : OcrData) (userId : option jsstring)
    (uniapiConfig : UniapiConfig) (rows : list Row) :
  db (queryStr userId)
     (queryParams (normalizeAmount (amount validatedData)) userId) = Ok rows ->
  ∃ out,
    findPotentialDuplicates db validatedData userId = Ok out
    ∧ out ≡ₚ scanRows (normalizeAmount (amount validatedData))
                       (normalizeDate (date validatedData))
                       (toLowerCase (orEmpty (merchant validatedData))) rows
    ∧ Sorted descending out
    ∧ checkDuplicates w db path validatedData userId uniapiConfig =
        let decision := duplicateGate w path out uniapiConfig in
        Ok {| col_status :=
                match duplicateStatus decision with
                | StatusDetected => u16 "flagged"
                | StatusNone => u16 "processed"
                end;
              col_duplicate_status := statusText (duplicateStatus decision);
              col_duplicate_of := duplicateOf decision;
              col_duplicate_confidence := duplicateConfidence decision;
              col_potential_duplicates := take 3 out |}.
Proof.
  intros Hdb. eexists. split; [by apply findPotentialDuplicates_rows|].
  split; [apply Array_sort_perm|]. split; [apply Array_sort_Sorted|].
  unfold checkDuplicates.
  by rewrite (findPotentialDuplicates_rows db validatedData userId rows Hdb).
Qed.

Lemma returned_confidence `{Runtime} newAmount newDate newMerchant rows m :
  m ∈ scanRows newAmount newDate newMerchant rows ->
  confidence m ∈ [60; 65; 75; 100] ∧ mr_id m ∈ row_id <$> rows.
Proof.
  rewrite elem_of_scanRows. intros (r & Hr & Hm).
  apply scoreRow_Some in Hm as (_ & Hge & ->).
  rewrite confidence_pushed, mr_id_pushed.
  split; [|by apply list_elem_of_fmap_2].
  rewrite rowScore_confidence in Hge |- *. unfold signals, weight in *.
  destruct (amountMatch _ _), (dateMatch _ _), (Qltb _ _);
    simpl in *; try lia; rewrite !elem_of_cons; lia.
Qed.

Lemma duplicateGate_cases `{Runtime} w path potentialDuplicates uniapiConfig :
  duplicateGate w path potentialDuplicates uniapiConfig = noDuplicate
  ∨ ∃ top rest v conf matched,
      potentialDuplicates = top :: rest
      ∧ 80 ≤ confidence top
      ∧ aiDuplicateAnalysis w path potentialDuplicates uniapiConfig = Ok v
      ∧ getProp v confidenceKey = Ok conf
      ∧ above07 conf = true
      ∧ getProp v (u16 "matchedReceiptId") = Ok matched
      ∧ duplicateGate w path potentialDuplicates uniapiConfig =
          {| duplicateStatus := StatusDetected;
             duplicateOf := if truthy matched then matched
                            else JStr (mr_id top);
             duplicateConfidence := conf |}.
Proof.
  unfold duplicateGate. destruct potentialDuplicates as [|top rest]; [by left|].
  destruct (decide (80 ≤ confidence top)) as [Hgate|]; [|by left].
  unfold confirmDuplicate.
  destruct (aiDuplicateAnalysis _ _ _ _) as [v|e] eqn:Hv; [|by left].
  cbn [bind]. destruct (getProp v isDuplicateKey) as [d|e]; [|by left].
  cbn [bind]. destruct (truthy d); [|by left].
  destruct (getProp v confidenceKey) as [conf|e] eqn:Hconf; [|by left].
  cbn [bind]. destruct (above07 conf) eqn:Habove; [|by left].
  destruct (getProp v (u16 "matchedReceiptId")) as [matched|e] eqn:Hm;
    [|by left].
  right. by exists top, rest, v, conf, matched.
Qed.

(** X9. A receipt is stored as a detected duplicate only if the best
    candidate matched on all three signals: with a best candidate of
    confidence 60, 65 or 75 the deep analysis is not run, whatever the
    provider would answer, and the receipt is stored as "processed" with
    duplicate status "none". *)
Theorem detected_only_on_full_match `{Runtime} (w : World) (db : Db)
    (path : jsstring) (validatedData : OcrData) (userId : option jsstring)
    (uniapiConfig : UniapiConfig) (rows : list Row) :
  db (queryStr userId)
     (queryParams (normalizeAmount (amount validatedData)) userId) = Ok rows ->
  ∃ columns,
    checkDuplicates w db path validatedData userId uniapiConfig = Ok columns
    ∧ (col_duplicate_status columns = u16 "detected" ->
       ∃ top, head (col_potential_duplicates columns) = Some top
              ∧ confidence top = 100
              ∧ length (reasons top) = 3)
    ∧ ((∀ top, head (col_potential_duplicates columns) = Some top ->
          confidence top ≠ 100) ->
       col_status columns = u16 "processed"
       ∧ col_duplicate_status columns = u16 "none"
       ∧ col_duplicate_of columns = JNull
       ∧ col_duplicate_confidence columns = JNum 0).
Proof.
  intros Hdb.
  destruct (checkDuplicates_rows w db path validatedData userId uniapiConfig
              rows Hdb) as (out & Hout & Hperm & _ & ->).
  cbv zeta. eexists. split; [done|]. cbn.
  assert (∀ top, head out = Some top ->
            80 ≤ confidence top -> confidence top = 100
            ∧ length (reasons top) = 3) as Htop.
  { intros top Hhead Hge.
    assert (top ∈ out) as Hin.
    { destruct out as [|x l]; [done|]. cbn in Hhead. injection Hhead as ->.
      apply elem_of_cons. by left. }
    rewrite Hperm, elem_of_scanRows in Hin. destruct Hin as (r & _ & Hm).
    apply scoreRow_Some in Hm as (_ & _ & ->).
    rewrite confidence_pushed in Hge |- *. rewrite reasons_pushed.
    revert Hge. unfold rowScore.
    destruct (amountMatch _ _), (dateMatch _ _), (Qltb (7 # 10) _);
      cbn; intros; (lia || done). }
  assert (head (take 3 out) = head out) as -> by (by destruct out).
  destruct (duplicateGate_cases w path out uniapiConfig)
    as [-> | (top & rest & v & conf & matched & -> & Hge & _ & _ & _ & _ & ->)].
  - split; [done|]. done.
  - cbn. split.
    + intros _. exists top. split; [done|]. by apply Htop.
    + intros Hnot. destruct (Htop top eq_refl Hge) as [H100 _].
      by destruct (Hnot top eq_refl).
Qed.

Lemma descending_trans : Transitive descending.
Proof. intros a b c. unfold descending. lia. Qed.

(** X10. The duplicate columns of a stored receipt move together: either
    the receipt is "flagged" with duplicate status "detected", a
    reference to another receipt that is neither [null] nor empty, and a
    confidence above 0.7, or it is "processed" with duplicate status
    "none", reference [null] and confidence 0.  (The rows have non-empty
    ids.) *)
Theorem duplicate_columns_move_together `{Runtime} (w : World) (db : Db)
    (path : jsstring) (validatedData : OcrData) (userId : option jsstring)
    (uniapiConfig : UniapiConfig) (rows : list Row) :
  db (queryStr userId)
     (queryParams (normalizeAmount (amount validatedData)) userId) = Ok rows ->
  (∀ r, r ∈ rows -> row_id r ≠ []) ->
  ∃ columns,
    checkDuplicates w db path validatedData userId uniapiConfig = Ok columns
    ∧ ((col_status columns = u16 "flagged"
        ∧ col_duplicate_status columns = u16 "detected"
        ∧ truthy (col_duplicate_of columns) = true
        ∧ above07 (col_duplicate_confidence columns) = true)
       ∨ (col_status columns = u16 "processed"
          ∧ col_duplicate_status columns = u16 "none"
          ∧ col_duplicate_of columns = JNull
          ∧ col_duplicate_confidence columns = JNum 0)).
Proof.
  intros Hdb Hids.
  destruct (checkDuplicates_rows w db path validatedData userId uniapiConfig
              rows Hdb) as (out & Hout & Hperm & _ & ->).
  cbv zeta. eexists. split; [done|]. cbn.
  destruct (duplicateGate_cases w path out uniapiConfig)
    as [-> | (top & rest & v & conf & matched & Hout' & _ & _ & _ & Habove
              & _ & ->)].
  - by right.
  - left. cbn. split; [done|]. split; [done|]. split; [|done].
    destruct (truthy matched) eqn:Hmatched; [done|]. cbn.
    apply bool_decide_eq_true_2.
    assert (top ∈ out) as Hin by (rewrite Hout'; left).
    rewrite Hperm in Hin. apply returned_confidence in Hin as [_ Hid].
    apply list_elem_of_fmap in Hid as (r & -> & Hr). by apply Hids.
Qed.

(** X11. What is stored as potential duplicates is the front of the
    sorted list, three results at most, and none of the candidates left
    out has a higher confidence than a stored one. *)
Theorem stored_candidates_are_the_best `{Runtime} (w : World) (db : Db)
    (path : jsstring) (validatedData : OcrData) (userId : option jsstring)
    (uniapiConfig : UniapiConfig) (rows : list Row) :
  db (queryStr userId)
     (queryParams (normalizeAmount (amount validatedData)) userId) = Ok rows ->
  ∃ out columns,
    findPotentialDuplicates db validatedData userId = Ok out
    ∧ checkDuplicates w db path validatedData userId uniapiConfig = Ok columns
    ∧ length (col_potential_duplicates columns) = Nat.min 3 (length out)
    ∧ out = col_potential_duplicates columns ++ drop 3 out
    ∧ ∀ kept left, kept ∈ col_potential_duplicates columns ->
        left ∈ drop 3 out -> confidence left ≤ confidence kept.
Proof.
  intros Hdb.
  destruct (checkDuplicates_rows w db path validatedData userId uniapiConfig
              rows Hdb) as (out & Hout & _ & Hsorted & ->).
  cbv zeta. exists out. eexists. split; [done|]. split; [done|].
  cbn [col_potential_duplicates].
  split; [apply length_take|]. split; [by rewrite take_drop|].
  intros kept left Hkept Hleft.
  apply (@Sorted_StronglySorted _ descending descending_trans) in Hsorted.
  rewrite <- (take_drop 3 out) in Hsorted.
  by apply (StronglySorted_app_1_elem_of descending _ _ kept left) in Hsorted.
Qed.

(** ** Expense categories *)

Lemma includes_nil (sub : jsstring) : includes [] sub = bool_decide (sub = []).
Proof. by destruct sub. Qed.

Lemma startsWith_elem (s sub : jsstring) c :
  startsWith s sub = true -> c ∈ sub -> c ∈ s.
Proof.
  revert s. induction sub as [|p sub IH]; intros s Hs Hc; [by inversion Hc|].
  destruct s as [|d s]; [done|]. cbn in Hs.
  apply andb_true_iff in Hs as [Hp Hs]. apply bool_decide_eq_true in Hp as ->.
  apply elem_of_cons in Hc as [->|Hc]; [left|right; by apply IH].
Qed.

(** A text that includes [sub] has every code unit of [sub]. *)
Lemma includes_elem (s sub : jsstring) c :
  includes s sub = true -> c ∈ sub -> c ∈ s.
Proof.
  induction s as [|d s IH]; intros Hs Hc.
  - rewrite includes_nil in Hs. apply bool_decide_eq_true in Hs as ->.
    by inversion Hc.
  - cbn [includes] in Hs. apply orb_true_iff in Hs as [Hs|Hs].
    + by eapply startsWith_elem.
    + right. by apply IH.
Qed.

Lemma getAllCategories_ids :
  NoDup (cat_id <$> getAllCategories)
  ∧ u16 "misc" ∈ cat_id <$> getAllCategories.
Proof.
  split.
  - apply (bool_decide_unpack _). by vm_compute.
  - apply (bool_decide_unpack _). by vm_compute.
Qed.

Lemma getCategoryById_preset (id : jsval) :
  getCategoryById id ∈ getAllCategories.
Proof.
  unfold getCategoryById. destruct (List.find _ _) as [cat|] eqn:Hfind; cbn.
  - apply find_some in Hfind as [Hin _]. by apply list_elem_of_In.
  - unfold getAllCategories, EXPENSE_CATEGORIES. cbn [fmap list_fmap snd].
    rewrite !elem_of_cons. tauto.
Qed.

Lemma getCategoryById_known (s : jsstring) :
  s ∈ cat_id <$> getAllCategories -> cat_id (getCategoryById (JStr s)) = s.
Proof.
  intros Hs. unfold getCategoryById.
  destruct (List.find _ _) as [cat|] eqn:Hfind; cbn.
  - apply find_some in Hfind as [_ He]. by apply bool_decide_eq_true in He.
  - apply list_elem_of_fmap in Hs as (cat & -> & Hcat).
    apply list_elem_of_In in Hcat.
    pose proof (find_none _ _ Hfind cat Hcat) as Hno. cbn in Hno.
    by rewrite bool_decide_eq_true_2 in Hno.
Qed.

Lemma getCategoryById_unknown (id : jsval) :
  (∀ s, id = JStr s -> s ∉ cat_id <$> getAllCategories) ->
  getCategoryById id = MISC.
Proof.
  intros Hid. unfold getCategoryById.
  destruct (List.find _ _) as [cat|] eqn:Hfind; [|done].
  apply find_some in Hfind as [Hin He].
  destruct id; try done. apply bool_decide_eq_true in He as <-.
  destruct (Hid _ eq_refl). apply list_elem_of_fmap_2.
  by apply list_elem_of_In.
Qed.

Lemma getCategoryById_is_total_lookup_aux :
  (∀ id, getCategoryById id ∈ getAllCategories)
  ∧ (∀ cat, cat ∈ getAllCategories ->
       getCategoryById (JStr (cat_id cat)) = cat).
Proof.
  split; [apply getCategoryById_preset|].
  intros cat Hcat.
  destruct getAllCategories_ids as [Hnd _].
  apply (NoDup_fmap_inj cat_id getAllCategories); [done| |done|].
  - apply getCategoryById_preset.
  - apply getCategoryById_known. by apply list_elem_of_fmap_2.
Qed.

(** X12. [getCategoryById] always answers with a preset category: the
    one with the given id when the id is that of any of the fourteen
    presets, and "Miscellaneous" for every other value, a non-string
    included. *)
Theorem getCategoryById_is_total_lookup :
  (∀ id, getCategoryById id ∈ getAllCategories)
  ∧ (∀ cat, cat ∈ getAllCategories ->
       getCategoryById (JStr (cat_id cat)) = cat)
  ∧ (∀ id, (∀ s, id = JStr s -> s ∉ cat_id <$> getAllCategories) ->
       getCategoryById id = MISC)
  ∧ length getAllCategories = 14.
Proof.
  destruct getCategoryById_is_total_lookup_aux as [Hpreset Hround].
  split; [done|]. split; [done|].
  split; [apply getCategoryById_unknown|done].
Qed.

Lemma find_entries_preset (P : jsstring * Category -> bool) key cat :
  List.find P EXPENSE_CATEGORIES = Some (key, cat) ->
  cat ∈ getAllCategories.
Proof.
  intros Hfind. apply find_some in Hfind as [Hin _].
  apply list_elem_of_In in Hin.
  by apply (list_elem_of_fmap_2 snd) in Hin.
Qed.

Lemma autoCategorize_preset `{Runtime} (merchant items : jsval)
    (id : jsstring) :
  autoCategorize merchant items = Ok id -> id ∈ cat_id <$> getAllCategories.
Proof.
  unfold autoCategorize.
  destruct (merchantLowerOf merchant) as [ml|]; [|done]. cbn [bind].
  destruct (itemsOf items) as [l|]; [|done]. cbn [bind].
  destruct (mapOutcome itemText l) as [texts|]; [|done]. cbn [bind].
  destruct (List.find _ _) as [[key cat]|] eqn:H1.
  - intros [= <-]. apply list_elem_of_fmap_2. by eapply find_entries_preset.
  - clear H1. destruct (List.find _ _) as [[key cat]|] eqn:H2.
    + intros [= <-]. apply list_elem_of_fmap_2.
      by eapply find_entries_preset.
    + intros [= <-]. apply getAllCategories_ids.
Qed.

(** X13. [autoCategorize], when it returns, returns the id of a preset
    category, the one [getCategoryById] finds again under it; it returns
    "misc" when no merchant entry and no keyword occurs in the merchant
    or in the item text. *)
Theorem autoCategorize_returns_preset `{Runtime} (merchant items : jsval)
    (id : jsstring) :
  autoCategorize merchant items = Ok id ->
  id ∈ cat_id <$> getAllCategories
  ∧ cat_id (getCategoryById (JStr id)) = id
  ∧ (∀ merchantLower list texts,
       merchantLowerOf merchant = Ok merchantLower ->
       itemsOf items = Ok list ->
       mapOutcome itemText list = Ok texts ->
       (∀ cat, cat ∈ getAllCategories ->
          merchantHit merchantLower cat = false
          ∧ keywordHit merchantLower (join (u16 " ") (Some <$> texts)) cat
            = false) ->
       id = u16 "misc").
Proof.
  intros Hid.
  pose proof (autoCategorize_preset _ _ _ Hid) as Hin.
  split; [done|]. split; [by apply getCategoryById_known|].
  intros ml l texts Hml Hl Htexts Hno. revert Hid. unfold autoCategorize.
  rewrite Hml. cbn [bind]. rewrite Hl. cbn [bind]. rewrite Htexts. cbn [bind].
  destruct (List.find _ _) as [[key cat]|] eqn:H1.
  { pose proof (find_entries_preset _ _ _ H1) as Hcat.
    apply find_some in H1 as [_ Hhit]. destruct (Hno cat Hcat). congruence. }
  clear H1.
  destruct (List.find _ _) as [[key cat]|] eqn:H2; [|by intros [= <-]].
  pose proof (find_entries_preset _ _ _ H2) as Hcat.
  apply find_some in H2 as [_ Hhit]. destruct (Hno cat Hcat). congruence.
Qed.

Lemma find_split {A} (P : A -> bool) (l : list A) x :
  List.find P l = Some x ->
  ∃ pre post, l = pre ++ x :: post ∧ P x = true
              ∧ Forall (fun y => P y = false) pre.
Proof.
  induction l as [|y l IH]; [done|]. cbn.
  destruct (P y) eqn:Hy.
  - intros [= <-]. by exists [], l.
  - intros Hfind. destruct (IH Hfind) as (pre & post & -> & Hx & Hpre).
    exists (y :: pre), post. split; [done|]. split; [done|].
    by constructor.
Qed.

(** X14. A merchant entry beats everything else: when the lower-cased
    merchant includes an entry of the merchant list of some category, the
    result is the id of the first category, in the order of the table,
    with such an entry, and the items have no say in it. *)
Theorem merchant_entry_decides `{Runtime} (merchant items : jsval)
    (merchantLower : jsstring) (entries : list jsval)
    (texts : list jsstring) (cat : Category) :
  merchantLowerOf merchant = Ok merchantLower ->
  itemsOf items = Ok entries ->
  mapOutcome itemText entries = Ok texts ->
  cat ∈ getAllCategories ->
  merchantHit merchantLower cat = true ->
  ∃ first before after,
    autoCategorize merchant items = Ok (cat_id first)
    ∧ autoCategorize merchant JUndefined = Ok (cat_id first)
    ∧ getAllCategories = before ++ first :: after
    ∧ merchantHit merchantLower first = true
    ∧ Forall (fun c => merchantHit merchantLower c = false) before.
Proof.
  intros Hml Hl Htexts Hcat Hhit. unfold autoCategorize.
  rewrite Hml. cbn [bind itemsOf mapOutcome]. rewrite Hl. cbn [bind].
  rewrite Htexts. cbn [bind].
  destruct (List.find _ _) as [[key first]|] eqn:Hfind.
  - apply find_split in Hfind as (pre & post & Htable & Hfirst & Hpre).
    exists first, (snd <$> pre), (snd <$> post).
    split; [done|]. split; [done|]. split.
    { unfold getAllCategories. rewrite Htable. by rewrite fmap_app. }
    split; [done|].
    apply Forall_fmap. eapply Forall_impl; [exact Hpre|].
    by intros [k c].
  - apply list_elem_of_fmap in Hcat as ([key c] & -> & Hin).
    apply list_elem_of_In in Hin.
    pose proof (find_none _ _ Hfind _ Hin) as Hno. cbn in Hno, Hhit.
    congruence.
Qed.

Lemma join_blanks (n : nat) :
  ∀ c, c ∈ join (u16 " ") (Some <$> replicate n ([] : jsstring)) -> c = 32%N.
Proof.
  induction n as [|n IH]; intros c; cbn; [by inversion 1|].
  destruct n as [|n]; [by inversion 1|].
  cbn in IH |- *. intros Hc. apply elem_of_cons in Hc as [->|Hc]; [done|].
  by apply IH.
Qed.

Lemma keywords_have_letters :
  ∀ cat k, cat ∈ getAllCategories -> k ∈ keywords cat ->
    ∃ c, c ∈ k ∧ c ≠ 32%N.
Proof.
  assert (forallb (fun cat =>
            forallb (fun k => existsb (fun c => negb (N.eqb c 32)) k)
                    (keywords cat)) getAllCategories = true) as Hall
    by (by vm_compute).
  intros cat k Hcat Hk. rewrite forallb_forall in Hall.
  apply list_elem_of_In in Hcat. specialize (Hall cat Hcat).
  rewrite forallb_forall in Hall. apply list_elem_of_In in Hk.
  specialize (Hall k Hk). apply existsb_exists in Hall as (c & Hc & Hne).
  exists c. split; [by apply list_elem_of_In|].
  apply negb_true_iff, N.eqb_neq in Hne. done.
Qed.

Lemma mapOutcome_blank `{Runtime} (entries : list jsval) :
  toLowerCase [] = [] ->
  Forall (fun i => ∃ d, getProp i (u16 "item_description") = Ok d
                        ∧ truthy d = false) entries ->
  mapOutcome itemText entries = Ok (replicate (length entries) []).
Proof.
  intros Hlower. induction 1 as [|i l (d & Hd & Hfalsy) _ IH]; [done|].
  cbn [mapOutcome]. unfold itemText at 1. rewrite Hd. cbn [bind].
  rewrite Hfalsy, Hlower. cbn [bind]. by rewrite IH.
Qed.

Lemma existsb_ext_in {A} (f g : A -> bool) (l : list A) :
  (∀ x, x ∈ l -> f x = g x) -> existsb f l = existsb g l.
Proof.
  induction l as [|x l IH]; intros Hfg; [done|]. cbn.
  rewrite (Hfg x) by left. rewrite IH; [done|].
  intros y Hy. apply Hfg. by right.
Qed.

Lemma find_ext_in {A} (P Q : A -> bool) (l : list A) :
  (∀ x, x ∈ l -> P x = Q x) -> List.find P l = List.find Q l.
Proof.
  induction l as [|x l IH]; intros HPQ; [done|]. cbn.
  rewrite (HPQ x) by left. rewrite IH; [done|].
  intros y Hy. apply HPQ. by right.
Qed.

Lemma keywordHit_blank (merchantLower blanks : jsstring) (cat : Category) :
  cat ∈ getAllCategories ->
  (∀ c, c ∈ blanks -> c = 32%N) ->
  keywordHit merchantLower blanks cat = keywordHit merchantLower [] cat.
Proof.
  intros Hcat Hblank. unfold keywordHit. apply existsb_ext_in.
  intros k Hk. f_equal.
  destruct (keywords_have_letters cat k Hcat Hk) as (c & Hc & Hne).
  rewrite includes_nil.
  rewrite (bool_decide_eq_false_2 (k = [])) by (intros ->; by inversion Hc).
  destruct (includes blanks k) eqn:Hinc; [|done].
  destruct Hne. apply Hblank. by eapply includes_elem.
Qed.

(** Blanks alone bring up no keyword. *)
Lemma find_keyword_blank (merchantLower : jsstring) (n : nat) :
  List.find (fun '(key, cat) =>
               keywordHit merchantLower
                 (join (u16 " ") (Some <$> replicate n [])) cat)
            EXPENSE_CATEGORIES
  = List.find (fun '(key, cat) => keywordHit merchantLower [] cat)
              EXPENSE_CATEGORIES.
Proof.
  apply find_ext_in. intros [key cat] Hin. apply keywordHit_blank.
  - by apply (list_elem_of_fmap_2 snd) in Hin.
  - apply join_blanks.
Qed.

(** X15. Items without an [item_description], as the upload route passes
    them (its items carry [name], [quantity] and [price]), count for
    nothing: the result is the one for the merchant alone.  (The runtime
    lower-cases the empty string to itself.) *)
Theorem items_without_description_are_ignored `{Runtime}
    (merchant : jsval) (entries : list jsval) :
  toLowerCase [] = [] ->
  Forall (fun i => ∃ d, getProp i (u16 "item_description") = Ok d
                        ∧ truthy d = false) entries ->
  autoCategorize merchant (JArr entries) = autoCategorize merchant JUndefined.
Proof.
  intros Hlower Hitems. unfold autoCategorize.
  destruct (merchantLowerOf merchant) as [ml|]; [|done].
  cbn [bind itemsOf mapOutcome].
  rewrite (mapOutcome_blank entries Hlower Hitems).
  cbn [bind fmap list_fmap join].
  destruct (List.find _ _) as [[key cat]|]; [done|].
  by rewrite find_keyword_blank.
Qed.

Lemma preset_ids_nonempty (cat : Category) :
  cat ∈ getAllCategories -> cat_id cat ≠ [].
Proof.
  assert (forallb (fun cat => negb (bool_decide (cat_id cat = [])))
                  getAllCategories = true) as Hall by (by vm_compute).
  intros Hcat. rewrite forallb_forall in Hall.
  apply list_elem_of_In in Hcat. specialize (Hall cat Hcat).
  apply negb_true_iff in Hall. by apply bool_decide_eq_false in Hall.
Qed.

(** X16. The category the upload route stores is always a preset one,
    with its preset name.  A preset category other than "misc" coming
    from the extraction is kept as it is, without a look at merchant or
    items; any other value, "misc" included, is replaced by what
    [autoCategorize] says. *)
Theorem stored_category_is_preset `{Runtime} (category merchant items : jsval) :
  (∀ id name, categorize category merchant items = Ok (id, name) ->
     ∃ cat, cat ∈ getAllCategories
            ∧ id = JStr (cat_id cat) ∧ name = cat_name cat)
  ∧ (∀ cat, cat ∈ getAllCategories -> cat_id cat ≠ u16 "misc" ->
       categorize (JStr (cat_id cat)) merchant items
       = Ok (JStr (cat_id cat), cat_name cat))
  ∧ (cat_id (getCategoryById category) = u16 "misc" ->
     categorize category merchant items =
       (fallback <-
          autoCategorize merchant (if truthy items then items else JArr []) ;;
        Ok (JStr fallback, cat_name (getCategoryById (JStr fallback))))).
Proof.
  destruct getCategoryById_is_total_lookup_aux as (Hpreset & Hround).
  split; [|split].
  - intros id name. unfold categorize.
    destruct (truthy category
              && negb (bool_decide
                         (cat_id (getCategoryById category) = u16 "misc")))
      eqn:Hkeep.
    + cbn [bind]. intros [= <- <-]. exists (getCategoryById category).
      split; [apply Hpreset|]. split; [|done].
      apply andb_true_iff in Hkeep as [_ Hne].
      apply negb_true_iff, bool_decide_eq_false in Hne.
      unfold getCategoryById in Hne |- *.
      destruct (List.find _ _) as [cat|] eqn:Hfind; [|done].
      apply find_some in Hfind as [_ He]. destruct category; try done.
      apply bool_decide_eq_true in He. cbn. by rewrite He.
    + destruct (autoCategorize _ _) as [fallback|] eqn:Hauto; [|done].
      cbn [bind]. intros [= <- <-].
      apply autoCategorize_preset in Hauto.
      assert ((if bool_decide (fallback ≠ u16 "misc") then fallback
               else u16 "misc") = fallback) as ->.
      { destruct (decide (fallback = u16 "misc")) as [->|Hne]; [done|].
        by rewrite bool_decide_eq_true_2. }
      apply list_elem_of_fmap in Hauto as (cat & -> & Hcat).
      exists cat. split; [done|]. split; [done|]. by rewrite Hround.
  - intros cat Hcat Hne. unfold categorize. rewrite Hround by done.
    cbn [truthy].
    rewrite (bool_decide_eq_true_2 (cat_id cat ≠ []))
      by (by apply preset_ids_nonempty).
    rewrite (bool_decide_eq_false_2 (cat_id cat = u16 "misc")) by done.
    cbn [andb negb bind]. by rewrite Hround.
  - intros Hmisc. unfold categorize.
    rewrite (bool_decide_eq_true_2 _ Hmisc), andb_false_r.
    destruct (autoCategorize _ _) as [fallback|]; [|done]. cbn [bind].
    destruct (decide (fallback = u16 "misc")) as [->|Hne]; [done|].
    by rewrite bool_decide_eq_true_2.
Qed.

(** ** The extraction of receipt data *)

Lemma retryLoop_returns (body : nat -> attemptOutcome Extracted)
    (maxRetries attempt remaining : nat) :
  attempt + remaining = S maxRetries -> 0 < remaining ->
  retryLoop body maxRetries attempt remaining ≠ Ok None.
Proof.
  revert attempt.
  induction remaining as [|remaining IH]; intros attempt Hsum Hpos; [lia|].
  cbn [retryLoop]. destruct (body attempt) as [result|error status]; [done|].
  destruct (decide (status = Some 402%N)); [done|].
  destruct (decide (attempt = maxRetries)); [done|].
  apply IH; lia.
Qed.

Lemma retryLoop_Some (body : nat -> attemptOutcome Extracted)
    (maxRetries attempt remaining : nat) (result : Extracted) :
  retryLoop body maxRetries attempt remaining = Ok (Some result) ->
  ∃ k, attempt ≤ k < attempt + remaining ∧ body k = Done result.
Proof.
  revert attempt. induction remaining as [|remaining IH]; intros attempt;
    [done|].
  cbn [retryLoop]. destruct (body attempt) as [r|error status] eqn:Hbody.
  - intros [= ->]. exists attempt. split; [lia|done].
  - destruct (decide (status = Some 402%N)); [done|].
    destruct (decide (attempt = maxRetries)); [done|].
    intros Hloop. destruct (IH _ Hloop) as (k & Hk & Hdone).
    exists k. split; [lia|done].
Qed.

Lemma extractReceiptData_loop `{Runtime} `{NodeLib} (w : OcrWorld)
    (env : UniapiConfig) (imagePath : jsstring) (processedResult : Processed)
    (fileHash : jsstring) :
  processImage w imagePath = Ok processedResult ->
  calculateFileHash w imagePath = Ok fileHash ->
  extractReceiptData w env imagePath =
    retryLoop (attemptBody w env categoryList fileHash processedResult
                           (mimeTypeOf imagePath)) 3 1 3.
Proof. intros Hp Hh. unfold extractReceiptData. by rewrite Hp, Hh. Qed.

(** X17. With the file read and processed, [extractReceiptData] makes at
    most three attempts and never runs out of the loop: the first
    attempt that succeeds gives the result; the first attempt that is
    rejected with status 402 ends the extraction with the quota error,
    without another attempt; and when all three attempts fail otherwise,
    the error of the third is thrown. *)
Theorem extractReceiptData_retries `{Runtime} `{NodeLib} (w : OcrWorld)
    (env : UniapiConfig) (imagePath : jsstring) (processedResult : Processed)
    (fileHash : jsstring) :
  let body := attemptBody w env categoryList fileHash processedResult
                          (mimeTypeOf imagePath) in
  processImage w imagePath = Ok processedResult ->
  calculateFileHash w imagePath = Ok fileHash ->
  extractReceiptData w env imagePath ≠ Ok None
  ∧ (∀ k result,
       k ∈ [1; 2; 3] -> body k = Done result ->
       (∀ j, 1 ≤ j < k -> retried (body j)) ->
       extractReceiptData w env imagePath = Ok (Some result))
  ∧ (∀ k error,
       k ∈ [1; 2; 3] -> body k = Failed error (Some 402%N) ->
       (∀ j, 1 ≤ j < k -> retried (body j)) ->
       extractReceiptData w env imagePath = Throw quotaExceeded)
  ∧ (∀ error status,
       body 3 = Failed error status -> status ≠ Some 402%N ->
       retried (body 1) -> retried (body 2) ->
       extractReceiptData w env imagePath = Throw error).
Proof.
  intros body Hp Hh.
  rewrite (extractReceiptData_loop w env imagePath processedResult fileHash)
    by done.
  fold body. split; [apply retryLoop_returns; lia|].
  assert (∀ k, retried (body k) ->
            ∃ error status, body k = Failed error status
                            ∧ status ≠ Some 402%N) as Hretried.
  { intros k. destruct (body k) as [|error status]; [done|].
    intros Hne. by exists error, status. }
  split; [|split].
  - intros k result Hk Hdone Hbefore. cbn [retryLoop].
    rewrite !elem_of_cons, elem_of_nil in Hk.
    destruct Hk as [-> | [-> | [-> | []]]].
    + by rewrite Hdone.
    + destruct (Hretried 1) as (e1 & s1 & -> & Hs1); [apply Hbefore; lia|].
      destruct (decide (s1 = _)); [done|]. cbn. by rewrite Hdone.
    + destruct (Hretried 1) as (e1 & s1 & -> & Hs1); [apply Hbefore; lia|].
      destruct (Hretried 2) as (e2 & s2 & -> & Hs2); [apply Hbefore; lia|].
      destruct (decide (s1 = _)); [done|]. cbn.
      destruct (decide (s2 = _)); [done|]. cbn. by rewrite Hdone.
  - intros k error Hk Hfail Hbefore. cbn [retryLoop].
    rewrite !elem_of_cons, elem_of_nil in Hk.
    destruct Hk as [-> | [-> | [-> | []]]].
    + by rewrite Hfail.
    + destruct (Hretried 1) as (e1 & s1 & -> & Hs1); [apply Hbefore; lia|].
      destruct (decide (s1 = _)); [done|]. cbn. by rewrite Hfail.
    + destruct (Hretried 1) as (e1 & s1 & -> & Hs1); [apply Hbefore; lia|].
      destruct (Hretried 2) as (e2 & s2 & -> & Hs2); [apply Hbefore; lia|].
      destruct (decide (s1 = _)); [done|]. cbn.
      destruct (decide (s2 = _)); [done|]. cbn. by rewrite Hfail.
  - intros error status Hfail Hstatus H1 H2. cbn [retryLoop].
    destruct (Hretried 1 H1) as (e1 & s1 & -> & Hs1).
    destruct (Hretried 2 H2) as (e2 & s2 & -> & Hs2).
    destruct (decide (s1 = _)); [done|]. cbn.
    destruct (decide (s2 = _)); [done|]. cbn. rewrite Hfail.
    by destruct (decide (status = _)).
Qed.

Lemma attemptBody_Done `{Runtime} (w : OcrWorld) (env : UniapiConfig)
    (categories fileHash : jsstring) (processedResult : Processed)
    (mimeType : jsstring) (k : nat) (result : Extracted) :
  attemptBody w env categories fileHash processedResult mimeType k
  = Done result ->
  ∃ parsed, toInternal parsed fileHash processedResult = Ok result.
Proof.
  unfold attemptBody, andThen.
  destruct (callUniAPI _ _ _ _ _ _ _) as [response|]; [|done].
  destruct (contentMatch response) as [[text|]|]; cbn [plain]; [|done..].
  destruct (JSON_parse text) as [parsed|]; cbn [plain]; [|done].
  destruct (toInternal parsed _ _) as [r|] eqn:Hr; cbn [plain]; [|done].
  intros [= <-]. by exists parsed.
Qed.

Lemma extractReceiptData_Some `{Runtime} `{NodeLib} (w : OcrWorld)
    (env : UniapiConfig) (imagePath : jsstring) (result : Extracted) :
  extractReceiptData w env imagePath = Ok (Some result) ->
  ∃ processedResult fileHash parsed,
    processImage w imagePath = Ok processedResult
    ∧ calculateFileHash w imagePath = Ok fileHash
    ∧ toInternal parsed fileHash processedResult = Ok result.
Proof.
  unfold extractReceiptData.
  destruct (processImage w imagePath) as [p|]; [|done]. cbn [bind].
  destruct (calculateFileHash w imagePath) as [h|]; [|done]. cbn [bind].
  intros Hloop. apply retryLoop_Some in Hloop as (k & _ & Hdone).
  apply attemptBody_Done in Hdone as (parsed & Hparsed).
  by exists p, h, parsed.
Qed.

Lemma getProp_Ok_object (v : jsval) (name : jsstring) (x : jsval) :
  getProp v name = Ok x -> ∀ other, ∃ y, getProp v other = Ok y.
Proof. destruct v; try done; intros _ other; by eexists. Qed.

Lemma truthy_orElse (a b : jsval) :
  truthy b = true -> truthy (orElse a b) = true.
Proof. intros Hb. unfold orElse. by destruct (truthy a) eqn:Ha. Qed.

Lemma orElse_falsy (a b : jsval) : truthy a = false -> orElse a b = b.
Proof. intros Ha. unfold orElse. by rewrite Ha. Qed.

Lemma mapOutcome_Forall {A B} (f : A -> outcome B) (l : list A)
    (l' : list B) :
  mapOutcome f l = Ok l' -> Forall (fun y => ∃ x, f x = Ok y) l'.
Proof.
  revert l'. induction l as [|x l IH]; intros l'; cbn [mapOutcome].
  - intros [= <-]. constructor.
  - destruct (f x) as [y|] eqn:Hy; [|done]. cbn [bind].
    destruct (mapOutcome f l) as [ys|]; [|done]. cbn [bind].
    intros [= <-]. constructor; [by exists x|by apply IH].
Qed.

(** What [internalItems] yields: an array of objects with the three
    properties [name], [quantity] and [price]. *)
Lemma internalItems_Ok (bill_items items : jsval) :
  internalItems bill_items = Ok items ->
  ∃ l, items = JArr l
       ∧ Forall (fun i => ∃ n q p,
                   i = JObj [(u16 "name", n); (u16 "quantity", q);
                             (u16 "price", p)]) l.
Proof.
  destruct bill_items as [| | | | |elems|]; cbn [internalItems]; try done.
  - intros [= <-]. by exists [].
  - intros [= <-]. by exists [].
  - destruct (mapOutcome internalItem elems) as [l|] eqn:Hl; [|done].
    cbn [bind]. intros [= <-]. exists l. split; [done|].
    apply mapOutcome_Forall in Hl. eapply Forall_impl; [exact Hl|].
    intros i (x & Hx). revert Hx. unfold internalItem.
    destruct (getProp x _); [|done]. cbn [bind].
    destruct (getProp x _); [|done]. cbn [bind].
    destruct (getProp x _); [|done]. cbn [bind].
    intros [= <-]. by eexists _, _, _.
Qed.

Lemma toInternal_Ok (parsed : jsval) (fileHash : jsstring)
    (processedResult : Processed) (result : Extracted) :
  toInternal parsed fileHash processedResult = Ok result ->
  ∃ total_amount currency_code vendor_name category bill_items,
    getProp parsed (u16 "total_amount") = Ok total_amount
    ∧ getProp parsed (u16 "currency_code") = Ok currency_code
    ∧ getProp parsed (u16 "vendor_name") = Ok vendor_name
    ∧ getProp parsed (u16 "category") = Ok category
    ∧ getProp parsed (u16 "bill_items") = Ok bill_items
    ∧ internalItems bill_items = Ok (ex_items result)
    ∧ ex_amount result = orElse total_amount (JNum 0)
    ∧ ex_currency result = orElse currency_code (JStr (u16 "MYR"))
    ∧ ex_currencySymbol result =
        (if isText currency_code (u16 "MYR") then JStr (u16 "RM")
         else if isText currency_code (u16 "USD") then JStr (u16 "$")
         else currency_code)
    ∧ ex_merchant result = orElse vendor_name (JStr (u16 "Unknown"))
    ∧ ex_category result = orElse category (JStr (u16 "misc"))
    ∧ ex_confidence result = JNum (95 # 100)
    ∧ ex_rawOcr result = parsed.
Proof.
  unfold toInternal.
  destruct (getProp parsed (u16 "total_amount")) as [total|]; [|done].
  destruct (getProp parsed (u16 "currency_code")) as [code|]; [|done].
  destruct (getProp parsed (u16 "vendor_name")) as [vendor|]; [|done].
  destruct (getProp parsed (u16 "date")) as [day|]; [|done].
  destruct (getProp parsed (u16 "reference_number")) as [ref|]; [|done].
  destruct (getProp parsed (u16 "payment_method")) as [pay|]; [|done].
  destruct (getProp parsed (u16 "category")) as [cat|]; [|done].
  destruct (getProp parsed (u16 "bill_items")) as [bill|]; [|done].
  cbn [bind].
  destruct (internalItems bill) as [items|] eqn:Hitems; [|done]. cbn [bind].
  intros [= <-]. exists total, code, vendor, cat, bill. by repeat split.
Qed.

(** X18. Whatever the provider's object holds, an extracted receipt has
    a merchant, a currency and a category that are not empty ("Unknown",
    "MYR" and "misc" stand in for missing ones), an amount that is 0 or
    truthy, confidence 0.95 and an array of items.  A missing currency
    code gives the currency "MYR" without its symbol: the symbol is the
    missing code itself, not "RM". *)
Theorem extracted_receipt_defaults `{Runtime} `{NodeLib} (w : OcrWorld)
    (env : UniapiConfig) (imagePath : jsstring) (result : Extracted) :
  extractReceiptData w env imagePath = Ok (Some result) ->
  truthy (ex_merchant result) = true
  ∧ truthy (ex_currency result) = true
  ∧ truthy (ex_category result) = true
  ∧ (ex_amount result = JNum 0 ∨ truthy (ex_amount result) = true)
  ∧ ex_confidence result = JNum (95 # 100)
  ∧ (∃ l, ex_items result = JArr l)
  ∧ (∀ code,
       getProp (ex_rawOcr result) (u16 "currency_code") = Ok code ->
       truthy code = false ->
       ex_currency result = JStr (u16 "MYR")
       ∧ ex_currencySymbol result = code
       ∧ truthy (ex_currencySymbol result) = false)
  ∧ (∀ vendor,
       getProp (ex_rawOcr result) (u16 "vendor_name") = Ok vendor ->
       truthy vendor = false ->
       ex_merchant result = JStr (u16 "Unknown")).
Proof.
  intros Hresult.
  apply extractReceiptData_Some in Hresult as (p & h & parsed & _ & _ & Hr).
  apply toInternal_Ok in Hr
    as (total & code & vendor & cat & bill & Htotal & Hcode & Hvendor & Hcat
        & Hbill & Hitems & -> & -> & -> & -> & -> & -> & ->).
  split; [by apply truthy_orElse|]. split; [by apply truthy_orElse|].
  split; [by apply truthy_orElse|]. split.
  { unfold orElse. destruct (truthy total) eqn:Ht; [by right|by left]. }
  split; [done|]. split.
  { apply internalItems_Ok in Hitems as (l & -> & _). by exists l. }
  split.
  - intros code' Hcode' Hfalsy. rewrite Hcode in Hcode'.
    injection Hcode' as <-. split; [by apply orElse_falsy|].
    assert (isText code (u16 "MYR") = false) as ->.
    { destruct code as [| | | |s| |]; try done. cbn in Hfalsy |- *.
      apply bool_decide_eq_false in Hfalsy.
      apply bool_decide_eq_false_2. intros ->. by apply Hfalsy. }
    assert (isText code (u16 "USD") = false) as ->; [|done].
    destruct code as [| | | |s| |]; try done. cbn in Hfalsy |- *.
    apply bool_decide_eq_false in Hfalsy.
    apply bool_decide_eq_false_2. intros ->. by apply Hfalsy.
  - intros vendor' Hvendor' Hfalsy. rewrite Hvendor in Hvendor'.
    injection Hvendor' as <-. by apply orElse_falsy.
Qed.

(** X19. The items of an extracted receipt have no say in its category:
    the extraction renames [item_description] to [name], and
    [autoCategorize] reads [item_description], so the upload route
    categorises by the category of the provider and the merchant alone.
    (The runtime lower-cases the empty string to itself.) *)
Theorem extracted_items_do_not_categorise `{Runtime} `{NodeLib}
    (w : OcrWorld) (env : UniapiConfig) (imagePath : jsstring)
    (result : Extracted) :
  toLowerCase [] = [] ->
  extractReceiptData w env imagePath = Ok (Some result) ->
  (∃ l, ex_items result = JArr l
        ∧ ∀ i, i ∈ l -> getProp i (u16 "item_description") = Ok JUndefined)
  ∧ categorize (ex_category result) (ex_merchant result) (ex_items result)
    = categorize (ex_category result) (ex_merchant result) JUndefined.
Proof.
  intros Hlower Hresult.
  apply extractReceiptData_Some in Hresult as (p & h & parsed & _ & _ & Hr).
  apply toInternal_Ok in Hr
    as (total & code & vendor & cat & bill & _ & _ & _ & _ & _ & Hitems & _).
  apply internalItems_Ok in Hitems as (l & Hl & Hshape). rewrite Hl.
  assert (∀ i, i ∈ l -> getProp i (u16 "item_description") = Ok JUndefined)
    as Hnone.
  { intros i Hi. rewrite Forall_forall in Hshape.
    by destruct (Hshape i Hi) as (n & q & pr & ->). }
  split; [by exists l|].
  assert (autoCategorize (ex_merchant result) (JArr l)
          = autoCategorize (ex_merchant result) (JArr [])) as Hsame.
  { unfold autoCategorize.
    destruct (merchantLowerOf (ex_merchant result)) as [ml|]; [|done].
    cbn [bind itemsOf mapOutcome].
    rewrite (mapOutcome_blank l Hlower).
    - cbn [bind fmap list_fmap join].
      destruct (List.find _ _) as [[key c]|]; [done|].
      by rewrite find_keyword_blank.
    - apply Forall_forall. intros i Hi. exists JUndefined.
      split; [by apply Hnone|done]. }
  unfold categorize. cbn [truthy]. by rewrite Hsame.
Qed.

Lemma validateReceiptData_num `{Runtime} (data : Extracted) (q : Q) :
  ex_amount data = JNum q ->
  validateReceiptData data
  = (if Qltb 0 q then Ok data else Throw invalidAmount).
Proof.
  intros Hq. unfold validateReceiptData, notPositive.
  rewrite Hq, ToNumber_num. cbn [truthy]. unfold Qltb.
  destruct (Qle_bool q 0) eqn:Hle; cbn [negb]; [by rewrite orb_true_r|].
  rewrite orb_false_r, negb_involutive.
  destruct (Qeq_bool q 0) eqn:Heq; [|done].
  apply Qeq_bool_iff in Heq.
  assert (Qle_bool q 0 = true) as Hle'; [|congruence].
  apply Qle_bool_iff. rewrite Heq. apply Qle_refl.
Qed.

(** X20. [validateReceiptData] hands the receipt back unchanged or throws
    "Invalid amount"; a numeric amount passes exactly when it is above
    0.  As the extraction puts 0 for a total that the provider leaves
    out or gives as [null], 0, [false] or empty text, such a receipt is
    extracted and then rejected. *)
Theorem missing_total_is_rejected `{Runtime} `{NodeLib} (w : OcrWorld)
    (env : UniapiConfig) (imagePath : jsstring) (result : Extracted) :
  extractReceiptData w env imagePath = Ok (Some result) ->
  (validateReceiptData result = Ok result
   ∨ validateReceiptData result = Throw invalidAmount)
  ∧ (∀ q, ex_amount result = JNum q ->
       (validateReceiptData result = Ok result <-> (0 < q)%Q))
  ∧ (∀ total,
       getProp (ex_rawOcr result) (u16 "total_amount") = Ok total ->
       truthy total = false ->
       ex_amount result = JNum 0
       ∧ validateReceiptData result = Throw invalidAmount).
Proof.
  intros Hresult.
  assert (∀ q, ex_amount result = JNum q ->
            (validateReceiptData result = Ok result <-> (0 < q)%Q)) as Hnum.
  { intros q Hq. rewrite (validateReceiptData_num result q Hq).
    unfold Qltb. destruct (Qle_bool q 0) eqn:Hle; cbn [negb].
    - apply Qle_bool_iff in Hle. split; [done|].
      intros Hlt. by apply Qle_not_lt in Hle.
    - split; [|done]. intros _. apply Qnot_le_lt. intros Hle'.
      apply Qle_bool_iff in Hle'. congruence. }
  split; [|split; [done|]].
  { unfold validateReceiptData. destruct (_ || _); [by right|by left]. }
  intros total Htotal Hfalsy.
  apply extractReceiptData_Some in Hresult as (p & h & parsed & _ & _ & Hr).
  apply toInternal_Ok in Hr
    as (total' & code & vendor & cat & bill & Htotal' & _ & _ & _ & _ & _
        & Hamount & _ & _ & _ & _ & _ & Hraw).
  rewrite Hraw, Htotal' in Htotal. injection Htotal as ->.
  rewrite (orElse_falsy total (JNum 0) Hfalsy) in Hamount.
  split; [done|]. by rewrite (validateReceiptData_num result 0 Hamount).
Qed.

(** X21. [processImage] fails only when the file cannot be inspected or
    read: a failure of the image library is absorbed, and the original
    bytes go out with the size of the file, as they do for a PDF;
    otherwise the processed bytes go out with their own length. *)
Theorem processImage_falls_back `{Runtime} `{NodeLib} (w : OcrWorld)
    (filePath : jsstring) (size : N) (content : buffer) :
  ocr_statSync w filePath = Ok size ->
  ocr_readFileSync w filePath = Ok content ->
  ∃ processedResult,
    processImage w filePath = Ok processedResult
    ∧ originalSize processedResult = size
    ∧ (toLowerCase (path_extname filePath) = u16 ".pdf"
       ∨ (∃ error, ocr_sharp w filePath = Throw error) ->
       pr_buffer processedResult = content
       ∧ processedSize processedResult = size)
    ∧ (∀ processedBuffer,
         toLowerCase (path_extname filePath) ≠ u16 ".pdf" ->
         ocr_sharp w filePath = Ok processedBuffer ->
         pr_buffer processedResult = processedBuffer
         ∧ processedSize processedResult
           = N.of_nat (length processedBuffer)).
Proof.
  intros Hstat Hread. unfold processImage. rewrite Hstat. cbn [bind].
  destruct (decide (toLowerCase (path_extname filePath) = u16 ".pdf"))
    as [Hpdf|Hpdf].
  - rewrite Hread. cbn [bind]. eexists. split; [done|]. split; [done|].
    split; [done|]. intros b Hne. done.
  - destruct (ocr_sharp w filePath) as [b|e] eqn:Hsharp.
    + eexists. split; [done|]. split; [done|]. split.
      * intros [?|[e He]]; done.
      * by intros b' _ [= <-].
    + rewrite Hread. cbn [bind]. eexists. split; [done|]. split; [done|].
      split; [done|]. intros b _ Hb. done.
Qed.
(** ** Worked examples on the reference runtime *)

Local Existing Instance Ref.runtime.

Lemma stringSimilarity_symmetric_one_zero_witness :
  stringSimilarity (Some []) (Some (u16 "Petronas")) = 0%Q
  ∧ stringSimilarity (Some (u16 " ")) (Some []) = 1%Q
  ∧ stringSimilarity (Some (u16 "Starbucks KLCC"))
                     (Some (u16 "STARBUCKS KLCC ")) = 1%Q.
Proof.
  destruct (stringSimilarity_symmetric_one_zero (H := Ref.runtime))
    as (_ & Hequal & _ & Hboth & Hone).
  split; [|split].
  - apply Hone; [by vm_compute|]. left. reflexivity.
  - apply Hboth. split; reflexivity.
  - apply Hequal. reflexivity.
Defined.

(** C2 as stated fails: both inputs below are empty after trimming, and
    the similarity returned is 1, not 0. *)
Lemma both_empty_similarity_is_one :
  let str1 := Some [] in
  let str2 := Some (u16 "  ") in
  (trim (toLowerCase (orEmpty str1)) = []
   ∨ trim (toLowerCase (orEmpty str2)) = [])
  ∧ stringSimilarity str1 str2 = 1%Q
  ∧ stringSimilarity str1 str2 ≠ 0%Q.
Proof. split; [by left|]. split; [reflexivity|discriminate]. Qed.

(** C6. The loops do not compute the Levenshtein distance: on "ab" and
    "cdefghijkl", which share no code unit, the distance is 10 and the
    specified similarity 0, while the array ends with 2 and
    [stringSimilarity] returns 0.8, above the merchant threshold 0.7. *)
Theorem stringSimilarity_departs_from_levenshtein :
  let str1 := Some (u16 "ab") in
  let str2 := Some (u16 "cdefghijkl") in
  levenshtein (u16 "ab") (u16 "cdefghijkl") = 10
  ∧ editCosts (u16 "ab") (u16 "cdefghijkl") !!! 10 = 2
  ∧ (specSimilarity str1 str2 == 0)%Q
  ∧ (stringSimilarity str1 str2 == 8 # 10)%Q
  ∧ Qltb (7 # 10) (stringSimilarity str1 str2) = true.
Proof. repeat split. Qed.

Lemma brace_span_is_parsed_witness :
  ∃ v, aiDuplicateAnalysis (Sample.world (JStr Sample.confidentBody))
         Sample.path [Sample.candidate] Sample.config = Ok v
       ∧ getProp v isDuplicateKey = Ok (JBool true).
Proof.
  destruct (brace_span_is_parsed (H := Ref.runtime)
              (Sample.world (JStr Sample.confidentBody))
              Sample.path [Sample.candidate] Sample.config
              [255; 216; 255]%N
              (Sample.envelope (JStr Sample.confidentBody))
              Sample.confidentBody)
    as (Hparsed & _); [discriminate|reflexivity..|].
  eexists. split.
  - apply (Hparsed (drop 20 Sample.confidentBody)); [|reflexivity].
    apply matchBraces_Some. reflexivity.
  - reflexivity.
Defined.

(** C3 as stated fails: the first well-formed JSON object of the body is
    the verdict [{"isDuplicate":true,"confidence":0.9}], and the call does
    not return its parse; the match runs on to the last closing brace of
    the body, which does not parse. *)
Lemma first_object_is_not_what_is_parsed :
  let result :=
    aiDuplicateAnalysis (Sample.world (JStr Sample.chattyBody)) Sample.path
                        [Sample.candidate] Sample.config in
  firstJsonObject Sample.chattyBody = Some Sample.chattyObject
  ∧ (∃ v, JSON_parse Sample.chattyObject = Ok v
          ∧ getProp v isDuplicateKey = Ok (JBool true)
          ∧ result ≠ Ok v)
  ∧ result = Ok (notDuplicateError Ref.SyntaxError).
Proof.
  split; [by vm_compute|]. split; [|by vm_compute].
  eexists. split; [by vm_compute|]. split; [by vm_compute|].
  vm_compute. discriminate.
Qed.

Lemma aiDuplicateAnalysis_never_throws_witness :
  aiDuplicateAnalysis Sample.offline Sample.path [Sample.candidate]
                      Sample.config
  = Ok (notDuplicateError (Error (u16 "timeout of 30000ms exceeded"))).
Proof.
  destruct (aiDuplicateAnalysis_never_throws (H := Ref.runtime)
              Sample.offline Sample.path [Sample.candidate] Sample.config)
    as (_ & _ & Hfail & _).
  destruct (Hfail ltac:(discriminate)) as (_ & Hread).
  destruct (Hread [255; 216; 255]%N eq_refl) as (Hpost & _).
  apply Hpost. reflexivity.
Defined.

(** C4 as stated fails for an answer without the expected fields: the
    body is a JSON object, it is returned as it is, and it carries neither
    [isDuplicate: false] nor [confidence: 0]. *)
Lemma missing_fields_are_returned_as_parsed :
  ∃ v, aiDuplicateAnalysis (Sample.world (JStr Sample.vagueBody))
         Sample.path [Sample.candidate] Sample.config = Ok v
       ∧ v = JObj [(u16 "reasoning", JStr (u16 "unclear"))]
       ∧ getProp v isDuplicateKey = Ok JUndefined
       ∧ getProp v confidenceKey = Ok JUndefined
       ∧ ¬ safeVerdict v.
Proof.
  eexists. split; [by vm_compute|]. split; [reflexivity|].
  split; [reflexivity|]. split; [reflexivity|].
  intros [Hdup _]. discriminate Hdup.
Qed.

Lemma detected_iff_duplicate_above_threshold_witness :
  duplicateStatus
    (duplicateGate (Sample.world (JStr Sample.confidentBody)) Sample.path
                   [Sample.candidate] Sample.config) = StatusDetected
  ∧ duplicateStatus
      (duplicateGate (Sample.world (JStr Sample.borderBody)) Sample.path
                     [Sample.candidate] Sample.config) = StatusNone.
Proof.
  split.
  - destruct (detected_iff_duplicate_above_threshold (H := Ref.runtime)
                (Sample.world (JStr Sample.confidentBody)) Sample.path
                Sample.candidate [] Sample.config
                (JObj [(u16 "matchedReceiptId", JStr (u16 "r1"));
                       (confidenceKey, JNum (19 # 20));
                       (isDuplicateKey, JBool true)])
                true (19 # 20)) as (Hiff & _);
      [cbn; lia | reflexivity | reflexivity | reflexivity | ].
    apply Hiff. split; reflexivity.
  - destruct (detected_iff_duplicate_above_threshold (H := Ref.runtime)
                (Sample.world (JStr Sample.borderBody)) Sample.path
                Sample.candidate [] Sample.config
                (JObj [(confidenceKey, JNum (7 # 10));
                       (isDuplicateKey, JBool true)])
                true (7 # 10)) as (_ & Hborder & _);
      [cbn; lia | reflexivity | reflexivity | reflexivity | ].
    apply Hborder. reflexivity.
Defined.

Lemma confidence_is_weighted_sum_witness :
  (∃ out m,
     findPotentialDuplicates Sample.db Sample.receipt None = Ok out
     ∧ m ∈ out ∧ mr_id m = u16 "r1" ∧ confidence m = 100)
  ∧ (∃ out m,
       findPotentialDuplicates (fun _ _ => Ok [Sample.oneCentMore])
                               Sample.receipt None = Ok out
       ∧ m ∈ out ∧ mr_id m = u16 "r7" ∧ confidence m = 75).
Proof.
  split.
  - destruct (confidence_is_weighted_sum (H := Ref.runtime) Sample.db
                Sample.receipt None Sample.rows Sample.same)
      as (out & Hout & Hconf & _ & Hiff & _);
      [reflexivity | repeat constructor | reflexivity |].
    exists out. eexists. split; [exact Hout|]. split.
    + apply Hiff. vm_compute. lia.
    + split; [reflexivity|]. rewrite Hconf. reflexivity.
  - destruct (confidence_is_weighted_sum (H := Ref.runtime)
                (fun _ _ => Ok [Sample.oneCentMore]) Sample.receipt None
                [Sample.oneCentMore] Sample.oneCentMore)
      as (out & Hout & Hconf & _ & Hiff & _);
      [reflexivity | repeat constructor | reflexivity |].
    exists out. eexists. split; [exact Hout|]. split.
    + apply Hiff. vm_compute. lia.
    + split; [reflexivity|]. rewrite Hconf. reflexivity.
Defined.

Lemma marked_duplicate_never_returned_witness :
  ∃ out,
    findPotentialDuplicates Sample.db Sample.receipt None = Ok out
    ∧ ∀ m, m ∈ out -> mr_id m ≠ u16 "r2".
Proof.
  destruct (marked_duplicate_never_returned (H := Ref.runtime) Sample.db
              Sample.receipt None Sample.rows Sample.marked (u16 "r1"))
    as (out & Hout & _ & _ & Hid);
    [reflexivity | repeat constructor | reflexivity | discriminate |].
  exists out. split; [exact Hout|]. apply Hid.
  apply (bool_decide_unpack _). vm_compute. exact I.
Defined.

Lemma result_sorted_descending_stable_witness :
  ∃ out,
    findPotentialDuplicates Sample.db Sample.receipt None = Ok out
    ∧ confidence <$> out = [100; 75; 75; 65]
    ∧ mr_id <$> out = [u16 "r1"; u16 "r5"; u16 "r6"; u16 "r3"].
Proof.
  destruct (result_sorted_descending_stable (H := Ref.runtime) Sample.db
              Sample.receipt None Sample.rows)
    as (out & Hout & _); [reflexivity|].
  exists out. split; [exact Hout|].
  vm_compute in Hout. injection Hout as <-. split; reflexivity.
Defined.

Lemma emitted_confidence_and_similarity_range_witness :
  ∃ out,
    findPotentialDuplicates Sample.db Sample.receipt None = Ok out
    ∧ ∀ m, m ∈ out -> 60 ≤ confidence m ≤ 100.
Proof.
  destruct (emitted_confidence_and_similarity_range (H := Ref.runtime)
              Sample.db Sample.receipt None Sample.rows)
    as (out & Hout & Hrange); [reflexivity|].
  exists out. split; [exact Hout|]. intros m Hm.
  destruct (Hrange m Hm) as [Hconf _]. revert Hconf.
  rewrite !elem_of_cons, elem_of_nil. lia.
Defined.

Lemma missing_amount_matches_missing_or_zero_witness :
  amountMatch (normalizeAmount AmountAbsent)
              (Sample.ocr 0 "2024-03-01" "Petronas") = true
  ∧ amountMatch (normalizeAmount AmountAbsent) Sample.blank = true.
Proof.
  split.
  - apply (missing_amount_matches_missing_or_zero (H := Ref.runtime)
             Sample.blank (Sample.ocr 0 "2024-03-01" "Petronas") None []);
      [reflexivity|]. right. exists false. reflexivity.
  - apply (missing_amount_matches_missing_or_zero (H := Ref.runtime)
             Sample.blank Sample.blank None []); [reflexivity|].
    left. reflexivity.
Defined.

(** The amounts are normalised and compared in binary64, as the source
    does it: the number next to 1.005 lies below it, and its hundredfold
    rounds to 100; 50.01 normalises to the number next to it, which is
    less than 0.01 above 50, so that the two match, while 1.01 and 1,
    and 0.01 and 0, are not less than 0.01 apart. *)
Example amounts_are_compared_in_binary64 :
  normalizeAmount (AmountStr (u16 "1.005")) = b64 1
  ∧ normalizeAmount (AmountNum (b64 (5001 # 100))) = b64 (5001 # 100)
  ∧ amountMatch (b64 50) (Sample.ocr (5001 # 100) "2024-03-01" "Petronas")
    = true
  ∧ amountMatch (b64 1) (Sample.ocr (101 # 100) "2024-03-01" "Petronas")
    = false
  ∧ amountMatch (b64 0) (Sample.ocr (1 # 100) "2024-03-01" "Petronas")
    = false.
Proof. repeat split; by vm_compute. Qed.

(** ** Worked examples for the further properties *)

Local Existing Instance SampleOcr.node.

(** Membership in the table of categories. *)
Local Ltac preset :=
  unfold getAllCategories, EXPENSE_CATEGORIES; cbn [fmap list_fmap snd];
  rewrite !elem_of_cons; tauto.

Lemma stringSimilarity_never_below_levenshtein_witness :
  (specSimilarity (Some (u16 "ab")) (Some (u16 "cdefghijkl"))
   <= stringSimilarity (Some (u16 "ab")) (Some (u16 "cdefghijkl")))%Q
  ∧ stringSimilarity (Some (u16 "Shell")) (Some (u16 "shall"))
    = specSimilarity (Some (u16 "Shell")) (Some (u16 "shall")).
Proof.
  split.
  - apply (stringSimilarity_never_below_levenshtein (H := Ref.runtime)).
  - apply (stringSimilarity_never_below_levenshtein (H := Ref.runtime)
             (Some (u16 "Shell")) (Some (u16 "shall"))).
    left. reflexivity.
Defined.

Lemma short_input_passes_merchant_threshold_witness :
  Qltb (7 # 10)
       (stringSimilarity (Some (u16 "ab")) (Some (u16 "cdefghijkl"))) = true.
Proof.
  destruct (short_input_passes_merchant_threshold (H := Ref.runtime)
              (Some (u16 "ab")) (Some (u16 "cdefghijkl")))
    as [_ Habove]; [discriminate | reflexivity |].
  apply Habove. vm_compute. lia.
Defined.

Lemma stringSimilarity_one_iff_equal_witness :
  trim (toLowerCase (u16 "Grab")) = trim (toLowerCase (u16 " grab ")).
Proof.
  apply (stringSimilarity_one_iff_equal (H := Ref.runtime)
           (Some (u16 "Grab")) (Some (u16 " grab "))).
  reflexivity.
Defined.

Lemma returned_reasons_agree_with_scores_witness :
  ∃ out,
    findPotentialDuplicates Sample.db Sample.receipt None = Ok out
    ∧ ∀ m, m ∈ out -> 2 ≤ length (reasons m) ≤ 3.
Proof.
  destruct (returned_reasons_agree_with_scores (H := Ref.runtime) Sample.db
              Sample.receipt None Sample.rows)
    as (out & Hout & Hall); [reflexivity|].
  exists out. split; [exact Hout|]. intros m Hm. apply (Hall m Hm).
Defined.

Lemma identical_receipt_scores_100_witness :
  ∃ m,
    scoreRow (b64 50) (Some (u16 "2024-03-01")) (u16 "starbucks klcc")
             (Sample.row "r8" (Some Sample.receipt) None) = Some m
    ∧ confidence m = 100.
Proof.
  destruct (identical_receipt_scores_100 (H := Ref.runtime) Sample.receipt
              (Sample.row "r8" (Some Sample.receipt) None)
              (u16 "2024-03-01"))
    as (m & Hm & _ & Hconf & _);
    [reflexivity | reflexivity | reflexivity | reflexivity | discriminate |].
  exists m. split; [exact Hm | exact Hconf].
Defined.

Lemma undated_comparison_scores_65_witness :
  ∃ m,
    scoreRow (b64 50) None (u16 "starbucks klcc") Sample.same = Some m
    ∧ confidence m = 65.
Proof.
  eexists. split; [reflexivity|].
  apply (undated_comparison_scores_65 (H := Ref.runtime) (b64 50) None
           (u16 "starbucks klcc") Sample.same);
    [left; reflexivity | reflexivity].
Defined.

Lemma unreadable_amount_never_matches_witness :
  ∃ m,
    scoreRow (normalizeAmount (AmountStr (u16 "N/A")))
             (Some (u16 "2024-03-01")) (u16 "starbucks klcc") Sample.same
    = Some m
    ∧ confidence m = 60.
Proof.
  eexists. split; [reflexivity|].
  apply (unreadable_amount_never_matches (H := Ref.runtime)
           (normalizeAmount (AmountStr (u16 "N/A")))
           (Some (u16 "2024-03-01")) (u16 "starbucks klcc") Sample.same);
    [left; reflexivity | reflexivity].
Defined.

Lemma one_result_per_row_witness :
  ∃ out,
    findPotentialDuplicates Sample.db Sample.receipt None = Ok out
    ∧ length out ≤ 6.
Proof.
  destruct (one_result_per_row (H := Ref.runtime) Sample.db Sample.receipt
              None Sample.rows) as (out & Hout & Hlen & _); [reflexivity|].
  exists out. split; [exact Hout | exact Hlen].
Defined.

Lemma detected_only_on_full_match_witness :
  ∃ columns,
    checkDuplicates (Sample.world (JStr Sample.confidentBody)) Sample.db
                    Sample.path Sample.receipt None Sample.config
    = Ok columns
    ∧ col_duplicate_status columns = u16 "detected"
    ∧ ∃ top, head (col_potential_duplicates columns) = Some top
             ∧ confidence top = 100.
Proof.
  destruct (detected_only_on_full_match (H := Ref.runtime)
              (Sample.world (JStr Sample.confidentBody)) Sample.db
              Sample.path Sample.receipt None Sample.config Sample.rows)
    as (columns & Hcolumns & Hdetected & _); [reflexivity|].
  exists columns. split; [exact Hcolumns|].
  assert (col_duplicate_status columns = u16 "detected") as Hstatus.
  { vm_compute in Hcolumns. injection Hcolumns as <-. reflexivity. }
  split; [exact Hstatus|].
  destruct (Hdetected Hstatus) as (top & Htop & Hconf & _).
  exists top. split; [exact Htop | exact Hconf].
Defined.

Lemma duplicate_columns_move_together_witness :
  ∃ columns,
    checkDuplicates (Sample.world (JStr Sample.borderBody)) Sample.db
                    Sample.path Sample.receipt None Sample.config
    = Ok columns
    ∧ col_status columns = u16 "processed"
    ∧ col_duplicate_of columns = JNull.
Proof.
  destruct (duplicate_columns_move_together (H := Ref.runtime)
              (Sample.world (JStr Sample.borderBody)) Sample.db
              Sample.path Sample.receipt None Sample.config Sample.rows)
    as (columns & Hcolumns & Hcases); [reflexivity | |].
  { intros r Hr. vm_compute in Hr.
    repeat (apply elem_of_cons in Hr as [-> | Hr]; [discriminate|]).
    by apply elem_of_nil in Hr. }
  exists columns. split; [exact Hcolumns|].
  vm_compute in Hcolumns. injection Hcolumns as <-.
  split; reflexivity.
Defined.

Lemma stored_candidates_are_the_best_witness :
  ∃ out columns,
    findPotentialDuplicates Sample.db Sample.receipt None = Ok out
    ∧ checkDuplicates Sample.offline Sample.db Sample.path Sample.receipt
                      None Sample.config = Ok columns
    ∧ length out = 4
    ∧ length (col_potential_duplicates columns) = 3.
Proof.
  destruct (stored_candidates_are_the_best (H := Ref.runtime) Sample.offline
              Sample.db Sample.path Sample.receipt None Sample.config
              Sample.rows)
    as (out & columns & Hout & Hcolumns & Hlen & _); [reflexivity|].
  exists out, columns. split; [exact Hout|]. split; [exact Hcolumns|].
  assert (length out = 4) as Hfour.
  { vm_compute in Hout. injection Hout as <-. reflexivity. }
  split; [exact Hfour|]. rewrite Hlen, Hfour. reflexivity.
Defined.

Lemma getCategoryById_is_total_lookup_witness :
  getCategoryById (JStr (u16 "meals")) = MEALS
  ∧ getCategoryById (JStr (u16 "Meals")) = MISC
  ∧ getCategoryById JNull = MISC.
Proof.
  destruct getCategoryById_is_total_lookup as (_ & Hknown & Hother & _).
  split; [|split].
  - apply (Hknown MEALS). preset.
  - apply Hother. intros s [= <-]. apply (bool_decide_unpack _).
    vm_compute. exact I.
  - apply Hother. discriminate.
Defined.

Lemma autoCategorize_returns_preset_witness :
  cat_id (getCategoryById (JStr (u16 "meals"))) = u16 "meals".
Proof.
  apply (autoCategorize_returns_preset (H := Ref.runtime)
           (JStr (u16 "Starbucks KLCC")) JUndefined (u16 "meals")).
  reflexivity.
Defined.

Lemma merchant_entry_decides_witness :
  ∃ first,
    autoCategorize (JStr (u16 "Starbucks at Shell")) (JArr [])
    = Ok (cat_id first)
    ∧ merchantHit (u16 "starbucks at shell") first = true.
Proof.
  destruct (merchant_entry_decides (H := Ref.runtime)
              (JStr (u16 "Starbucks at Shell")) (JArr [])
              (u16 "starbucks at shell") [] [] MEALS)
    as (first & before & after & Hfirst & _ & _ & Hhit & _);
    [reflexivity | reflexivity | reflexivity | | reflexivity |].
  { preset. }
  exists first. split; [exact Hfirst | exact Hhit].
Defined.

Lemma items_without_description_are_ignored_witness :
  autoCategorize (JStr (u16 "Starbucks KLCC")) (JArr SampleOcr.latteItems)
  = autoCategorize (JStr (u16 "Starbucks KLCC")) JUndefined.
Proof.
  apply (items_without_description_are_ignored (H := Ref.runtime));
    [reflexivity|].
  repeat constructor. exists JUndefined. split; reflexivity.
Defined.

Lemma stored_category_is_preset_witness :
  categorize (JStr (u16 "meals")) (JStr (u16 "Petronas")) JUndefined
  = Ok (JStr (u16 "meals"), u16 "Meals & Entertainment").
Proof.
  destruct (stored_category_is_preset (H := Ref.runtime)
              (JStr (u16 "meals")) (JStr (u16 "Petronas")) JUndefined)
    as (_ & Hkept & _).
  apply (Hkept MEALS); [preset | discriminate].
Defined.

Lemma extractReceiptData_retries_witness :
  (∃ result,
     extractReceiptData (SampleOcr.ocrWorld SampleOcr.flaky) Sample.config
                        Sample.path = Ok (Some result)
     ∧ ex_merchant result = JStr (u16 "Starbucks KLCC"))
  ∧ extractReceiptData (SampleOcr.ocrWorld SampleOcr.broke) Sample.config
                       Sample.path = Throw quotaExceeded.
Proof.
  split.
  - destruct (extractReceiptData_retries (H := Ref.runtime)
                (H0 := SampleOcr.node) (SampleOcr.ocrWorld SampleOcr.flaky)
                Sample.config Sample.path SampleOcr.processed
                SampleOcr.digest eq_refl eq_refl) as (_ & Hdone & _).
    eexists. split.
    + apply (Hdone 2);
        [rewrite !elem_of_cons; tauto | vm_compute; reflexivity |].
      intros j Hj. assert (j = 1) as -> by lia. discriminate.
    + reflexivity.
  - destruct (extractReceiptData_retries (H := Ref.runtime)
                (H0 := SampleOcr.node) (SampleOcr.ocrWorld SampleOcr.broke)
                Sample.config Sample.path SampleOcr.processed
                SampleOcr.digest eq_refl eq_refl) as (_ & _ & Hquota & _).
    apply (Hquota 2 (Error (u16 "Request failed with status code 402")));
      [rewrite !elem_of_cons; tauto | reflexivity |].
    intros j Hj. assert (j = 1) as -> by lia. discriminate.
Defined.

Lemma extracted_receipt_defaults_witness :
  ∃ result,
    extractReceiptData (SampleOcr.ocrWorld SampleOcr.flaky) Sample.config
                       Sample.path = Ok (Some result)
    ∧ ex_currency result = JStr (u16 "MYR")
    ∧ ex_currencySymbol result = JStr [].
Proof.
  eexists. split; [vm_compute; reflexivity|].
  match goal with
  | |- ex_currency ?r = _ ∧ _ =>
      destruct (extracted_receipt_defaults (H := Ref.runtime)
                  (H0 := SampleOcr.node)
                  (SampleOcr.ocrWorld SampleOcr.flaky) Sample.config
                  Sample.path r ltac:(vm_compute; reflexivity))
        as (_ & _ & _ & _ & _ & _ & Hcode & _)
  end.
  destruct (Hcode (JStr [])) as (Hcurrency & Hsymbol & _);
    [vm_compute; reflexivity | reflexivity |].
  split; [exact Hcurrency | exact Hsymbol].
Defined.

Lemma extracted_items_do_not_categorise_witness :
  ∃ result,
    extractReceiptData (SampleOcr.ocrWorld SampleOcr.flaky) Sample.config
                       Sample.path = Ok (Some result)
    ∧ ex_items result = JArr SampleOcr.latteItems
    ∧ categorize (ex_category result) (ex_merchant result) (ex_items result)
      = categorize (ex_category result) (ex_merchant result) JUndefined.
Proof.
  eexists. split; [vm_compute; reflexivity|].
  split; [vm_compute; reflexivity|].
  match goal with
  | |- categorize _ _ (ex_items ?r) = _ =>
      apply (extracted_items_do_not_categorise (H := Ref.runtime)
               (H0 := SampleOcr.node) (SampleOcr.ocrWorld SampleOcr.flaky)
               Sample.config Sample.path r eq_refl
               ltac:(vm_compute; reflexivity))
  end.
Defined.

Lemma missing_total_is_rejected_witness :
  ∃ result,
    extractReceiptData
      (SampleOcr.ocrWorld (fun _ => SampleOcr.answer SampleOcr.noTotalBody))
      Sample.config Sample.path = Ok (Some result)
    ∧ ex_merchant result = JStr (u16 "Petronas")
    ∧ validateReceiptData result = Throw invalidAmount.
Proof.
  eexists. split; [vm_compute; reflexivity|].
  split; [vm_compute; reflexivity|].
  match goal with
  | |- validateReceiptData ?r = _ =>
      destruct (missing_total_is_rejected (H := Ref.runtime)
                  (H0 := SampleOcr.node)
                  (SampleOcr.ocrWorld
                     (fun _ => SampleOcr.answer SampleOcr.noTotalBody))
                  Sample.config Sample.path r
                  ltac:(vm_compute; reflexivity))
        as (_ & _ & Hmissing)
  end.
  apply (Hmissing JNull); [vm_compute; reflexivity | reflexivity].
Defined.

Lemma processImage_falls_back_witness :
  ∃ processedResult,
    processImage SampleOcr.notAnImage Sample.path = Ok processedResult
    ∧ pr_buffer processedResult = [255; 216; 255]%N
    ∧ processedSize processedResult = 3%N.
Proof.
  destruct (processImage_falls_back (H := Ref.runtime)
              (H0 := SampleOcr.node) SampleOcr.notAnImage Sample.path 3%N
              [255; 216; 255]%N eq_refl eq_refl)
    as (p & Hp & _ & Hfallback & _).
  exists p. split; [exact Hp|]. apply Hfallback.
  right. eexists. reflexivity.
Defined.
